(** * balena-cli: joining and leaving a fleet, and pinning a device

    A shallow embedding of [src/lib/utils/promote.ts] ([join], [leave]
    and the functions they are made of: [execCommand], [configure],
    [deconfigure], [assertDeviceIsCompatible], [getDeviceType],
    [getOsVersion], [selectLocalBalenaOsDevice], [selectLocalDevice],
    [selectAppFromList], [getOrSelectApplication], [createOrSelectApp],
    [createApplication], [generateApplicationConfig]) and of
    [src/lib/commands/device/pin.ts] ([DevicePinCmd.run]), followed by
    the properties the specification states about them.

    Conventions of the embedding:
    - a JavaScript string is a [string] (the ASCII fragment; the two
      non-ASCII line terminators U+2028 and U+2029 are outside of it);
    - a rejected promise or a thrown value is the [Err] branch of [res];
    - what the program does to the outside (prompts, console output,
      remote commands, API writes) is appended to a trace of [event]s;
    - what the outside answers (API reads, remote command results,
      discovery) comes from records of oracles, and what the user types
      comes from a finite script that is consumed prompt by prompt. *)

From Stdlib Require Import String Ascii List Bool Arith NArith ZArith Lia.
From Stdlib Require Import DecimalString DecimalPos DecimalZ Permutation.
Import ListNotations.
Local Open Scope string_scope.
Local Open Scope list_scope.

(** ** Thrown values *)

(** The classes of thrown values the two files tell apart:
    [ExpectedError] (from [../errors]), a plain [Error],
    [sdk.errors.BalenaNotLoggedIn], and whatever else a collaborator
    rejects with ([OtherError], e.g. a closed prompt or a socket error). *)
Inductive error : Type :=
| ExpectedError (message : string)
| PlainError (message : string)
| BalenaNotLoggedIn
| OtherError (message : string).

Inductive res (A : Type) : Type :=
| Ok (a : A)
| Err (e : error).
Arguments Ok {A} a.
Arguments Err {A} e.

(** [err instanceof ExpectedError] *)
Definition instanceof_ExpectedError (e : error) : bool :=
  match e with
  | ExpectedError _ => true
  | _ => false
  end.

(** [Error.prototype.toString]: the name alone when the message is
    empty, else the name, a colon, a space and the message. *)
Definition named_message (name message : string) : string :=
  match message with
  | EmptyString => name
  | String _ _ => name ++ ": " ++ message
  end.

(** [`${err}`] *)
Definition error_toString (e : error) : string :=
  match e with
  | ExpectedError m => named_message "ExpectedError" m
  | PlainError m => named_message "Error" m
  | BalenaNotLoggedIn => named_message "BalenaNotLoggedIn" "You have to log in"
  | OtherError m => named_message "Error" m
  end.

(** ** Strings *)

Module Str.

(** [s.startsWith(p)], returning what follows the prefix. *)
Fixpoint strip_prefix (p s : string) : option string :=
  match p with
  | EmptyString => Some s
  | String a p' =>
      match s with
      | EmptyString => None
      | String b s' => if Ascii.eqb a b then strip_prefix p' s' else None
      end
  end.

Definition starts_with (p s : string) : bool :=
  match strip_prefix p s with
  | Some _ => true
  | None => false
  end.

(** [s.includes(p)] *)
Fixpoint includes (p s : string) : bool :=
  starts_with p s ||
  match s with
  | EmptyString => false
  | String _ s' => includes p s'
  end.

Definition double_quote : ascii := "034"%char.
Definition LF : ascii := "010"%char.
Definition CR : ascii := "013"%char.
Definition slash : ascii := "/"%char.

(** The ECMAScript LineTerminator class, restricted to ASCII. *)
Definition is_line_terminator (c : ascii) : bool :=
  Ascii.eqb c LF || Ascii.eqb c CR.

Fixpoint all_chars (p : ascii -> bool) (s : string) : bool :=
  match s with
  | EmptyString => true
  | String c s' => p c && all_chars p s'
  end.

(** A string that is one line: it holds no line terminator. *)
Definition one_line (s : string) : bool :=
  all_chars (fun c => negb (is_line_terminator c)) s.

Definition no_quote (s : string) : bool :=
  all_chars (fun c => negb (Ascii.eqb c double_quote)) s.

Definition no_slash (s : string) : bool :=
  all_chars (fun c => negb (Ascii.eqb c slash)) s.

(** The longest prefix of characters satisfying [p], and the rest. *)
Fixpoint span (p : ascii -> bool) (s : string) : string * string :=
  match s with
  | EmptyString => (EmptyString, EmptyString)
  | String c s' =>
      if p c then let (a, b) := span p s' in (String c a, b)
      else (EmptyString, s)
  end.

(** [s.split(sep)] for a one-character separator: never empty. *)
Fixpoint split (sep : ascii) (s : string) : list string :=
  match s with
  | EmptyString => [EmptyString]
  | String c s' =>
      if Ascii.eqb c sep then EmptyString :: split sep s'
      else
        match split sep s' with
        | [] => [String c EmptyString]
        | seg :: segs => String c seg :: segs
        end
  end.

(** [s.toLowerCase()] on ASCII: the letters [A] to [Z] are mapped,
    every other character is left as it is. *)
Definition lower_char (c : ascii) : ascii :=
  let n := nat_of_ascii c in
  if Nat.leb 65 n && Nat.leb n 90 then ascii_of_nat (n + 32) else c.

Fixpoint toLowerCase (s : string) : string :=
  match s with
  | EmptyString => EmptyString
  | String c s' => String (lower_char c) (toLowerCase s')
  end.

(** The shape of an identity-record line: the key, an equals sign and
    the value between double quotes.  [key_prefix] stops after the
    opening quote. *)
Definition key_prefix (key : string) : string :=
  key ++ "=" ++ String double_quote EmptyString.

Definition kv_line (key value : string) : string :=
  key_prefix key ++ value ++ String double_quote EmptyString.

(** [lines.join(LF)] *)
Fixpoint join_lines (ls : list string) : string :=
  match ls with
  | [] => EmptyString
  | [l] => l
  | l :: ls' => l ++ String LF (join_lines ls')
  end.

(** The lines of a text as a multiline regular expression sees them:
    the pieces between line terminators. *)
Fixpoint lines_of (s : string) : list string :=
  match s with
  | EmptyString => [EmptyString]
  | String c s' =>
      if is_line_terminator c then EmptyString :: lines_of s'
      else
        match lines_of s' with
        | [] => [String c EmptyString]
        | l :: ls => String c l :: ls
        end
  end.

End Str.

(** ** The identity-record regular expressions

    [getDeviceType] and [getOsVersion] run a multiline regular expression
    over the record: [^], the key ([SLUG] or [VERSION_ID]), an equals
    sign, a double quote, a captured group of one or more characters
    other than the double quote, a double quote, [$].  With the [m] flag
    [^] holds at the start of the text and after a line terminator, [$]
    at the end of the text and before a line terminator.  The group is
    greedy and the character that must follow it is the very one it
    excludes, so backtracking into it never helps: at a given start the
    match is decided by the longest run of non-quote characters (which
    may cross line ends). *)
Module OsRelease.

(** The pattern tried at one position that satisfies [^]; the capture. *)
Definition match_here (key s : string) : option string :=
  match Str.strip_prefix (Str.key_prefix key) s with
  | None => None
  | Some rest =>
      match Str.span (fun c => negb (Ascii.eqb c Str.double_quote)) rest with
      | (EmptyString, _) => None
      | (value, String q after) =>
          if Ascii.eqb q Str.double_quote then
            match after with
            | EmptyString => Some value
            | String c _ => if Str.is_line_terminator c then Some value else None
            end
          else None
      | (_, EmptyString) => None
      end
  end.

(** [exec]: the leftmost position at which the pattern matches.
    [bol] tells whether the current position satisfies [^]. *)
Fixpoint exec_from (key : string) (bol : bool) (s : string) : option string :=
  match s with
  | EmptyString => None
  | String c s' =>
      match (if bol then match_here key s else None) with
      | Some value => Some value
      | None => exec_from key (Str.is_line_terminator c) s'
      end
  end.

Definition exec (key output : string) : option string :=
  exec_from key true output.

(** A line that does not give the key a value: it does not start with
    the key, the equals sign and the opening quote, or it is the key
    with nothing between the quotes. *)
Definition dead_line (key l : string) : Prop :=
  Str.starts_with (Str.key_prefix key) l = false \/ l = Str.kv_line key EmptyString.

(** A record that lacks the key: no line starts with the key, the
    equals sign and the opening quote. *)
Definition lacks (key output : string) : Prop :=
  forall l, In l (Str.lines_of output) ->
    Str.starts_with (Str.key_prefix key) l = false.

(** A record in which the key is there, but only ever with an empty
    value. *)
Definition only_empty (key output : string) : Prop :=
  In (Str.kv_line key EmptyString) (Str.lines_of output) /\
  forall l, In l (Str.lines_of output) -> dead_line key l.

(** A record, given by its lines, in which [line] is the one line that
    starts with the key, the equals sign and the opening quote. *)
Definition sole_line (key line : string) (lines : list string) : Prop :=
  In line lines /\
  forall l, In l lines -> Str.starts_with (Str.key_prefix key) l = true -> l = line.

End OsRelease.

(** [getDeviceType], after [getDeviceOsRelease] has returned [output]. *)
Definition parseDeviceType (output : string) : res string :=
  match OsRelease.exec "SLUG" output with
  | None => Err (PlainError "Failed to determine device type")
  | Some value => Ok value
  end.

(** [getOsVersion], after [getDeviceOsRelease] has returned [output]. *)
Definition parseOsVersion (output : string) : res string :=
  match OsRelease.exec "VERSION_ID" output with
  | None => Err (PlainError "Failed to determine OS version ID")
  | Some value => Ok value
  end.

(** ** Effects *)

Record Application : Type := {
  id : nat;
  app_name : string;
  slug : string;
  (** [is_for__device_type[0].slug]: the expanded device type is a
      one-element tuple in [ApplicationWithDeviceType]. *)
  is_for__device_type_0_slug : string
}.

(** One entry of a [list] prompt. *)
Record Choice : Type := {
  choice_name : string;
  choice_value : string
}.

(** What the program does to the outside, in the order it does it. *)
Inductive event : Type :=
| ConsoleLog (text : string)
| ConsoleError (text : string)
| PrintErrorMessage (text : string)
| LogDebug (text : string)
| LogSuccess (text : string)
| SpinnerStart (title : string)
| SpinnerStop
| SpinnerPromise (startMessage stopMessage : string)
| RemoteExec (deviceIp cmd : string)
| AskConfirm (message : string)
| AskInput (message : string) (default : option string)
| AskList (message default : string) (choices : list Choice)
| SelectFromList (message : string) (items : list (string * Application))
| FormRun (optionNames : list string)
| ApplicationCreate (name deviceType organization : string)
| PinToRelease (uuid commit : string).

(** What the user will answer, per kind of prompt, first answer first.
    A prompt that finds its stream empty rejects: the input has closed. *)
Record Script : Type := {
  confirms : list bool;
  texts : list string;
  picks : list nat
}.

Record State : Type := {
  script : Script;
  trace : list event
}.

Definition M (A : Type) : Type := State -> res A * State.

Definition ret {A} (a : A) : M A := fun st => (Ok a, st).

Definition throw {A} (e : error) : M A := fun st => (Err e, st).

Definition bind {A B} (m : M A) (k : A -> M B) : M B :=
  fun st =>
    match m st with
    | (Ok a, st') => k a st'
    | (Err e, st') => (Err e, st')
    end.

(** [try { m } catch (err) { handler(err) }] *)
Definition try_catch {A} (m : M A) (handler : error -> M A) : M A :=
  fun st =>
    match m st with
    | (Ok a, st') => (Ok a, st')
    | (Err e, st') => handler e st'
    end.

(** [try { m } finally { cleanup }], for a cleanup that does not throw. *)
Definition try_finally {A} (m : M A) (cleanup : M unit) : M A :=
  fun st =>
    match m st with
    | (r, st') => (r, snd (cleanup st'))
    end.

Definition emit (e : event) : M unit :=
  fun st => (Ok tt, {| script := script st; trace := trace st ++ [e] |}).

(** An awaited collaborator whose outcome is already known. *)
Definition lift {A} (r : res A) : M A := fun st => (r, st).

Declare Scope prog_scope.
Delimit Scope prog_scope with prog.
Notation "x <- m ;; k" := (bind m (fun x => k))
  (at level 61, m at next level, right associativity) : prog_scope.
Notation "m ;;; k" := (bind m (fun _ => k))
  (at level 61, right associativity) : prog_scope.
Local Open Scope prog_scope.

Definition initial (sc : Script) : State := {| script := sc; trace := [] |}.

(** The state once [evs] have been added to what was done so far. *)
Definition after (st : State) (evs : list event) : State :=
  {| script := script st; trace := trace st ++ evs |}.

Definition no_answers : Script := {| confirms := []; texts := []; picks := [] |}.

(** ** The interactive prompt renderer

    The renderer ([getCliForm] of [./lazy], [confirm] and
    [selectFromList] of [./patterns]) is not among the sources; the
    specification gives its contract in section 6. *)
Module Prompt.

Definition closed : error := OtherError "prompt closed".

(** Modelled from the spec: [getCliForm().ask], which is not among the
    sources; [ask(question)] returns an answer.  With [type: list] the
    answer is the value of the picked choice.  A pick outside of the
    list stands for a closed input. *)
Definition ask_list (message default : string) (choices : list Choice) : M string :=
  fun st =>
    let sc := script st in
    let tr := trace st ++ [AskList message default choices] in
    match picks sc with
    | [] => (Err closed, {| script := sc; trace := tr |})
    | n :: rest =>
        let sc' := {| confirms := confirms sc; texts := texts sc; picks := rest |} in
        match nth_error choices n with
        | Some c => (Ok (choice_value c), {| script := sc'; trace := tr |})
        | None => (Err closed, {| script := sc'; trace := tr |})
        end
    end.

(** Modelled from the spec: [selectFromList] of [./patterns], which is
    not among the sources; [selectFromList(message, items)] returns the
    picked item. *)
Definition selectFromList (message : string) (items : list (string * Application))
  : M Application :=
  fun st =>
    let sc := script st in
    let tr := trace st ++ [SelectFromList message items] in
    match picks sc with
    | [] => (Err closed, {| script := sc; trace := tr |})
    | n :: rest =>
        let sc' := {| confirms := confirms sc; texts := texts sc; picks := rest |} in
        match nth_error items n with
        | Some item => (Ok (snd item), {| script := sc'; trace := tr |})
        | None => (Err closed, {| script := sc'; trace := tr |})
        end
    end.

(** Modelled from the spec: [confirm] of [./patterns], which is not
    among the sources; called as [confirm(false, message, undefined,
    true)] it asks, and aborts when the user declines. *)
Definition confirm (message : string) : M unit :=
  fun st =>
    let sc := script st in
    let tr := trace st ++ [AskConfirm message] in
    match confirms sc with
    | [] => (Err closed, {| script := sc; trace := tr |})
    | b :: rest =>
        let sc' := {| confirms := rest; texts := texts sc; picks := picks sc |} in
        if b then (Ok tt, {| script := sc'; trace := tr |})
        else (Err (ExpectedError "Aborted"), {| script := sc'; trace := tr |})
    end.

End Prompt.

(** ** Remote execution ([./ssh]) *)

Record Ssh : Type := {
  (** the outcome of running [cmd] on [deviceIp]: captured output, or
      the error the transport rejects with *)
  ssh_run : string -> string -> res string;
  (** [getDeviceOsRelease]: the text of the identity record *)
  ssh_os_release : string -> res string
}.

Definition getLocalDeviceCmdStdout (ssh : Ssh) (deviceIp cmd : string) : M string :=
  emit (RemoteExec deviceIp cmd) ;;;
  lift (ssh_run ssh deviceIp cmd).

(** [getDeviceOsRelease] of [./ssh].  How the record is fetched (which
    command, whether an earlier answer is reused) is decided there, not
    in [promote.ts]: the read is an answer of the oracle and adds no
    event.  The [RemoteExec] events of a trace are the calls of
    [getLocalDeviceCmdStdout] that [promote.ts] makes itself. *)
Definition getDeviceOsRelease (ssh : Ssh) (deviceIp : string) : M string :=
  lift (ssh_os_release ssh deviceIp).

Definition MIN_BALENAOS_VERSION : string := "v2.14.0".

Definition quoted (s : string) : string :=
  String Str.double_quote (s ++ String Str.double_quote EmptyString).

Definition NL : string := String Str.LF EmptyString.

(** [execCommand]: the command runs between the start and the stop of a
    spinner.  (The per-chunk updates of the spinner title, one for each
    piece of output the transport happens to deliver, are left out.) *)
Definition execCommand (ssh : Ssh) (deviceIp cmd msg : string) : M unit :=
  emit (SpinnerStart ("[" ++ deviceIp ++ "] Connecting...")) ;;;
  try_finally
    (getLocalDeviceCmdStdout ssh deviceIp cmd ;;; ret tt)
    (emit SpinnerStop).

(** ** JSON values, [JSON.stringify] and base64 *)

#[local] Set Warnings "-register-all".

(** A JavaScript value as far as a configuration payload goes.  An
    object keeps its properties in insertion order, the order
    [JSON.stringify] writes them in; numbers are the integers. *)
Inductive JsValue : Type :=
| JUndefined
| JNull
| JBool (b : bool)
| JNum (z : Z)
| JStr (s : string)
| JArr (items : list JsValue)
| JObj (props : list (string * JsValue)).

Module Json.

Definition hex_digit (n : nat) : ascii :=
  match String.get n "0123456789abcdef" with
  | Some c => c
  | None => "0"%char
  end.

Definition backslash : ascii := "092"%char.

(** The escape of one character inside a JSON string literal. *)
Definition escape_char (c : ascii) : string :=
  let n := nat_of_ascii c in
  if Ascii.eqb c Str.double_quote then String backslash (String Str.double_quote EmptyString)
  else if Ascii.eqb c backslash then String backslash (String backslash EmptyString)
  else if Nat.eqb n 8 then String backslash "b"
  else if Nat.eqb n 9 then String backslash "t"
  else if Nat.eqb n 10 then String backslash "n"
  else if Nat.eqb n 12 then String backslash "f"
  else if Nat.eqb n 13 then String backslash "r"
  else if Nat.ltb n 32 then
    String backslash
      ("u00" ++ String (hex_digit (n / 16)) (String (hex_digit (n mod 16)) EmptyString))
  else String c EmptyString.

Fixpoint escape (s : string) : string :=
  match s with
  | EmptyString => EmptyString
  | String c s' => escape_char c ++ escape s'
  end.

Definition quote (s : string) : string := quoted (escape s).

Definition number (z : Z) : string := NilZero.string_of_int (Z.to_int z).

Fixpoint join_comma (parts : list string) : string :=
  match parts with
  | [] => EmptyString
  | [p] => p
  | p :: ps => p ++ "," ++ join_comma ps
  end.

(** [JSON.stringify(v)]; [None] is [undefined].  A property whose value
    has no serialization is left out of an object, and written [null]
    in an array.  A number is written in full and the properties in the
    order of the list: that is the text JavaScript gives for the values
    [JsValid.wf] accepts. *)
Fixpoint stringify (v : JsValue) : option string :=
  match v with
  | JUndefined => None
  | JNull => Some "null"
  | JBool true => Some "true"
  | JBool false => Some "false"
  | JNum z => Some (number z)
  | JStr s => Some (quote s)
  | JArr items =>
      let fix elements (l : list JsValue) : list string :=
        match l with
        | [] => []
        | x :: l' =>
            match stringify x with
            | Some t => t
            | None => "null"
            end :: elements l'
        end in
      Some ("[" ++ join_comma (elements items) ++ "]")%string
  | JObj props =>
      let fix members (l : list (string * JsValue)) : list string :=
        match l with
        | [] => []
        | (k, x) :: l' =>
            match stringify x with
            | Some t => (quote k ++ ":" ++ t)%string :: members l'
            | None => members l'
            end
        end in
      Some ("{" ++ join_comma (members props) ++ "}")%string
  end.

(** [JSON.stringify(v, null, 2)]: one member or element per line, each
    level two spaces further in than the one around it; [indent] is
    the indentation of the line the value starts on. *)
Fixpoint join_lines_comma (indent : string) (parts : list string) : string :=
  match parts with
  | [] => EmptyString
  | [p] => indent ++ p
  | p :: ps => indent ++ p ++ "," ++ NL ++ join_lines_comma indent ps
  end.

Fixpoint stringify_pretty (indent : string) (v : JsValue) : option string :=
  let inner := (indent ++ "  ")%string in
  match v with
  | JUndefined => None
  | JNull => Some "null"
  | JBool true => Some "true"
  | JBool false => Some "false"
  | JNum z => Some (number z)
  | JStr s => Some (quote s)
  | JArr items =>
      let fix elements (l : list JsValue) : list string :=
        match l with
        | [] => []
        | x :: l' =>
            match stringify_pretty inner x with
            | Some t => t
            | None => "null"
            end :: elements l'
        end in
      match elements items with
      | [] => Some "[]"
      | parts => Some ("[" ++ NL ++ join_lines_comma inner parts ++ NL ++ indent ++ "]")%string
      end
  | JObj props =>
      let fix members (l : list (string * JsValue)) : list string :=
        match l with
        | [] => []
        | (k, x) :: l' =>
            match stringify_pretty inner x with
            | Some t => (quote k ++ ": " ++ t)%string :: members l'
            | None => members l'
            end
        end in
      match members props with
      | [] => Some "{}"
      | parts => Some ("{" ++ NL ++ join_lines_comma inner parts ++ NL ++ indent ++ "}")%string
      end
  end.

(** What a template literal prints for the result. *)
Definition interpolate (o : option string) : string :=
  match o with
  | Some s => s
  | None => "undefined"
  end.

End Json.

(** [Buffer.from(text).toString(base64)] *)
Module Base64.

(** [Buffer.from(text)]: the UTF-8 bytes of the text, a character being
    the code point of its number. *)
Definition utf8_char (c : ascii) : list N :=
  let n := N_of_ascii c in
  if (n <? 128)%N then [n]
  else [(192 + n / 64)%N; (128 + n mod 64)%N].

Fixpoint utf8 (s : string) : list N :=
  match s with
  | EmptyString => []
  | String c s' => utf8_char c ++ utf8 s'
  end.

Definition alphabet : string :=
  "ABCDEFGHIJKLMNOPQRSTUVWXYZabcdefghijklmnopqrstuvwxyz0123456789+/".

Definition pad : ascii := "="%char.

Definition digit (n : N) : ascii :=
  match String.get (N.to_nat n) alphabet with
  | Some c => c
  | None => pad
  end.

(** Three bytes give four digits; a last group of one or two bytes is
    completed with the pad character. *)
Fixpoint encode (bytes : list N) : string :=
  match bytes with
  | [] => EmptyString
  | [a] =>
      String (digit (a / 4)) (String (digit ((a mod 4) * 16))
        (String pad (String pad EmptyString)))
  | [a; b] =>
      String (digit (a / 4)) (String (digit ((a mod 4) * 16 + b / 16))
        (String (digit ((b mod 16) * 4)) (String pad EmptyString)))
  | a :: b :: c :: rest =>
      String (digit (a / 4)) (String (digit ((a mod 4) * 16 + b / 16))
        (String (digit ((b mod 16) * 4 + c / 64)) (String (digit (c mod 64))
          (encode rest))))
  end%N.

(** The value of a digit of the alphabet. *)
Definition value (c : ascii) : option N :=
  let n := N_of_ascii c in
  if (65 <=? n)%N && (n <=? 90)%N then Some (n - 65)%N
  else if (97 <=? n)%N && (n <=? 122)%N then Some (n - 71)%N
  else if (48 <=? n)%N && (n <=? 57)%N then Some (n + 4)%N
  else if (n =? 43)%N then Some 62%N
  else if (n =? 47)%N then Some 63%N
  else None.

(** What [base64 -d] recovers: four digits give three bytes, and a
    final group with one or two pad characters gives two or one. *)
Fixpoint decode (s : string) : option (list N) :=
  match s with
  | EmptyString => Some []
  | String c1 (String c2 (String c3 (String c4 rest))) =>
      match value c1, value c2 with
      | Some w, Some x =>
          let b1 := (w * 4 + x / 16)%N in
          if Ascii.eqb c3 pad then
            if Ascii.eqb c4 pad then
              match rest with
              | EmptyString => Some [b1]
              | _ => None
              end
            else None
          else
            match value c3 with
            | Some y =>
                let b2 := ((x mod 16) * 16 + y / 4)%N in
                if Ascii.eqb c4 pad then
                  match rest with
                  | EmptyString => Some [b1; b2]
                  | _ => None
                  end
                else
                  match value c4, decode rest with
                  | Some z, Some bytes => Some (b1 :: b2 :: ((y mod 4) * 64 + z)%N :: bytes)
                  | _, _ => None
                  end
            | None => None
            end
      | _, _ => None
      end
  | _ => None
  end.

End Base64.

(** ** Delivery of the configuration *)

(** [configure]: [Buffer.from(undefined)] throws a [TypeError]. *)
Definition configure_command (json : string) : string :=
  let b64 := Base64.encode (Base64.utf8 json) in
  let str := quoted ("$(base64 -d <<< " ++ b64 ++ ")") in
  "os-config join " ++ str.

Definition configure (ssh : Ssh) (deviceIp : string) (config : JsValue) : M unit :=
  match Json.stringify config with
  | None => throw (OtherError "The first argument must be of type string")
  | Some json => execCommand ssh deviceIp (configure_command json) "Configuring..."
  end.

Definition deconfigure (ssh : Ssh) (deviceIp : string) : M unit :=
  execCommand ssh deviceIp "os-config leave" "Configuring...".

(** ** Device probe *)

(** The text [stripIndent] leaves of the template in
    [assertDeviceIsCompatible], for an address that is one line. *)
Definition incompatible_message (cmd deviceIp : string) : string :=
  "Failed to execute " ++ quoted cmd ++ " on device " ++ quoted deviceIp ++ "." ++ NL ++
  "Depending on more specific error messages above, this may mean that the device" ++ NL ++
  "is incompatible. Please ensure that the device is running a balenaOS release" ++ NL ++
  "newer than " ++ MIN_BALENAOS_VERSION ++ ".".

Definition assertDeviceIsCompatible (ssh : Ssh) (deviceIp : string) : M unit :=
  let cmd := "os-config --version" in
  try_catch
    (getLocalDeviceCmdStdout ssh deviceIp cmd ;;; ret tt)
    (fun err =>
       if instanceof_ExpectedError err then throw err
       else
         emit (ConsoleError (error_toString err ++ NL)) ;;;
         throw (ExpectedError (incompatible_message cmd deviceIp))).

Definition getDeviceType (ssh : Ssh) (deviceIp : string) : M string :=
  output <- getDeviceOsRelease ssh deviceIp ;;
  lift (parseDeviceType output).

Definition getOsVersion (ssh : Ssh) (deviceIp : string) : M string :=
  output <- getDeviceOsRelease ssh deviceIp ;;
  lift (parseOsVersion output).

(** JavaScript truthiness of a string, and of an optional string. *)
Definition truthy (s : string) : bool :=
  match s with
  | EmptyString => false
  | String _ _ => true
  end.

Definition truthy_opt (o : option string) : bool :=
  match o with
  | None => false
  | Some s => truthy s
  end.

(** ** Device locator *)

Record LocalBalenaOsDevice : Type := {
  address : string;
  host : string
}.

Record Network : Type := {
  (** [discoverLocalBalenaOsDevices(timeout)] *)
  discoverLocalBalenaOsDevices : nat -> res (list LocalBalenaOsDevice);
  (** whether [docker.ping()] resolves for a host, port and timeout *)
  docker_ping : string -> nat -> nat -> bool;
  (** the order in which the pings that resolve do so: the callbacks of
      [Promise.all] push onto [responsiveDevices] as they complete *)
  settle_order : list LocalBalenaOsDevice -> list LocalBalenaOsDevice
}.

(** A network whose completion order only reorders. *)
Definition fair (net : Network) : Prop :=
  forall l, Permutation (settle_order net l) l.

Definition dockerPort : nat := 2375.
Definition dockerTimeout : nat := 2000.

Definition responds (net : Network) (device : LocalBalenaOsDevice) : bool :=
  truthy (address device) && docker_ping net (address device) dockerPort dockerTimeout.

Definition device_choice (device : LocalBalenaOsDevice) : Choice :=
  {| choice_name :=
       (if truthy (host device) then host device else "untitled")
         ++ " (" ++ address device ++ ")";
     choice_value := address device |}.

Definition no_devices_message : string :=
  "Could not find any local balenaOS devices".

Definition selectLocalBalenaOsDevice (net : Network) (timeout : nat) : M string :=
  emit (SpinnerPromise "Discovering local balenaOS devices.."
                       "Reporting discovered devices") ;;;
  devices <- lift (discoverLocalBalenaOsDevices net timeout) ;;
  let responsiveDevices := settle_order net (filter (responds net) devices) in
  if Nat.eqb (length responsiveDevices) 0 then
    throw (PlainError no_devices_message)
  else
    match devices with
    | [] => throw (OtherError "Cannot read properties of undefined")
    | first :: _ =>
        Prompt.ask_list "select a device" (address first)
          (map device_choice responsiveDevices)
    end.

Definition error_message (e : error) : string :=
  match e with
  | ExpectedError m => m
  | PlainError m => m
  | BalenaNotLoggedIn => "You have to log in"
  | OtherError m => m
  end.

Definition selectLocalDevice (net : Network) : M string :=
  try_catch
    (hostnameOrIp <- selectLocalBalenaOsDevice net 4000 ;;
     emit (ConsoleError ("==> Selected device: " ++ hostnameOrIp)) ;;;
     ret hostnameOrIp)
    (fun e =>
       if Str.includes "could not find any" (Str.toLowerCase (error_message e))
       then throw (ExpectedError (error_message e))
       else throw e).

(** ** Fleet resolver *)

Record DeviceType : Type := {
  dt_slug : string;
  (** [is_of__cpu_architecture[0].slug] *)
  is_of__cpu_architecture_0_slug : string
}.

(** The [$filter] of the three queries for fleets. *)
Inductive AppFilter : Type :=
| FilterSlug (s : string)
| FilterAppName (name : string)
| FilterDeviceTypeIn (slugs : list string).

(** The fleet-management API, as the answers it gives. *)
Record SDK : Type := {
  deviceType_get : string -> res DeviceType;
  deviceType_getAllSupported : res (list DeviceType);
  os_isArchitectureCompatibleWith : string -> string -> bool;
  application_getAllDirectlyAccessible : AppFilter -> res (list Application);
  (** by name or slug, among the fleets whose slug starts with a prefix *)
  application_getDirectlyAccessible : string -> string -> res Application;
  application_create : string -> string -> string -> res Application;
  application_get : nat -> res Application;
  auth_whoami : res (option string);
  settings_get : string -> res string
}.

Definition includes_string (l : list string) (s : string) : bool :=
  existsb (String.eqb s) l.

Definition selectAppFromList (applications : list Application) : M Application :=
  Prompt.selectFromList "Select fleet"
    (map (fun app => (slug app, app)) applications).

Definition name_prompt : string := "Enter a name for your new fleet:".

Definition name_taken_message : string :=
  "You already have a fleet with that name; please choose another.".

(** The loop of [createApplication] over the lines the user types.
    A line the validator refuses is asked again by the prompt that is
    on the screen ([shown]); a name that is taken prints the error and
    opens a new prompt.  Returns the outcome, the lines left, and what
    was shown. *)
Fixpoint askApplicationName (validate taken : string -> bool)
    (default : option string) (shown : bool) (answers : list string)
  : res string * list string * list event :=
  let prompt := if shown then [] else [AskInput name_prompt default] in
  match answers with
  | [] => (Err Prompt.closed, [], prompt)
  | appName :: rest =>
      if validate appName then
        if taken appName then
          match askApplicationName validate taken default false rest with
          | (r, rest', evs) =>
              (r, rest', prompt ++ PrintErrorMessage name_taken_message :: evs)
          end
        else (Ok appName, rest, prompt)
      else
        match askApplicationName validate taken default true rest with
        | (r, rest', evs) => (r, rest', prompt ++ evs)
        end
  end.

(** The check for a fleet of that name under the caller: the request
    resolves when there is one, and rejects when there is none (or for
    any other reason). *)
Definition name_taken (sdk : SDK) (username appName : string) : bool :=
  match application_getDirectlyAccessible sdk appName
          (Str.toLowerCase username ++ "/") with
  | Ok _ => true
  | Err _ => false
  end.

Definition createApplication (sdk : SDK) (validateApplicationName : string -> bool)
    (deviceType : string) (name : option string) : M Application :=
  whoami <- lift (auth_whoami sdk) ;;
  if negb (truthy_opt whoami) then throw BalenaNotLoggedIn
  else
    let username := match whoami with Some u => u | None => EmptyString end in
    applicationName <-
      (fun st =>
         match askApplicationName validateApplicationName (name_taken sdk username)
                 name false (texts (script st)) with
         | (r, rest, evs) =>
             (r, {| script := {| confirms := confirms (script st);
                                 texts := rest;
                                 picks := picks (script st) |};
                    trace := trace st ++ evs |})
         end) ;;
    emit (ApplicationCreate applicationName deviceType username) ;;;
    app <- lift (application_create sdk applicationName deviceType username) ;;
    lift (application_get sdk (id app)).

(** What [createApplication] shows and does, as a property of the
    events [evs] it adds when the user is about to type [answers]: the
    prompts carry the proposed name; a fleet is only created for the
    given device type and under the name of the caller; with a caller
    the first thing shown is the prompt for the name; and a first
    answer that is valid and free is the name the fleet is created
    with. *)
Definition creation_events (sdk : SDK) (validateApplicationName : string -> bool)
    (deviceType : string) (name : option string) (answers : list string)
    (evs : list event) : Prop :=
  (forall m dflt, In (AskInput m dflt) evs -> m = name_prompt /\ dflt = name) /\
  (forall n t o, In (ApplicationCreate n t o) evs ->
     t = deviceType /\ auth_whoami sdk = Ok (Some o)) /\
  (forall u, auth_whoami sdk = Ok (Some u) -> truthy u = true ->
     exists evs', evs = AskInput name_prompt name :: evs') /\
  (forall u answer more,
     auth_whoami sdk = Ok (Some u) -> truthy u = true ->
     answers = answer :: more ->
     validateApplicationName answer = true ->
     name_taken sdk u answer = false ->
     evs = [AskInput name_prompt name; ApplicationCreate answer deviceType u]).

Definition createOrSelectApp (sdk : SDK) (validateApplicationName : string -> bool)
    (compatibleDeviceTypes : list string) (deviceType : string) : M Application :=
  applications <- lift (application_getAllDirectlyAccessible sdk
                          (FilterDeviceTypeIn compatibleDeviceTypes)) ;;
  if Nat.eqb (length applications) 0 then
    Prompt.confirm ("You have no fleets this device can join." ++ NL ++
                    "Would you like to create one now?") ;;;
    createApplication sdk validateApplicationName deviceType None
  else selectAppFromList applications.

(** The device types an image for the probed device type can run on. *)
Definition compatibleDeviceTypes (sdk : SDK) (deviceType : DeviceType)
    (allDeviceTypes : list DeviceType) : list string :=
  map dt_slug
    (filter (fun dt =>
               os_isArchitectureCompatibleWith sdk
                 (is_of__cpu_architecture_0_slug deviceType)
                 (is_of__cpu_architecture_0_slug dt))
            allDeviceTypes).

(** The check for a fleet slug of the form [user/fleet]: the filter of
    the query, and the name a new fleet would be proposed with. *)
Definition name_query (appName : string) : AppFilter * string :=
  let match_ := Str.split Str.slash appName in
  if Nat.ltb 1 (length match_)
  then (FilterSlug (Str.toLowerCase appName), nth 1 match_ EmptyString)
  else (FilterAppName appName, appName).

Definition fleet_not_found_message (appName : string) : string :=
  "No fleet found with name " ++ quoted appName ++ "." ++ NL ++
  "Would you like to create it now?".

(** The two requests of the [Promise.all] are independent reads; when
    both fail the error of the first is taken. *)
Definition getOrSelectApplication (sdk : SDK) (validateApplicationName : string -> bool)
    (deviceTypeSlug : string) (appName : option string) : M Application :=
  deviceType <- lift (deviceType_get sdk deviceTypeSlug) ;;
  allDeviceTypes <- lift (deviceType_getAllSupported sdk) ;;
  let compatibleDeviceTypes := compatibleDeviceTypes sdk deviceType allDeviceTypes in
  match appName with
  | None => createOrSelectApp sdk validateApplicationName compatibleDeviceTypes deviceTypeSlug
  | Some EmptyString =>
      createOrSelectApp sdk validateApplicationName compatibleDeviceTypes deviceTypeSlug
  | Some appName =>
      let (filter_, name) := name_query appName in
      applications <- lift (application_getAllDirectlyAccessible sdk filter_) ;;
      if Nat.eqb (length applications) 0 then
        Prompt.confirm (fleet_not_found_message appName) ;;;
        createApplication sdk validateApplicationName deviceTypeSlug (Some name)
      else
        let validApplications :=
          filter (fun app => includes_string compatibleDeviceTypes
                               (is_for__device_type_0_slug app))
                 applications in
        match validApplications with
        | [] => throw (ExpectedError "No fleet found with a matching device type")
        | [app] => ret app
        | _ => selectAppFromList applications
        end
  end.

(** ** Configuration generator *)

Module Obj.

Definition t : Type := list (string * JsValue).

(** [obj[key]] *)
Fixpoint get (key : string) (obj : t) : JsValue :=
  match obj with
  | [] => JUndefined
  | (k, v) :: obj' => if String.eqb k key then v else get key obj'
  end.

(** [key in obj] *)
Definition has (key : string) (obj : t) : bool :=
  existsb (fun kv => String.eqb (fst kv) key) obj.

(** [delete obj[key]] *)
Definition delete (key : string) (obj : t) : t :=
  filter (fun kv => negb (String.eqb (fst kv) key)) obj.

(** [obj[key] = v]: in place when the key exists, else at the end. *)
Fixpoint set (key : string) (v : JsValue) (obj : t) : t :=
  match obj with
  | [] => [(key, v)]
  | (k, w) :: obj' =>
      if String.eqb k key then (k, v) :: obj' else (k, w) :: set key v obj'
  end.

(** [{...a, ...b}] *)
Definition spread (a b : t) : t :=
  fold_left (fun acc kv => set (fst kv) (snd kv) acc) b a.

End Obj.

Record ManifestOption : Type := {
  option_name : string
}.

Record Manifest : Type := {
  (** [manifest.options], which may be absent *)
  manifest_options : option (list ManifestOption)
}.

(** What [generateApplicationConfig] consults besides the prompt. *)
Record ConfigEnv : Type := {
  device_getManifestBySlug : string -> res Manifest;
  (** the values [getCliForm().run(opts, { override })] collects *)
  form_run : list ManifestOption -> JsValue -> res Obj.t;
  (** [generateApplicationConfig] of [./config] *)
  configGen : Application -> Obj.t -> res Obj.t
}.

Record ConfigOptions : Type := {
  version : string;
  appUpdatePollInterval : option Z
}.

Definition js_number (o : option Z) : JsValue :=
  match o with
  | Some z => JNum z
  | None => JUndefined
  end.

(** The last statements of [generateApplicationConfig]: the test on
    [config.connectivity] and the two [delete]s. *)
Definition strip_connman (config : Obj.t) : Obj.t :=
  match Obj.get "connectivity" config with
  | JStr mode =>
      if String.eqb mode "connman"
      then Obj.delete "files" (Obj.delete "connectivity" config)
      else config
  | _ => config
  end.

(** What the stripping step is to achieve, from the payload [config]
    that was generated to the payload [result] that is returned: the two
    keys are gone when the connectivity is [connman], nothing changes
    when it is not, and no other key is touched either way. *)
Definition stripped (config result : Obj.t) : Prop :=
  (Obj.get "connectivity" config = JStr "connman" ->
     Obj.has "connectivity" result = false /\ Obj.has "files" result = false) /\
  (Obj.get "connectivity" config <> JStr "connman" -> result = config) /\
  (forall key, key <> "connectivity" -> key <> "files" ->
     Obj.get key result = Obj.get key config /\
     Obj.has key result = Obj.has key config).

Definition generateApplicationConfig (env : ConfigEnv) (app : Application)
    (options : ConfigOptions) : M Obj.t :=
  manifest <- lift (device_getManifestBySlug env (is_for__device_type_0_slug app)) ;;
  let opts :=
    match manifest_options manifest with
    | Some l => Some (filter (fun opt => negb (String.eqb (option_name opt) "network")) l)
    | None => None
    end in
  let override := JObj [("appUpdatePollInterval", js_number (appUpdatePollInterval options))] in
  collected <-
    match opts with
    | Some l => emit (FormRun (map option_name l)) ;;; lift (form_run env l override)
    | None => ret []
    end ;;
  let values :=
    Obj.spread collected
      [("version", JStr (version options));
       ("appUpdatePollInterval", js_number (appUpdatePollInterval options))] in
  config <- lift (configGen env app values) ;;
  ret (strip_connman config).

(** ** The join and leave workflows *)

(** [deviceHostnameOrIp || (await selectLocalDevice())] *)
Definition given_or_selected (net : Network) (deviceHostnameOrIp : option string)
  : M string :=
  if truthy_opt deviceHostnameOrIp
  then ret (match deviceHostnameOrIp with Some a => a | None => EmptyString end)
  else selectLocalDevice net.

(** [app.is_for__device_type[0].slug = deviceType], on the object that
    [getOrSelectApplication] returned and that nothing else holds. *)
Definition force_device_type (app : Application) (deviceType : string) : Application :=
  {| id := id app;
     app_name := app_name app;
     slug := slug app;
     is_for__device_type_0_slug := deviceType |}.

Definition join (net : Network) (ssh : Ssh) (sdk : SDK)
    (validateApplicationName : string -> bool) (env : ConfigEnv)
    (deviceHostnameOrIp appName : option string) (appUpdatePollInterval : option Z)
  : M unit :=
  emit (LogDebug "Determining device...") ;;;
  deviceHostnameOrIp <- given_or_selected net deviceHostnameOrIp ;;
  assertDeviceIsCompatible ssh deviceHostnameOrIp ;;;
  emit (LogDebug ("Using device: " ++ deviceHostnameOrIp)) ;;;
  emit (LogDebug "Determining device type...") ;;;
  deviceType <- getDeviceType ssh deviceHostnameOrIp ;;
  emit (LogDebug ("Device type: " ++ deviceType)) ;;;
  emit (LogDebug "Determining fleet...") ;;;
  app <- getOrSelectApplication sdk validateApplicationName deviceType appName ;;
  emit (LogDebug ("Using fleet: " ++ app_name app ++
                  " (" ++ is_for__device_type_0_slug app ++ ")")) ;;;
  app <- (if negb (String.eqb (is_for__device_type_0_slug app) deviceType) then
            emit (LogDebug ("Forcing device type to: " ++ deviceType)) ;;;
            ret (force_device_type app deviceType)
          else ret app) ;;
  emit (LogDebug "Determining device OS version...") ;;;
  deviceOsVersion <- getOsVersion ssh deviceHostnameOrIp ;;
  emit (LogDebug ("Device OS version: " ++ deviceOsVersion)) ;;;
  emit (LogDebug "Generating fleet config...") ;;;
  config <- generateApplicationConfig env app
              {| version := deviceOsVersion;
                 appUpdatePollInterval := appUpdatePollInterval |} ;;
  emit (LogDebug ("Using config: " ++
                  Json.interpolate (Json.stringify_pretty EmptyString (JObj config)))) ;;;
  emit (LogDebug "Configuring...") ;;;
  configure ssh deviceHostnameOrIp (JObj config) ;;;
  platformUrl <- lift (settings_get sdk "balenaUrl") ;;
  emit (LogSuccess ("Device successfully joined " ++ platformUrl ++ "!")).

(** The text [stripIndent] leaves of the template in [leave]. *)
Definition left_message : string :=
  "Device successfully left the platform. The device will still be listed as part" ++ NL ++
  "of the fleet, but changes to the fleet will no longer affect the device and its" ++ NL ++
  "status will eventually be reported as 'Offline'. To irrecoverably delete the" ++ NL ++
  "device from the fleet, use the 'balena device rm' command or delete it through" ++ NL ++
  "the balenaCloud web dashboard.".

Definition leave (net : Network) (ssh : Ssh) (deviceHostnameOrIp : option string)
  : M unit :=
  emit (LogDebug "Determining device...") ;;;
  deviceHostnameOrIp <- given_or_selected net deviceHostnameOrIp ;;
  assertDeviceIsCompatible ssh deviceHostnameOrIp ;;;
  emit (LogDebug ("Using device: " ++ deviceHostnameOrIp)) ;;;
  emit (LogDebug "Deconfiguring...") ;;;
  deconfigure ssh deviceHostnameOrIp ;;;
  emit (LogSuccess left_message).

(** Whether an event asks the user something. *)
Definition is_prompt (e : event) : bool :=
  match e with
  | AskConfirm _ | AskInput _ _ | AskList _ _ _ | SelectFromList _ _ | FormRun _ => true
  | _ => false
  end.

(** The commands of a trace, in order: what [promote.ts] ran through
    [getLocalDeviceCmdStdout].  The reads of the identity
    record, which go through [getDeviceOsRelease], are not among
    them. *)
Fixpoint remote_commands (evs : list event) : list (string * string) :=
  match evs with
  | [] => []
  | RemoteExec deviceIp cmd :: evs' => (deviceIp, cmd) :: remote_commands evs'
  | _ :: evs' => remote_commands evs'
  end.

(** ** [balena device pin] *)

Module DevicePinCmd.

Record ArgsDef : Type := {
  uuid : string;
  releaseToPinTo : option string
}.

(** An expanded navigation property: the array the API returns. *)
Definition NavigationResource : Type := list (list (string * string)).

Record Device : Type := {
  should_be_running__release : NavigationResource;
  belongs_to__application : NavigationResource
}.

Record Balena : Type := {
  device_get : string -> res Device;
  device_pinToRelease : string -> string -> res unit;
  (** [getExpandedProp] of [../../utils/pine] *)
  getExpandedProp : NavigationResource -> string -> option string
}.

(** A template literal prints a missing value as [undefined]. *)
Definition interpolate (o : option string) : string := Json.interpolate o.

Definition backtick : string := String "096"%char EmptyString.

Definition current_state_message (pinnedRelease appSlug : option string) : string :=
  (if truthy_opt pinnedRelease
   then "This device is currently pinned to " ++ interpolate pinnedRelease ++ "."
   else "This device is not currently pinned to any release.")
  ++ " " ++ NL ++ NL ++
  "To see a list of all releases this device can be pinned to, run " ++
  backtick ++ "balena releases " ++ interpolate appSlug ++ backtick ++ ".".

Definition run (balena : Balena) (params : ArgsDef) : M unit :=
  device <- lift (device_get balena (uuid params)) ;;
  let pinnedRelease :=
    getExpandedProp balena (should_be_running__release device) "commit" in
  let appSlug := getExpandedProp balena (belongs_to__application device) "slug" in
  let releaseToPinTo := releaseToPinTo params in
  if negb (truthy_opt releaseToPinTo) then
    emit (ConsoleLog (current_state_message pinnedRelease appSlug))
  else
    let commit := match releaseToPinTo with Some c => c | None => EmptyString end in
    emit (PinToRelease (uuid params) commit) ;;;
    lift (device_pinToRelease balena (uuid params) commit).

End DevicePinCmd.

(** ** What the device reads back

    The command hands the payload to [os-config join] as the output of
    [base64 -d]: the device decodes the base64 text, reads the bytes as
    UTF-8 and parses the JSON text. *)

(** The values of the embedding that stand for a JavaScript value the
    way [Json.stringify] writes it: a number is a safe integer (it is
    written in full, not in exponent form), and the keys of an object
    are distinct and none is an array index (those an object lists
    first, in ascending order, whatever the order of insertion). *)
Module JsValid.

Definition MAX_SAFE_INTEGER : Z := 9007199254740991%Z.

Definition safe_integer (z : Z) : bool :=
  (Z.leb (- MAX_SAFE_INTEGER) z && Z.leb z MAX_SAFE_INTEGER)%Z.

Definition digit_char (c : ascii) : bool :=
  let n := nat_of_ascii c in Nat.leb 48 n && Nat.leb n 57.

(** The value of a text of digits. *)
Fixpoint digits_value (acc : N) (s : string) : N :=
  match s with
  | EmptyString => acc
  | String c s' => digits_value (acc * 10 + (N_of_ascii c - 48))%N s'
  end.

(** A canonical numeric string below [2^32 - 1]. *)
Definition array_index (key : string) : bool :=
  match key with
  | EmptyString => false
  | String c rest =>
      Str.all_chars digit_char key &&
      (negb (Ascii.eqb c "0") || match rest with EmptyString => true | _ => false end) &&
      Nat.leb (String.length key) 10 &&
      (digits_value 0 key <? 4294967295)%N
  end.

Fixpoint distinct (keys : list string) : bool :=
  match keys with
  | [] => true
  | k :: ks => negb (existsb (String.eqb k) ks) && distinct ks
  end.

Fixpoint wf (v : JsValue) : bool :=
  match v with
  | JNum z => safe_integer z
  | JArr items =>
      (fix all (l : list JsValue) : bool :=
         match l with
         | [] => true
         | x :: l' => wf x && all l'
         end) items
  | JObj props =>
      distinct (map fst props) &&
      negb (existsb array_index (map fst props)) &&
      (fix all (l : list (string * JsValue)) : bool :=
         match l with
         | [] => true
         | (_, x) :: l' => wf x && all l'
         end) props
  | _ => true
  end.

End JsValid.

(** Reading compact JSON text. *)
Module JsonRead.

Definition number_char (c : ascii) : bool :=
  JsValid.digit_char c || Ascii.eqb c "-".

Definition hex_value (c : ascii) : option nat :=
  let n := nat_of_ascii c in
  if Nat.leb 48 n && Nat.leb n 57 then Some (n - 48)
  else if Nat.leb 97 n && Nat.leb n 102 then Some (n - 87)
  else if Nat.leb 65 n && Nat.leb n 70 then Some (n - 55)
  else None.

(** The character a two-character escape stands for. *)
Definition unescape (e : ascii) : option ascii :=
  if Ascii.eqb e Str.double_quote then Some Str.double_quote
  else if Ascii.eqb e Json.backslash then Some Json.backslash
  else if Ascii.eqb e "/" then Some "/"%char
  else if Ascii.eqb e "b" then Some "008"%char
  else if Ascii.eqb e "t" then Some "009"%char
  else if Ascii.eqb e "n" then Some "010"%char
  else if Ascii.eqb e "f" then Some "012"%char
  else if Ascii.eqb e "r" then Some "013"%char
  else None.

(** A string literal after its opening quote: its characters, and the
    text after the closing quote. *)
Fixpoint read_string (s : string) : option (string * string) :=
  match s with
  | EmptyString => None
  | String c s' =>
      if Ascii.eqb c Str.double_quote then Some (EmptyString, s')
      else if Ascii.eqb c Json.backslash then
        match s' with
        | EmptyString => None
        | String e s'' =>
            if Ascii.eqb e "u" then
              match s'' with
              | String h1 (String h2 (String h3 (String h4 r))) =>
                  match hex_value h1, hex_value h2, hex_value h3, hex_value h4 with
                  | Some a, Some b, Some c3, Some d =>
                      let n := ((a * 16 + b) * 16 + c3) * 16 + d in
                      if Nat.ltb n 256 then
                        match read_string r with
                        | Some (t, rest) => Some (String (ascii_of_nat n) t, rest)
                        | None => None
                        end
                      else None
                  | _, _, _, _ => None
                  end
              | _ => None
              end
            else
              match unescape e with
              | Some c' =>
                  match read_string s'' with
                  | Some (t, rest) => Some (String c' t, rest)
                  | None => None
                  end
              | None => None
              end
        end
      else if Nat.ltb (nat_of_ascii c) 32 then None
      else
        match read_string s' with
        | Some (t, rest) => Some (String c t, rest)
        | None => None
        end
  end.

(** A number: the longest run of digits and minus signs, read as a
    decimal integer. *)
Definition read_number (s : string) : option (Z * string) :=
  let (token, rest) := Str.span number_char s in
  match NilZero.int_of_string token with
  | Some d => Some (Z.of_int d, rest)
  | None => None
  end.

(** The elements of an array after the first bracket, [read] reading
    one value; [n] bounds their number. *)
Fixpoint read_elements (read : string -> option (JsValue * string)) (n : nat)
    (s : string) : option (list JsValue * string) :=
  match n with
  | O => None
  | S n' =>
      match read s with
      | Some (v, String c r) =>
          if Ascii.eqb c "," then
            match read_elements read n' r with
            | Some (vs, rest) => Some (v :: vs, rest)
            | None => None
            end
          else if Ascii.eqb c "]" then Some ([v], r)
          else None
      | _ => None
      end
  end.

(** The members of an object after the first brace. *)
Fixpoint read_members (read : string -> option (JsValue * string)) (n : nat)
    (s : string) : option (list (string * JsValue) * string) :=
  match n with
  | O => None
  | S n' =>
      match s with
      | String q r =>
          if Ascii.eqb q Str.double_quote then
            match read_string r with
            | Some (key, String colon r') =>
                if Ascii.eqb colon ":" then
                  match read r' with
                  | Some (v, String c r'') =>
                      if Ascii.eqb c "," then
                        match read_members read n' r'' with
                        | Some (ms, rest) => Some ((key, v) :: ms, rest)
                        | None => None
                        end
                      else if Ascii.eqb c "}" then Some ([(key, v)], r'')
                      else None
                  | _ => None
                  end
                else None
            | _ => None
            end
          else None
      | EmptyString => None
      end
  end.

(** One value and the text after it; [fuel] bounds the nesting and
    the number of elements, the length of the text is enough. *)
Fixpoint read_value (fuel : nat) (s : string) : option (JsValue * string) :=
  match fuel with
  | O => None
  | S fuel' =>
      match s with
      | EmptyString => None
      | String c r =>
          if Ascii.eqb c Str.double_quote then
            match read_string r with
            | Some (t, rest) => Some (JStr t, rest)
            | None => None
            end
          else if Ascii.eqb c "[" then
            match r with
            | String c' r' =>
                if Ascii.eqb c' "]" then Some (JArr [], r')
                else
                  match read_elements (read_value fuel') fuel' r with
                  | Some (vs, rest) => Some (JArr vs, rest)
                  | None => None
                  end
            | EmptyString => None
            end
          else if Ascii.eqb c "{" then
            match r with
            | String c' r' =>
                if Ascii.eqb c' "}" then Some (JObj [], r')
                else
                  match read_members (read_value fuel') fuel' r with
                  | Some (ms, rest) => Some (JObj ms, rest)
                  | None => None
                  end
            | EmptyString => None
            end
          else if Ascii.eqb c "n" then
            match Str.strip_prefix "ull" r with
            | Some rest => Some (JNull, rest)
            | None => None
            end
          else if Ascii.eqb c "t" then
            match Str.strip_prefix "rue" r with
            | Some rest => Some (JBool true, rest)
            | None => None
            end
          else if Ascii.eqb c "f" then
            match Str.strip_prefix "alse" r with
            | Some rest => Some (JBool false, rest)
            | None => None
            end
          else
            match read_number s with
            | Some (z, rest) => Some (JNum z, rest)
            | None => None
            end
      end
  end.

(** [JSON.parse(text)] for compact text: one value and nothing after. *)
Definition parse (text : string) : option JsValue :=
  match read_value (String.length text) text with
  | Some (v, EmptyString) => Some v
  | _ => None
  end.

(** What is left of a value once written and read: an [undefined]
    element of an array is [null], an [undefined] member of an object
    is gone. *)
Fixpoint written (v : JsValue) : JsValue :=
  match v with
  | JUndefined => JNull
  | JArr items => JArr (map written items)
  | JObj props =>
      JObj ((fix members (l : list (string * JsValue)) : list (string * JsValue) :=
               match l with
               | [] => []
               | (k, JUndefined) :: l' => members l'
               | (k, x) :: l' => (k, written x) :: members l'
               end) props)
  | _ => v
  end.

(** The text of UTF-8 bytes, for characters up to 255. *)
Fixpoint utf8_text (bytes : list N) : option string :=
  match bytes with
  | [] => Some EmptyString
  | b :: rest =>
      if (b <? 128)%N then
        match utf8_text rest with
        | Some t => Some (String (ascii_of_N b) t)
        | None => None
        end
      else if (194 <=? b)%N && (b <=? 195)%N then
        match rest with
        | b2 :: rest' =>
            if (128 <=? b2)%N && (b2 <? 192)%N then
              match utf8_text rest' with
              | Some t => Some (String (ascii_of_N ((b - 192) * 64 + (b2 - 128))) t)
              | None => None
              end
            else None
        | [] => None
        end
      else None
  end.

(** Modelled from the spec: the device side, which is not among the
    sources; the device-side tool must decode and parse the payload.
    From the base64 argument of the command to the value: [base64 -d],
    the bytes as text, the text as JSON. *)
Definition received (b64 : string) : option JsValue :=
  match Base64.decode b64 with
  | Some bytes =>
      match utf8_text bytes with
      | Some text => parse text
      | None => None
      end
  | None => None
  end.

End JsonRead.

(** ** Vocabulary of the properties *)

(** A text that stops where a line starts: nothing, or a text whose
    last character is a line terminator. *)
Definition at_line_start (pre : string) : Prop :=
  pre = EmptyString \/
  exists p c, pre = (p ++ String c EmptyString)%string /\
              Str.is_line_terminator c = true.

(** A text that begins where a line ends: nothing, or a text whose
    first character is a line terminator. *)
Definition at_line_end (rest : string) : Prop :=
  rest = EmptyString \/
  exists c r, rest = String c r /\ Str.is_line_terminator c = true.

(** The text holds a whole line that gives [key] the [value]. *)
Definition stands_in (key value output : string) : Prop :=
  exists pre rest,
    output = (pre ++ Str.kv_line key value ++ rest)%string /\
    at_line_start pre /\ at_line_end rest.

(** A computation that, from any state, only adds events of one kind. *)
Definition emits_only (P : event -> bool) {A : Type} (m : M A) : Prop :=
  forall st, exists evs,
    trace (snd (m st)) = trace st ++ evs /\ forallb P evs = true.

(** The events of fleet resolution: questions to the user, the
    complaint about a taken name, and the creation of a fleet. *)
Definition fleet_event (e : event) : bool :=
  match e with
  | AskConfirm _ | AskInput _ _ | SelectFromList _ _
  | PrintErrorMessage _ | ApplicationCreate _ _ _ => true
  | _ => false
  end.

Definition is_creation (e : event) : bool :=
  match e with
  | ApplicationCreate _ _ _ => true
  | _ => false
  end.


(** A character of the base64 alphabet, or the pad character. *)
Definition base64_char (c : ascii) : bool :=
  match Base64.value c with
  | Some _ => true
  | None => Ascii.eqb c Base64.pad
  end.

(** The text of a value where one is due: [null] for a value that
    has no serialization. *)
Definition elem_text (v : JsValue) : string :=
  match Json.stringify v with
  | Some t => t
  | None => "null"
  end.

Definition is_defined (v : JsValue) : bool :=
  match v with
  | JUndefined => false
  | _ => true
  end.

(** The members of an object that are written. *)
Definition kept (props : list (string * JsValue)) : list (string * JsValue) :=
  filter (fun kv => is_defined (snd kv)) props.

Definition member_text (kv : string * JsValue) : string :=
  Json.quote (fst kv) ++ ":" ++ elem_text (snd kv).

(** A text before which a number ends: it does not go on with a digit
    or a minus sign. *)
Definition ends_number (rest : string) : bool :=
  match rest with
  | EmptyString => true
  | String c _ => negb (JsonRead.number_char c)
  end.

(** A value is read back from its text: with fuel for the length of
    the text, and before a text that does not continue a number. *)
Definition reads_back (v : JsValue) : Prop :=
  forall fuel rest,
    String.length (elem_text v) <= fuel ->
    ends_number rest = true ->
    JsonRead.read_value fuel (elem_text v ++ rest) = Some (JsonRead.written v, rest).

(** [throw] and [catch] of the outcome alone. *)
Definition outcome_unit (r : res string) : res unit :=
  match r with
  | Ok _ => Ok tt
  | Err e => Err e
  end.

(** * Scenarios

    Concrete records, networks and API states on which the definitions
    above are run. *)

Module Scenario.

Definition sample_os_release : list string :=
  [ Str.kv_line "ID" "balena-os";
    Str.kv_line "NAME" "balenaOS";
    Str.kv_line "VERSION_ID" "2.101.7";
    Str.kv_line "SLUG" "raspberrypi4-64";
    Str.kv_line "MACHINE" "raspberrypi4-64" ].

(** A record whose [SLUG] line holds nothing between the quotes. *)
Definition empty_slug_record : list string :=
  [ Str.kv_line "SLUG" "";
    Str.kv_line "VERSION_ID" "2.101.7" ].

(** A record without a [SLUG] and without a [VERSION_ID] line. *)
Definition anonymous_record : list string :=
  [ Str.kv_line "ID" "balena-os";
    Str.kv_line "NAME" "balenaOS" ].

Definition device_address : string := "192.168.1.50".

(** A device on which every command succeeds. *)
Definition healthy_ssh : Ssh :=
  {| ssh_run := fun _ _ => Ok "os-config 1.2.1";
     ssh_os_release := fun _ => Ok (Str.join_lines sample_os_release) |}.

(** A device on which the command exits with a non-zero status: the
    transport rejects with one of its expected errors. *)
Definition failing_command_ssh : Ssh :=
  {| ssh_run := fun _ _ => Err (ExpectedError "Remote command exit code 127");
     ssh_os_release := fun _ => Ok (Str.join_lines sample_os_release) |}.

(** A host that cannot be reached: a raw socket error. *)
Definition unreachable_ssh : Ssh :=
  {| ssh_run := fun _ _ => Err (OtherError "connect EHOSTUNREACH 192.168.1.50:22222");
     ssh_os_release := fun _ => Err (OtherError "connect EHOSTUNREACH 192.168.1.50:22222") |}.

Definition ssh_with_record (lines : list string) : Ssh :=
  {| ssh_run := fun _ _ => Ok EmptyString;
     ssh_os_release := fun _ => Ok (Str.join_lines lines) |}.

Definition kitchen_pi : LocalBalenaOsDevice :=
  {| address := "192.168.1.50"; host := "kitchen.local" |}.

Definition garage_pi : LocalBalenaOsDevice :=
  {| address := "192.168.1.51"; host := "" |}.

(** Two devices are discovered, only the first answers the ping. *)
Definition one_responsive : Network :=
  {| discoverLocalBalenaOsDevices := fun _ => Ok [kitchen_pi; garage_pi];
     docker_ping := fun a _ _ => String.eqb a "192.168.1.50";
     settle_order := fun l => l |}.

(** Two devices are discovered, none answers. *)
Definition none_responsive : Network :=
  {| discoverLocalBalenaOsDevices := fun _ => Ok [kitchen_pi; garage_pi];
     docker_ping := fun _ _ _ => false;
     settle_order := fun l => l |}.

Definition attic_pi : LocalBalenaOsDevice :=
  {| address := "192.168.1.52"; host := "attic.local" |}.

(** Three devices are discovered; the first does not answer, and of
    the two that do the one discovered last answers first. *)
Definition late_first : Network :=
  {| discoverLocalBalenaOsDevices := fun _ => Ok [garage_pi; kitchen_pi; attic_pi];
     docker_ping := fun a _ _ => negb (String.eqb a "192.168.1.51");
     settle_order := fun l => rev l |}.

Definition rpi4 : DeviceType :=
  {| dt_slug := "raspberrypi4-64"; is_of__cpu_architecture_0_slug := "aarch64" |}.
Definition rpi3 : DeviceType :=
  {| dt_slug := "raspberrypi3"; is_of__cpu_architecture_0_slug := "armv7hf" |}.
Definition nuc : DeviceType :=
  {| dt_slug := "intel-nuc"; is_of__cpu_architecture_0_slug := "amd64" |}.

(** An [aarch64] device also runs [armv7hf] images; nothing else mixes. *)
Definition arch_compatible (osArch appArch : string) : bool :=
  String.eqb osArch appArch ||
  (String.eqb osArch "aarch64" && String.eqb appArch "armv7hf").

Definition alice_fleet : Application :=
  {| id := 1; app_name := "sensors"; slug := "alice/sensors";
     is_for__device_type_0_slug := "raspberrypi4-64" |}.
Definition bob_fleet : Application :=
  {| id := 2; app_name := "sensors"; slug := "bob/sensors";
     is_for__device_type_0_slug := "raspberrypi3" |}.
Definition carol_fleet : Application :=
  {| id := 3; app_name := "sensors"; slug := "carol/sensors";
     is_for__device_type_0_slug := "intel-nuc" |}.

Definition created_fleet (name deviceType organization : string) : Application :=
  {| id := 4; app_name := name;
     slug := Str.toLowerCase organization ++ "/" ++ Str.toLowerCase name;
     is_for__device_type_0_slug := deviceType |}.

(** The caller is [alice]; three fleets are called [sensors], and no
    fleet has the slug [myorg/myfleet]. *)
Definition cloud : SDK :=
  {| deviceType_get := fun s =>
       if String.eqb s "raspberrypi4-64" then Ok rpi4
       else Err (OtherError "Invalid device type");
     deviceType_getAllSupported := Ok [rpi4; rpi3; nuc];
     os_isArchitectureCompatibleWith := arch_compatible;
     application_getAllDirectlyAccessible := fun f =>
       match f with
       | FilterAppName name =>
           if String.eqb name "sensors"
           then Ok [alice_fleet; bob_fleet; carol_fleet] else Ok []
       | FilterSlug _ => Ok []
       | FilterDeviceTypeIn slugs =>
           Ok (filter (fun app => includes_string slugs (is_for__device_type_0_slug app))
                      [alice_fleet; bob_fleet; carol_fleet])
       end;
     application_getDirectlyAccessible := fun name _ =>
       if String.eqb name "sensors" then Ok alice_fleet
       else Err (OtherError "Application not found");
     application_create := fun name deviceType organization =>
       Ok (created_fleet name deviceType organization);
     application_get := fun _ => Ok (created_fleet "myfleet" "raspberrypi4-64" "alice");
     auth_whoami := Ok (Some "alice");
     settings_get := fun _ => Ok "balena-cloud.com" |}.

(** The same API for a caller who is not logged in. *)
Definition logged_out : SDK :=
  {| deviceType_get := deviceType_get cloud;
     deviceType_getAllSupported := deviceType_getAllSupported cloud;
     os_isArchitectureCompatibleWith := arch_compatible;
     application_getAllDirectlyAccessible := application_getAllDirectlyAccessible cloud;
     application_getDirectlyAccessible := application_getDirectlyAccessible cloud;
     application_create := application_create cloud;
     application_get := application_get cloud;
     auth_whoami := Ok (Some "");
     settings_get := settings_get cloud |}.

Definition any_name (_ : string) : bool := true.

Definition connman_config : Obj.t :=
  [ ("applicationId", JNum 1%Z);
    ("connectivity", JStr "connman");
    ("files", JObj [("network/settings", JStr "[global]")]);
    ("appUpdatePollInterval", JNum 600000%Z) ].

Definition wifi_config : Obj.t :=
  [ ("applicationId", JNum 1%Z);
    ("connectivity", JStr "NetworkManager");
    ("files", JObj [("system-connections/wifi", JStr "[connection]")]) ].

Definition config_env (config : Obj.t) : ConfigEnv :=
  {| device_getManifestBySlug := fun _ =>
       Ok {| manifest_options :=
               Some [ {| option_name := "network" |};
                      {| option_name := "advanced" |} ] |};
     form_run := fun _ _ => Ok [("advanced", JBool false)];
     configGen := fun _ _ => Ok config |}.

Definition myorg_fleet : Application :=
  {| id := 7; app_name := "myfleet"; slug := "myorg/myfleet";
     is_for__device_type_0_slug := "raspberrypi3" |}.

(** The fleet [myorg/myfleet] exists, for a device type the probed
    device is compatible with. *)
Definition cloud_with_fleet : SDK :=
  {| deviceType_get := deviceType_get cloud;
     deviceType_getAllSupported := deviceType_getAllSupported cloud;
     os_isArchitectureCompatibleWith := arch_compatible;
     application_getAllDirectlyAccessible := fun f =>
       match f with
       | FilterSlug s => if String.eqb s "myorg/myfleet" then Ok [myorg_fleet] else Ok []
       | _ => Ok []
       end;
     application_getDirectlyAccessible := application_getDirectlyAccessible cloud;
     application_create := application_create cloud;
     application_get := application_get cloud;
     auth_whoami := auth_whoami cloud;
     settings_get := settings_get cloud |}.

(** A device type without options to ask for, and a generator that
    puts the fleet and its device type in front of the values. *)
Definition plain_env : ConfigEnv :=
  {| device_getManifestBySlug := fun _ => Ok {| manifest_options := None |};
     form_run := fun _ _ => Ok [];
     configGen := fun app values =>
       Ok (Obj.spread
             [ ("applicationId", JNum (Z.of_nat (id app)));
               ("deviceType", JStr (is_for__device_type_0_slug app)) ]
             values) |}.

(** A form that answers with a version and a poll interval of its own. *)
Definition overriding_env : ConfigEnv :=
  {| device_getManifestBySlug := fun _ =>
       Ok {| manifest_options := Some [ {| option_name := "advanced" |} ] |};
     form_run := fun _ _ =>
       Ok [ ("version", JStr "0.0.0");
            ("appUpdatePollInterval", JNum 10%Z);
            ("advanced", JBool true) ];
     configGen := fun _ values => Ok values |}.

(** A word with a character above 127: [e] with an acute accent. *)
Definition accented : string := "caf" ++ String "233"%char EmptyString.

(** A payload with a nested object, an array, an escaped string, a
    character that takes two bytes, a negative number and a member that
    is not defined. *)
Definition sample_payload : Obj.t :=
  [ ("applicationId", JNum 1%Z);
    ("deviceType", JStr "raspberrypi4-64");
    ("name", JStr accented);
    ("listenPort", JUndefined);
    ("offset", JNum (-30)%Z);
    ("files", JObj [("network/settings", JStr ("[global]" ++ NL ++ "a\b"))]);
    ("tags", JArr [JBool true; JNull; JUndefined; JStr ""]) ].



(** The text [JSON.stringify] gives for [sample_payload]. *)
Definition sample_json : string :=
  "{" ++ quoted "applicationId" ++ ":1," ++
  quoted "deviceType" ++ ":" ++ quoted "raspberrypi4-64" ++ "," ++
  quoted "name" ++ ":" ++ quoted accented ++ "," ++
  quoted "offset" ++ ":-30," ++
  quoted "files" ++ ":{" ++ quoted "network/settings" ++ ":" ++
    quoted "[global]\na\\b" ++ "}," ++
  quoted "tags" ++ ":[true,null,null," ++ quoted "" ++ "]}".

(** The base64 text of the UTF-8 bytes of [sample_json]. *)
Definition sample_base64 : string :=
  "eyJhcHBsaWNhdGlvbklkIjoxLCJkZXZpY2VUeXBlIjoicmFzcGJlcnJ5cGk0LTY0Iiwi" ++
  "bmFtZSI6ImNhZsOpIiwib2Zmc2V0IjotMzAsImZpbGVzIjp7Im5ldHdvcmsvc2V0dGlu" ++
  "Z3MiOiJbZ2xvYmFsXVxuYVxcYiJ9LCJ0YWdzIjpbdHJ1ZSxudWxsLG51bGwsIiJdfQ==".

(** What [JSON.parse] gives for [sample_json]. *)
Definition sample_received : Obj.t :=
  [ ("applicationId", JNum 1%Z);
    ("deviceType", JStr "raspberrypi4-64");
    ("name", JStr accented);
    ("offset", JNum (-30)%Z);
    ("files", JObj [("network/settings", JStr ("[global]" ++ NL ++ "a\b"))]);
    ("tags", JArr [JBool true; JNull; JNull; JStr ""]) ].

Definition pinnable : DevicePinCmd.Balena :=
  {| DevicePinCmd.device_get := fun _ =>
       Ok {| DevicePinCmd.should_be_running__release := [[("commit", "91165e5")]];
             DevicePinCmd.belongs_to__application := [[("slug", "alice/sensors")]] |};
     DevicePinCmd.device_pinToRelease := fun _ _ => Ok tt;
     DevicePinCmd.getExpandedProp := fun nav key =>
       match nav with
       | props :: _ =>
           match find (fun kv => String.eqb (fst kv) key) props with
           | Some kv => Some (snd kv)
           | None => None
           end
       | [] => None
       end |}.

End Scenario.

(** * Properties *)

(** ** Strings *)

Section StringFacts.

Lemma strip_prefix_app (p s : string) :
  Str.strip_prefix p (p ++ s) = Some s.
Proof.
  induction p as [|a p IH]; simpl; [reflexivity|].
  rewrite Ascii.eqb_refl. exact IH.
Qed.

Lemma strip_prefix_inv (p : string) :
  forall s r, Str.strip_prefix p s = Some r -> s = (p ++ r)%string.
Proof.
  induction p as [|a p IH]; simpl; intros s r H.
  - congruence.
  - destruct s as [|b s]; [discriminate|].
    destruct (Ascii.eqb_spec a b) as [->|]; [|discriminate].
    f_equal. apply IH. exact H.
Qed.

Lemma starts_with_app (p s : string) : Str.starts_with p (p ++ s) = true.
Proof. unfold Str.starts_with. rewrite strip_prefix_app. reflexivity. Qed.

Lemma includes_app (p a b : string) : Str.includes p (a ++ p ++ b) = true.
Proof.
  induction a as [|c a IH].
  - simpl append. destruct (p ++ b)%string eqn:E; simpl.
    + rewrite <- E, starts_with_app. reflexivity.
    + rewrite <- E, starts_with_app. reflexivity.
  - simpl. rewrite IH. apply orb_true_r.
Qed.

Lemma append_assoc (a b c : string) :
  ((a ++ b) ++ c = a ++ (b ++ c))%string.
Proof. induction a as [|x a IH]; simpl; [reflexivity | now rewrite IH]. Qed.

Lemma append_nil_r (a : string) : (a ++ "")%string = a.
Proof. induction a as [|x a IH]; simpl; [reflexivity | now rewrite IH]. Qed.

Lemma all_chars_app (f : ascii -> bool) (a b : string) :
  Str.all_chars f (a ++ b) = Str.all_chars f a && Str.all_chars f b.
Proof.
  induction a as [|x a IH]; simpl; [reflexivity|].
  rewrite IH. apply andb_assoc.
Qed.

(** A run of characters satisfying [f], followed by one that does not,
    is what [span] cuts off. *)
Lemma span_app_stop (f : ascii -> bool) (a : string) (c : ascii) (r : string) :
  Str.all_chars f a = true -> f c = false ->
  Str.span f (a ++ String c r) = (a, String c r).
Proof.
  intros Ha Hc. induction a as [|x a IH]; simpl in *.
  - rewrite Hc. reflexivity.
  - apply andb_true_iff in Ha as [Hx Ha]. rewrite Hx, (IH Ha). reflexivity.
Qed.

(** A prefix that holds no line terminator and does not start a line
    does not start the text the line is the first line of. *)
Lemma strip_prefix_line (p : string) :
  Str.one_line p = true ->
  forall l c r, Str.is_line_terminator c = true ->
    Str.strip_prefix p l = None ->
    Str.strip_prefix p (l ++ String c r) = None.
Proof.
  unfold Str.one_line.
  induction p as [|a p IH]; simpl; intros Hp l c r Hc H; [discriminate|].
  apply andb_true_iff in Hp as [Ha Hp].
  destruct l as [|b l]; simpl.
  - destruct (Ascii.eqb_spec a c) as [->|]; [|reflexivity].
    rewrite Hc in Ha. discriminate.
  - destruct (Ascii.eqb a b); [|reflexivity].
    apply IH; assumption.
Qed.

Lemma lines_of_not_nil (s : string) : Str.lines_of s <> [].
Proof.
  destruct s as [|c s]; simpl; [discriminate|].
  destruct (Str.is_line_terminator c); [discriminate|].
  destruct (Str.lines_of s); discriminate.
Qed.

(** A text is its first line, followed by nothing or by a line
    terminator and the rest. *)
Lemma first_line_split (s : string) :
  exists rest,
    s = (hd EmptyString (Str.lines_of s) ++ rest)%string /\
    (rest = EmptyString \/
     exists c r, rest = String c r /\ Str.is_line_terminator c = true).
Proof.
  induction s as [|c s IH]; simpl.
  - exists EmptyString. split; [reflexivity | now left].
  - destruct (Str.is_line_terminator c) eqn:Hc; simpl.
    + exists (String c s). split; [reflexivity|]. right. now exists c, s.
    + destruct IH as (rest & Hs & Hrest).
      destruct (Str.lines_of s) as [|l ls] eqn:El.
      * now apply lines_of_not_nil in El.
      * simpl in *. exists rest. split; [now rewrite <- Hs | exact Hrest].
Qed.

End StringFacts.

(** ** The identity-record pattern *)

Section IdentityRecord.

Variable key : string.
Hypothesis key_one_line : Str.one_line (Str.key_prefix key) = true.

(** The pattern matches at the start of [KEY=value] between quotes when
    the value is not empty, holds no quote, and the line ends there. *)
Lemma match_here_kv_line (value rest : string) :
  value <> EmptyString ->
  Str.no_quote value = true ->
  (rest = EmptyString \/
   exists c r, rest = String c r /\ Str.is_line_terminator c = true) ->
  OsRelease.match_here key (Str.kv_line key value ++ rest) = Some value.
Proof.
  intros Hne Hq Hrest. unfold OsRelease.match_here, Str.kv_line.
  rewrite append_assoc, strip_prefix_app, append_assoc.
  change (String Str.double_quote "" ++ rest)%string with (String Str.double_quote rest).
  rewrite span_app_stop; [| exact Hq | reflexivity].
  destruct value as [|v value]; [congruence|].
  simpl. destruct Hrest as [->|(c & r & -> & Hc)]; simpl; [reflexivity|].
  rewrite Hc. reflexivity.
Qed.

(** It does not match where the text does not start with the key, the
    equals sign and the opening quote. *)
Lemma match_here_no_prefix (s : string) :
  Str.starts_with (Str.key_prefix key) s = false ->
  OsRelease.match_here key s = None.
Proof.
  unfold Str.starts_with, OsRelease.match_here.
  destruct (Str.strip_prefix (Str.key_prefix key) s); [discriminate | reflexivity].
Qed.

(** It does not match a value of no characters. *)
Lemma match_here_empty_value (rest : string) :
  OsRelease.match_here key (Str.kv_line key EmptyString ++ rest) = None.
Proof.
  unfold OsRelease.match_here, Str.kv_line.
  rewrite append_assoc, strip_prefix_app. reflexivity.
Qed.

(** Whether the text starts with the prefix is decided by its first line. *)
Lemma starts_with_first_line (s : string) :
  Str.starts_with (Str.key_prefix key) (hd EmptyString (Str.lines_of s)) = false ->
  Str.starts_with (Str.key_prefix key) s = false.
Proof.
  destruct (first_line_split s) as (rest & Hs & Hrest).
  unfold Str.starts_with. intros H. rewrite Hs.
  destruct Hrest as [->|(c & r & -> & Hc)].
  - rewrite append_nil_r. exact H.
  - rewrite strip_prefix_line; auto.
    destruct (Str.strip_prefix (Str.key_prefix key) (hd EmptyString (Str.lines_of s)));
      [discriminate | reflexivity].
Qed.

Lemma match_here_dead_line (s : string) :
  OsRelease.dead_line key (hd EmptyString (Str.lines_of s)) ->
  OsRelease.match_here key s = None.
Proof.
  intros [H|H].
  - apply match_here_no_prefix, starts_with_first_line, H.
  - destruct (first_line_split s) as (rest & Hs & _).
    rewrite Hs, H. apply match_here_empty_value.
Qed.

(** The search fails when every line start it visits is a dead line. *)
Lemma exec_from_dead_lines (s : string) :
  forall bol,
    (bol = true -> OsRelease.dead_line key (hd EmptyString (Str.lines_of s))) ->
    (forall l, In l (tl (Str.lines_of s)) -> OsRelease.dead_line key l) ->
    OsRelease.exec_from key bol s = None.
Proof.
  induction s as [|c s IH]; intros bol Hhd Htl; [reflexivity|].
  cbn [OsRelease.exec_from].
  assert (Hhere : (if bol then OsRelease.match_here key (String c s) else None) = None).
  { destruct bol; [|reflexivity]. apply match_here_dead_line. now apply Hhd. }
  rewrite Hhere. apply IH.
  - intros Hc. apply Htl. simpl. rewrite Hc. simpl.
    destruct (Str.lines_of s) as [|l ls] eqn:El; [now apply lines_of_not_nil in El|].
    now left.
  - intros l Hl. apply Htl. simpl.
    destruct (Str.is_line_terminator c); simpl.
    + destruct (Str.lines_of s) as [|l0 ls]; [destruct Hl | now right].
    + destruct (Str.lines_of s) as [|l0 ls]; [destruct Hl | exact Hl].
Qed.

Lemma exec_dead_lines (output : string) :
  (forall l, In l (Str.lines_of output) -> OsRelease.dead_line key l) ->
  OsRelease.exec key output = None.
Proof.
  intros H. apply exec_from_dead_lines.
  - intros _. apply H.
    destruct (Str.lines_of output) as [|l ls] eqn:El;
      [now apply lines_of_not_nil in El | now left].
  - intros l Hl. apply H.
    destruct (Str.lines_of output); [destruct Hl | now right].
Qed.

(** Inside a line the search only moves on. *)
Lemma exec_from_skip_line (l : string) (rest : string) :
  Str.one_line l = true ->
  OsRelease.exec_from key false (l ++ String Str.LF rest) =
  OsRelease.exec_from key true rest.
Proof.
  unfold Str.one_line. induction l as [|c l IH]; simpl; intros H; [reflexivity|].
  apply andb_true_iff in H as [Hc H].
  apply negb_true_iff in Hc. rewrite Hc.
  destruct l as [|c' l']; [reflexivity|]. apply IH. exact H.
Qed.

Lemma exec_from_unrelated_line (l : string) (rest : string) :
  Str.one_line l = true ->
  Str.starts_with (Str.key_prefix key) l = false ->
  OsRelease.exec_from key true (l ++ String Str.LF rest) =
  OsRelease.exec_from key true rest.
Proof.
  intros Hl Hp.
  assert (Hm : OsRelease.match_here key (l ++ String Str.LF rest) = None).
  { apply match_here_no_prefix. unfold Str.starts_with in *.
    rewrite strip_prefix_line; auto.
    destruct (Str.strip_prefix (Str.key_prefix key) l); [discriminate | reflexivity]. }
  destruct l as [|c l]; simpl append in *.
  - cbn [OsRelease.exec_from]. rewrite Hm. reflexivity.
  - cbn [OsRelease.exec_from]. rewrite Hm.
    unfold Str.one_line in Hl. simpl in Hl.
    apply andb_true_iff in Hl as [Hc Hl]. apply negb_true_iff in Hc. rewrite Hc.
    apply exec_from_skip_line. exact Hl.
Qed.

Lemma exec_from_found (value rest : string) :
  value <> EmptyString ->
  Str.no_quote value = true ->
  (rest = EmptyString \/
   exists c r, rest = String c r /\ Str.is_line_terminator c = true) ->
  OsRelease.exec_from key true (Str.kv_line key value ++ rest) = Some value.
Proof.
  intros Hne Hq Hrest.
  pose proof (match_here_kv_line value rest Hne Hq Hrest) as Hm.
  destruct (Str.kv_line key value ++ rest)%string as [|c s] eqn:E.
  - unfold OsRelease.match_here in Hm.
    destruct (Str.strip_prefix (Str.key_prefix key) ""); [|discriminate].
    exfalso. unfold Str.kv_line, Str.key_prefix in E.
    destruct key; discriminate.
  - cbn [OsRelease.exec_from]. rewrite Hm. reflexivity.
Qed.

(** In a record of lines in which the only line that starts with the
    prefix is the key with [value], the search finds [value]. *)
Lemma exec_join_lines (value : string) (lines : list string) :
  value <> EmptyString ->
  Str.no_quote value = true ->
  Forall (fun l => Str.one_line l = true) lines ->
  In (Str.kv_line key value) lines ->
  (forall l, In l lines ->
     Str.starts_with (Str.key_prefix key) l = true -> l = Str.kv_line key value) ->
  OsRelease.exec key (Str.join_lines lines) = Some value.
Proof.
  intros Hne Hq. unfold OsRelease.exec.
  induction lines as [|l ls IH]; intros Hlines Hin Honly; [destruct Hin|].
  inversion Hlines as [|? ? Hl Hls]; subst.
  destruct (string_dec l (Str.kv_line key value)) as [->|Hneq].
  - destruct ls as [|l' ls'].
    + simpl. rewrite <- (append_nil_r (Str.kv_line key value)).
      apply exec_from_found; auto.
    + change (Str.join_lines (Str.kv_line key value :: l' :: ls'))
        with (Str.kv_line key value ++ String Str.LF (Str.join_lines (l' :: ls')))%string.
      apply exec_from_found; auto.
      right. eexists _, _. split; reflexivity.
  - destruct Hin as [Heq|Hin]; [congruence|].
    destruct ls as [|l' ls']; [destruct Hin|].
    change (Str.join_lines (l :: l' :: ls'))
      with (l ++ String Str.LF (Str.join_lines (l' :: ls')))%string.
    rewrite exec_from_unrelated_line; auto.
    + apply IH; auto. intros x Hx. apply Honly. now right.
    + destruct (Str.starts_with (Str.key_prefix key) l) eqn:E; [|reflexivity].
      exfalso. apply Hneq, Honly; [now left | exact E].
Qed.

End IdentityRecord.

Lemma match_here_not_empty (key s value : string) :
  OsRelease.match_here key s = Some value -> value <> EmptyString.
Proof.
  unfold OsRelease.match_here.
  destruct (Str.strip_prefix (Str.key_prefix key) s) as [rest|]; [|discriminate].
  destruct (Str.span _ rest) as [[|c run] after]; [discriminate|].
  intros H. destruct after as [|q after]; [discriminate|].
  destruct (Ascii.eqb q Str.double_quote); [|discriminate].
  destruct after as [|c' after].
  - injection H as <-. discriminate.
  - destruct (Str.is_line_terminator c'); [|discriminate].
    injection H as <-. discriminate.
Qed.

Lemma exec_not_empty (key output value : string) :
  OsRelease.exec key output = Some value -> value <> EmptyString.
Proof.
  unfold OsRelease.exec. generalize true.
  induction output as [|c s IH]; intros bol; [discriminate|].
  cbn [OsRelease.exec_from].
  destruct bol.
  - destruct (OsRelease.match_here key (String c s)) as [w|] eqn:E.
    + intros H. injection H as <-. eapply match_here_not_empty, E.
    + apply IH.
  - apply IH.
Qed.

Lemma slug_prefix_one_line : Str.one_line (Str.key_prefix "SLUG") = true.
Proof. reflexivity. Qed.

Lemma version_prefix_one_line : Str.one_line (Str.key_prefix "VERSION_ID") = true.
Proof. reflexivity. Qed.

(** ** Probing the identity record *)

(** C5, as the code has it.  When the record is made of lines, the
    line that gives [SLUG] the value [s] is the only one that starts
    with that key, likewise for [VERSION_ID] and [v], and both values
    are non-empty and hold no double quote, then [getDeviceType]
    returns exactly [s] and [getOsVersion] exactly [v], wherever the two
    lines stand and whatever other lines surround them. *)
Theorem probe_returns_record_values
    (ssh : Ssh) (deviceIp : string) (lines : list string) (s v : string) (st : State) :
  ssh_os_release ssh deviceIp = Ok (Str.join_lines lines) ->
  Forall (fun l => Str.one_line l = true) lines ->
  OsRelease.sole_line "SLUG" (Str.kv_line "SLUG" s) lines ->
  OsRelease.sole_line "VERSION_ID" (Str.kv_line "VERSION_ID" v) lines ->
  s <> EmptyString -> Str.no_quote s = true ->
  v <> EmptyString -> Str.no_quote v = true ->
  getDeviceType ssh deviceIp st = (Ok s, st) /\
  getOsVersion ssh deviceIp st = (Ok v, st).
Proof.
  intros Hrec Hlines [Hs Hs1] [Hv Hv1] Hsne Hsq Hvne Hvq.
  unfold getDeviceType, getOsVersion, getDeviceOsRelease, bind, lift.
  rewrite Hrec. unfold parseDeviceType, parseOsVersion.
  rewrite (exec_join_lines "SLUG" slug_prefix_one_line s lines); auto.
  rewrite (exec_join_lines "VERSION_ID" version_prefix_one_line v lines); auto.
Qed.

Lemma probe_returns_record_values_sample :
  getDeviceType Scenario.healthy_ssh Scenario.device_address (initial no_answers)
    = (Ok "raspberrypi4-64", initial no_answers) /\
  getOsVersion Scenario.healthy_ssh Scenario.device_address (initial no_answers)
    = (Ok "2.101.7", initial no_answers).
Proof.
  apply (probe_returns_record_values Scenario.healthy_ssh Scenario.device_address
           Scenario.sample_os_release "raspberrypi4-64" "2.101.7").
  - reflexivity.
  - repeat constructor.
  - split.
    + simpl. tauto.
    + intros l Hl Hp. simpl in Hl.
      repeat (destruct Hl as [<-|Hl]; [vm_compute in Hp; first [discriminate | reflexivity]|]).
      destruct Hl.
  - split.
    + simpl. tauto.
    + intros l Hl Hp. simpl in Hl.
      repeat (destruct Hl as [<-|Hl]; [vm_compute in Hp; first [discriminate | reflexivity]|]).
      destruct Hl.
  - discriminate.
  - reflexivity.
  - discriminate.
  - reflexivity.
Defined.

(** C5 as stated fails: a record holds a [SLUG] line and a
    [VERSION_ID] line, the value of [SLUG] is the empty string, and
    [getDeviceType] does not return it. *)
Lemma probe_rejects_empty_slug :
  let record := Scenario.empty_slug_record in
  let ssh := Scenario.ssh_with_record record in
  In (Str.kv_line "SLUG" "") record /\
  In (Str.kv_line "VERSION_ID" "2.101.7") record /\
  getDeviceType ssh Scenario.device_address (initial no_answers)
    = (Err (PlainError "Failed to determine device type"), initial no_answers) /\
  fst (getDeviceType ssh Scenario.device_address (initial no_answers)) <> Ok "".
Proof.
  cbv zeta. split; [simpl; tauto|]. split; [simpl; tauto|].
  split; [reflexivity|]. vm_compute. discriminate.
Qed.

(** C6.  On a record that lacks the [SLUG] key [getDeviceType] fails
    with its probe error, on a record that lacks the [VERSION_ID] key
    [getOsVersion] fails with its own; neither returns a value. *)
Theorem probe_fails_on_missing_key
    (ssh : Ssh) (deviceIp output : string) (st : State) :
  ssh_os_release ssh deviceIp = Ok output ->
  (OsRelease.lacks "SLUG" output ->
   getDeviceType ssh deviceIp st
     = (Err (PlainError "Failed to determine device type"), st)) /\
  (OsRelease.lacks "VERSION_ID" output ->
   getOsVersion ssh deviceIp st
     = (Err (PlainError "Failed to determine OS version ID"), st)).
Proof.
  intros Hrec.
  unfold getDeviceType, getOsVersion, getDeviceOsRelease, bind, lift.
  rewrite Hrec. unfold parseDeviceType, parseOsVersion.
  split; intros H.
  - rewrite (exec_dead_lines "SLUG" slug_prefix_one_line); [reflexivity|].
    intros l Hl. left. now apply H.
  - rewrite (exec_dead_lines "VERSION_ID" version_prefix_one_line); [reflexivity|].
    intros l Hl. left. now apply H.
Qed.

Lemma anonymous_record_lacks (key : string) :
  Str.starts_with (Str.key_prefix key) (Str.kv_line "ID" "balena-os") = false ->
  Str.starts_with (Str.key_prefix key) (Str.kv_line "NAME" "balenaOS") = false ->
  OsRelease.lacks key (Str.join_lines Scenario.anonymous_record).
Proof.
  intros H1 H2 l Hl. vm_compute in Hl.
  destruct Hl as [<-|[<-|[]]]; assumption.
Defined.

Lemma probe_fails_on_missing_key_sample :
  let ssh := Scenario.ssh_with_record Scenario.anonymous_record in
  getDeviceType ssh Scenario.device_address (initial no_answers)
    = (Err (PlainError "Failed to determine device type"), initial no_answers) /\
  getOsVersion ssh Scenario.device_address (initial no_answers)
    = (Err (PlainError "Failed to determine OS version ID"), initial no_answers).
Proof.
  cbv zeta.
  destruct (probe_fails_on_missing_key
              (Scenario.ssh_with_record Scenario.anonymous_record)
              Scenario.device_address
              (Str.join_lines Scenario.anonymous_record)
              (initial no_answers) eq_refl) as [Hslug Hversion].
  split.
  - apply Hslug. apply anonymous_record_lacks; reflexivity.
  - apply Hversion. apply anonymous_record_lacks; reflexivity.
Defined.

(** C9.  On a record in which [SLUG] only ever comes with nothing
    between the quotes, [getDeviceType] fails with the very error of a
    missing key, and so does [getOsVersion] for [VERSION_ID]; and a
    value either of them returns is never the empty string. *)
Theorem probe_fails_on_empty_value
    (ssh : Ssh) (deviceIp output : string) (st : State) :
  ssh_os_release ssh deviceIp = Ok output ->
  (OsRelease.only_empty "SLUG" output ->
   getDeviceType ssh deviceIp st
     = (Err (PlainError "Failed to determine device type"), st)) /\
  (OsRelease.only_empty "VERSION_ID" output ->
   getOsVersion ssh deviceIp st
     = (Err (PlainError "Failed to determine OS version ID"), st)) /\
  (forall value, fst (getDeviceType ssh deviceIp st) = Ok value -> value <> EmptyString) /\
  (forall value, fst (getOsVersion ssh deviceIp st) = Ok value -> value <> EmptyString).
Proof.
  intros Hrec.
  unfold getDeviceType, getOsVersion, getDeviceOsRelease, bind, lift.
  rewrite Hrec. unfold parseDeviceType, parseOsVersion.
  repeat split.
  - intros [_ H].
    rewrite (exec_dead_lines "SLUG" slug_prefix_one_line); [reflexivity | exact H].
  - intros [_ H].
    rewrite (exec_dead_lines "VERSION_ID" version_prefix_one_line); [reflexivity | exact H].
  - intros value. destruct (OsRelease.exec "SLUG" output) as [w|] eqn:E; simpl.
    + intros H. injection H as <-. eapply exec_not_empty, E.
    + discriminate.
  - intros value. destruct (OsRelease.exec "VERSION_ID" output) as [w|] eqn:E; simpl.
    + intros H. injection H as <-. eapply exec_not_empty, E.
    + discriminate.
Qed.

Lemma probe_fails_on_empty_value_sample :
  getDeviceType (Scenario.ssh_with_record Scenario.empty_slug_record)
      Scenario.device_address (initial no_answers)
    = (Err (PlainError "Failed to determine device type"), initial no_answers).
Proof.
  apply (probe_fails_on_empty_value
           (Scenario.ssh_with_record Scenario.empty_slug_record)
           Scenario.device_address
           (Str.join_lines Scenario.empty_slug_record)
           (initial no_answers) eq_refl).
  split.
  - vm_compute. tauto.
  - intros l Hl. vm_compute in Hl.
    destruct Hl as [<-|[<-|[]]]; [right | left]; reflexivity.
Defined.

(** ** The compatibility check *)

Lemma incompatible_message_names_minimum (cmd deviceIp : string) :
  Str.includes MIN_BALENAOS_VERSION (incompatible_message cmd deviceIp) = true.
Proof.
  unfold incompatible_message.
  repeat rewrite <- append_assoc.
  rewrite append_assoc. apply includes_app.
Qed.

(** C3, as the code has it.  [assertDeviceIsCompatible] runs the
    version command once.  It returns when the command succeeds.  A
    failure that is an [ExpectedError] is thrown again as it is.  Any
    other failure is printed on the error output and replaced by one
    [ExpectedError] whose message names [MIN_BALENAOS_VERSION]. *)
Theorem compatibility_check_outcomes (ssh : Ssh) (deviceIp : string) (st : State) :
  let cmd := "os-config --version" in
  let ran := after st [RemoteExec deviceIp cmd] in
  (forall out, ssh_run ssh deviceIp cmd = Ok out ->
     assertDeviceIsCompatible ssh deviceIp st = (Ok tt, ran)) /\
  (forall e, ssh_run ssh deviceIp cmd = Err e ->
     instanceof_ExpectedError e = true ->
     assertDeviceIsCompatible ssh deviceIp st = (Err e, ran)) /\
  (forall e, ssh_run ssh deviceIp cmd = Err e ->
     instanceof_ExpectedError e = false ->
     assertDeviceIsCompatible ssh deviceIp st
       = (Err (ExpectedError (incompatible_message cmd deviceIp)),
          after ran [ConsoleError (error_toString e ++ NL)]) /\
     Str.includes MIN_BALENAOS_VERSION (incompatible_message cmd deviceIp) = true).
Proof.
  cbv zeta.
  unfold assertDeviceIsCompatible, try_catch, getLocalDeviceCmdStdout, bind, lift, emit.
  split; [|split].
  - intros out H. rewrite H. reflexivity.
  - intros e H He. rewrite H, He. reflexivity.
  - intros e H He. split.
    + rewrite H, He. reflexivity.
    + apply incompatible_message_names_minimum.
Qed.

Lemma compatibility_check_unreachable_sample :
  assertDeviceIsCompatible Scenario.unreachable_ssh Scenario.device_address
      (initial no_answers)
    = (Err (ExpectedError
              (incompatible_message "os-config --version" Scenario.device_address)),
       after (after (initial no_answers)
                [RemoteExec Scenario.device_address "os-config --version"])
             [ConsoleError
                (error_toString (OtherError "connect EHOSTUNREACH 192.168.1.50:22222")
                 ++ NL)]) /\
  Str.includes MIN_BALENAOS_VERSION
    (incompatible_message "os-config --version" Scenario.device_address) = true.
Proof.
  apply (compatibility_check_outcomes Scenario.unreachable_ssh Scenario.device_address
           (initial no_answers)); reflexivity.
Defined.

(** C3 as stated fails: the command exits with a non-zero status, the
    transport rejects with an [ExpectedError], and the caller gets that
    very error, whose message does not name the minimum version. *)
Lemma compatibility_check_rethrows_expected :
  let e := ExpectedError "Remote command exit code 127" in
  ssh_run Scenario.failing_command_ssh Scenario.device_address "os-config --version"
    = Err e /\
  fst (assertDeviceIsCompatible Scenario.failing_command_ssh Scenario.device_address
         (initial no_answers)) = Err e /\
  Str.includes MIN_BALENAOS_VERSION (error_message e) = false.
Proof. cbv zeta. repeat split. Qed.

(** ** Locating a device *)

Lemma fair_nil (net : Network) : fair net -> settle_order net [] = [].
Proof.
  intros H. apply Permutation_nil, Permutation_sym, H.
Qed.

Lemma fair_one (net : Network) (d : LocalBalenaOsDevice) :
  fair net -> settle_order net [d] = [d].
Proof.
  intros H. apply Permutation_length_1_inv, Permutation_sym, H.
Qed.

Lemma fair_length (net : Network) (l : list LocalBalenaOsDevice) :
  fair net -> length (settle_order net l) = length l.
Proof. intros H. apply Permutation_length, H. Qed.

(** C2, as the code has it.  With no responsive candidate
    [selectLocalBalenaOsDevice] fails with its no-devices error and asks
    nothing.  With exactly one it still opens the list prompt, on that
    one candidate, with the first discovered address as the default; the
    only address it can return is that candidate's, and it returns it
    as soon as the user picks the entry. *)
Theorem locate_outcomes (net : Network) (timeout : nat)
    (devices : list LocalBalenaOsDevice) (st : State) :
  fair net ->
  discoverLocalBalenaOsDevices net timeout = Ok devices ->
  let searched :=
    after st [SpinnerPromise "Discovering local balenaOS devices.."
                       "Reporting discovered devices"] in
  let run := selectLocalBalenaOsDevice net timeout st in
  (filter (responds net) devices = [] ->
     run = (Err (PlainError no_devices_message), searched)) /\
  (forall d, filter (responds net) devices = [d] ->
     exists first,
       hd_error devices = Some first /\
       trace (snd run)
         = trace searched ++
           [AskList "select a device" (address first) [device_choice d]] /\
       (forall a, fst run = Ok a -> a = address d) /\
       (forall rest, picks (script st) = 0 :: rest -> fst run = Ok (address d))).
Proof.
  intros Hfair Hdisc. cbv zeta.
  unfold selectLocalBalenaOsDevice, bind, emit, lift.
  simpl. rewrite Hdisc. simpl. split.
  - intros Hnone. rewrite Hnone, (fair_nil net Hfair). reflexivity.
  - intros d Hone. rewrite Hone, (fair_one net d Hfair). simpl.
    destruct devices as [|first others]; [discriminate|].
    exists first. split; [reflexivity|].
    unfold Prompt.ask_list. simpl.
    destruct (picks (script st)) as [|n rest]; simpl.
    + repeat split; intros; discriminate.
    + destruct n as [|n]; simpl.
      * repeat split; intros; congruence.
      * destruct n; simpl; repeat split; intros; discriminate.
Qed.

Lemma fair_identity (net : Network) :
  (forall l, settle_order net l = l) -> fair net.
Proof. intros H l. rewrite H. apply Permutation_refl. Qed.

Lemma locate_outcomes_sample :
  selectLocalBalenaOsDevice Scenario.none_responsive 4000 (initial no_answers)
    = (Err (PlainError no_devices_message),
       after (initial no_answers)
         [SpinnerPromise "Discovering local balenaOS devices.."
                         "Reporting discovered devices"]).
Proof.
  apply (locate_outcomes Scenario.none_responsive 4000
           [Scenario.kitchen_pi; Scenario.garage_pi] (initial no_answers)).
  - apply fair_identity. reflexivity.
  - reflexivity.
  - reflexivity.
Defined.

(** C2 as stated fails: one candidate of two is responsive, and the
    list prompt is shown before its address is returned. *)
Lemma locate_prompts_for_single_device :
  let st := initial {| confirms := []; texts := []; picks := [0] |} in
  let run := selectLocalBalenaOsDevice Scenario.one_responsive 4000 st in
  filter (responds Scenario.one_responsive) [Scenario.kitchen_pi; Scenario.garage_pi]
    = [Scenario.kitchen_pi] /\
  fst run = Ok "192.168.1.50" /\
  In (AskList "select a device" "192.168.1.50"
        [ {| choice_name := "kitchen.local (192.168.1.50)";
             choice_value := "192.168.1.50" |} ])
     (trace (snd run)).
Proof.
  cbv zeta. split; [reflexivity|]. split; [reflexivity|].
  vm_compute. tauto.
Qed.

(** ** Pinning a device *)

(** C10, as the code has it.  Once the device has been read: when the
    commit is omitted, or is the empty string, the command prints the
    current state and does no more; when a non-empty commit is given,
    it asks for the pin once, with the uuid and the commit, prints
    nothing, and ends as that request ends.  When the device cannot be
    read the command fails before doing either. *)
Theorem pin_command_effects (balena : DevicePinCmd.Balena)
    (params : DevicePinCmd.ArgsDef) (st : State) :
  let uuid := DevicePinCmd.uuid params in
  let run := DevicePinCmd.run balena params st in
  (forall e, DevicePinCmd.device_get balena uuid = Err e -> run = (Err e, st)) /\
  (forall device, DevicePinCmd.device_get balena uuid = Ok device ->
     (truthy_opt (DevicePinCmd.releaseToPinTo params) = false ->
        run = (Ok tt,
               after st
                 [ConsoleLog
                    (DevicePinCmd.current_state_message
                       (DevicePinCmd.getExpandedProp balena
                          (DevicePinCmd.should_be_running__release device) "commit")
                       (DevicePinCmd.getExpandedProp balena
                          (DevicePinCmd.belongs_to__application device) "slug"))])) /\
     (forall commit,
        DevicePinCmd.releaseToPinTo params = Some commit -> commit <> EmptyString ->
        run = (DevicePinCmd.device_pinToRelease balena uuid commit,
               after st [PinToRelease uuid commit]))).
Proof.
  cbv zeta. unfold DevicePinCmd.run, bind, lift, emit. split.
  - intros e H. rewrite H. reflexivity.
  - intros device H. rewrite H. split.
    + intros Hfalsy. rewrite Hfalsy. reflexivity.
    + intros commit Hc Hne. rewrite Hc.
      destruct commit as [|c commit]; [congruence|]. simpl.
      destruct (DevicePinCmd.device_pinToRelease _ _ _); reflexivity.
Qed.

Lemma pin_command_effects_sample :
  DevicePinCmd.run Scenario.pinnable
      {| DevicePinCmd.uuid := "7cf02a6"; DevicePinCmd.releaseToPinTo := Some "91165e5" |}
      (initial no_answers)
    = (Ok tt, after (initial no_answers) [PinToRelease "7cf02a6" "91165e5"]).
Proof.
  refine (proj2 (proj2 (pin_command_effects Scenario.pinnable
            {| DevicePinCmd.uuid := "7cf02a6";
               DevicePinCmd.releaseToPinTo := Some "91165e5" |}
            (initial no_answers)) _ eq_refl) "91165e5" eq_refl _).
  discriminate.
Defined.

(** C10 as stated fails: the commit argument is supplied, as the empty
    string, and the command prints the current state without asking
    for a pin. *)
Lemma pin_command_ignores_empty_commit :
  let run :=
    DevicePinCmd.run Scenario.pinnable
      {| DevicePinCmd.uuid := "7cf02a6"; DevicePinCmd.releaseToPinTo := Some "" |}
      (initial no_answers) in
  fst run = Ok tt /\
  (forall uuid commit, ~ In (PinToRelease uuid commit) (trace (snd run))) /\
  exists text, trace (snd run) = [ConsoleLog text].
Proof.
  cbv zeta. split; [reflexivity|]. split.
  - intros uuid commit H. vm_compute in H. destruct H as [H|[]]. discriminate.
  - eexists. reflexivity.
Qed.

(** ** Generating the configuration *)

Section ObjectFacts.

Variable key : string.

Lemma has_delete (obj : Obj.t) : Obj.has key (Obj.delete key obj) = false.
Proof.
  unfold Obj.has, Obj.delete.
  induction obj as [|[k v] obj IH]; simpl; [reflexivity|].
  destruct (String.eqb k key) eqn:E; simpl; [exact IH|].
  rewrite E. exact IH.
Qed.

Lemma has_delete_other (other : string) (obj : Obj.t) :
  other <> key -> Obj.has other (Obj.delete key obj) = Obj.has other obj.
Proof.
  intros Hne. unfold Obj.has, Obj.delete.
  induction obj as [|[k v] obj IH]; simpl; [reflexivity|].
  destruct (String.eqb_spec k key) as [->|Hk]; simpl.
  - rewrite IH. destruct (String.eqb_spec key other); [congruence | reflexivity].
  - rewrite IH. reflexivity.
Qed.

Lemma get_delete_other (other : string) (obj : Obj.t) :
  other <> key -> Obj.get other (Obj.delete key obj) = Obj.get other obj.
Proof.
  intros Hne. unfold Obj.delete.
  induction obj as [|[k v] obj IH]; simpl; [reflexivity|].
  destruct (String.eqb_spec k key) as [->|Hk]; simpl.
  - rewrite IH. destruct (String.eqb_spec key other); [congruence | reflexivity].
  - rewrite IH. reflexivity.
Qed.

End ObjectFacts.

Lemma strip_connman_stripped (config : Obj.t) :
  stripped config (strip_connman config).
Proof.
  unfold stripped, strip_connman.
  destruct (Obj.get "connectivity" config) as [| | | |mode| |] eqn:E;
    try (repeat split; intros; congruence).
  destruct (String.eqb_spec mode "connman") as [->|Hmode].
  - split; [|split].
    + intros _. split.
      * rewrite has_delete_other by discriminate. apply has_delete.
      * apply has_delete.
    + congruence.
    + intros k Hc Hf. split.
      * rewrite !get_delete_other by congruence. reflexivity.
      * rewrite !has_delete_other by congruence. reflexivity.
  - repeat split; intros; congruence.
Qed.

(** C7.  The payload [generateApplicationConfig] returns is the payload
    the generator produced, without its [connectivity] and [files] keys
    if its connectivity is [connman], and unchanged if it is not; every
    other key keeps its value in both cases. *)
Theorem config_strips_connman_only (env : ConfigEnv) (app : Application)
    (options : ConfigOptions) (st st' : State) (result : Obj.t) :
  generateApplicationConfig env app options st = (Ok result, st') ->
  exists values config,
    configGen env app values = Ok config /\
    result = strip_connman config /\
    stripped config result.
Proof.
  unfold generateApplicationConfig, bind, lift, ret.
  destruct (device_getManifestBySlug env _) as [manifest|]; [|discriminate].
  destruct (manifest_options manifest) as [l|].
  - unfold emit. cbn beta iota.
    destruct (form_run env _ _) as [collected|]; [|discriminate].
    match goal with
    | |- context [configGen env app ?v] => destruct (configGen env app v) as [config|] eqn:E
    end; [|discriminate].
    intros H. injection H as <- <-.
    eexists _, config. split; [exact E|]. split; [reflexivity|].
    apply strip_connman_stripped.
  - match goal with
    | |- context [configGen env app ?v] => destruct (configGen env app v) as [config|] eqn:E
    end; [|discriminate].
    intros H. injection H as <- <-.
    eexists _, config. split; [exact E|]. split; [reflexivity|].
    apply strip_connman_stripped.
Qed.

Lemma config_strips_connman_only_sample :
  exists values config,
    configGen (Scenario.config_env Scenario.connman_config) Scenario.alice_fleet values
      = Ok config /\
    [("applicationId", JNum 1%Z); ("appUpdatePollInterval", JNum 600000%Z)]
      = strip_connman config /\
    stripped config
      [("applicationId", JNum 1%Z); ("appUpdatePollInterval", JNum 600000%Z)].
Proof.
  apply (config_strips_connman_only
           (Scenario.config_env Scenario.connman_config) Scenario.alice_fleet
           {| version := "2.101.7"; appUpdatePollInterval := Some 600000%Z |}
           (initial no_answers)
           (after (initial no_answers) [FormRun ["advanced"]])).
  reflexivity.
Defined.

(** ** Delivering the configuration *)

Section Base64Facts.

Local Open Scope N_scope.

Lemma list_ind3 (P : list N -> Prop) :
  P [] ->
  (forall a, P [a]) ->
  (forall a b, P [a; b]) ->
  (forall a b c l, P l -> P (a :: b :: c :: l)) ->
  forall l, P l.
Proof.
  intros H0 H1 H2 H3. fix IH 1.
  intros [|a [|b [|c l]]].
  - exact H0.
  - apply H1.
  - apply H2.
  - apply H3, IH.
Qed.

Lemma digit_one_line (n : N) :
  Str.is_line_terminator (Base64.digit n) = false.
Proof.
  unfold Base64.digit. generalize (N.to_nat n) as k. intros k.
  do 64 (destruct k as [|k]; [reflexivity|]). reflexivity.
Qed.

Lemma encode_one_line (bytes : list N) :
  Str.one_line (Base64.encode bytes) = true.
Proof.
  unfold Str.one_line.
  induction bytes as [|a|a b|a b c l IH] using list_ind3;
    cbn [Base64.encode Str.all_chars]; rewrite ?digit_one_line; auto.
Qed.

Lemma value_digit (n : N) :
  n < 64 ->
  Base64.value (Base64.digit n) = Some n /\
  Ascii.eqb (Base64.digit n) Base64.pad = false.
Proof.
  intros H. rewrite <- (N2Nat.id n) at 2.
  unfold Base64.digit.
  assert (Hk : (N.to_nat n < 64)%nat) by lia.
  revert Hk. generalize (N.to_nat n) as k. intros k Hk.
  do 64 (destruct k as [|k]; [split; reflexivity|]). lia.
Qed.

Ltac euclid := Z.to_euclidean_division_equations; lia.

Lemma sextets_bound (a b c : N) :
  a < 256 -> b < 256 -> c < 256 ->
  a / 4 < 64 /\ (a mod 4) * 16 + b / 16 < 64 /\
  (b mod 16) * 4 + c / 64 < 64 /\ c mod 64 < 64 /\
  (a mod 4) * 16 < 64 /\ (b mod 16) * 4 < 64.
Proof. intros. repeat split; zify; euclid. Qed.

Lemma sextets_bytes (a b c : N) :
  a < 256 -> b < 256 -> c < 256 ->
  (a / 4) * 4 + ((a mod 4) * 16 + b / 16) / 16 = a /\
  (((a mod 4) * 16 + b / 16) mod 16) * 16 + ((b mod 16) * 4 + c / 64) / 4 = b /\
  (((b mod 16) * 4 + c / 64) mod 4) * 64 + c mod 64 = c /\
  (a / 4) * 4 + ((a mod 4) * 16) / 16 = a /\
  (((a mod 4) * 16 + b / 16) mod 16) * 16 + ((b mod 16) * 4) / 4 = b.
Proof. intros. repeat split; zify; euclid. Qed.

(** [base64 -d] gives back the bytes that were encoded. *)
Lemma decode_encode (bytes : list N) :
  Forall (fun b => b < 256) bytes ->
  Base64.decode (Base64.encode bytes) = Some bytes.
Proof.
  induction bytes as [|a|a b|a b c l IH] using list_ind3; intros Hb.
  - reflexivity.
  - inversion Hb as [|? ? Ha _]; subst.
    destruct (sextets_bound a 0 0 Ha) as (H1 & _ & _ & _ & H2 & _); try lia.
    destruct (sextets_bytes a 0 0 Ha) as (_ & _ & _ & E1 & _); try lia.
    cbn [Base64.encode Base64.decode].
    rewrite (proj1 (value_digit _ H1)), (proj1 (value_digit _ H2)).
    rewrite Ascii.eqb_refl, E1. reflexivity.
  - inversion Hb as [|? ? Ha Hb']; subst. inversion Hb' as [|? ? Hb0 _]; subst.
    destruct (sextets_bound a b 0 Ha Hb0) as (H1 & H2 & _ & _ & _ & H3); try lia.
    destruct (sextets_bytes a b 0 Ha Hb0) as (E1 & _ & _ & _ & E2); try lia.
    cbn [Base64.encode Base64.decode].
    rewrite (proj1 (value_digit _ H1)), (proj1 (value_digit _ H2)).
    rewrite (proj2 (value_digit _ H3)), (proj1 (value_digit _ H3)).
    rewrite Ascii.eqb_refl, E1, E2. reflexivity.
  - inversion Hb as [|? ? Ha Hb']; subst. inversion Hb' as [|? ? Hb0 Hb'']; subst.
    inversion Hb'' as [|? ? Hc Hl]; subst.
    destruct (sextets_bound a b c Ha Hb0 Hc) as (H1 & H2 & H3 & H4 & _ & _).
    destruct (sextets_bytes a b c Ha Hb0 Hc) as (E1 & E2 & E3 & _ & _).
    cbn [Base64.encode Base64.decode].
    rewrite (proj1 (value_digit _ H1)), (proj1 (value_digit _ H2)).
    rewrite (proj2 (value_digit _ H3)), (proj1 (value_digit _ H3)).
    rewrite (proj2 (value_digit _ H4)), (proj1 (value_digit _ H4)).
    rewrite (IH Hl), E1, E2, E3. reflexivity.
Qed.

Lemma utf8_bytes (s : string) : Forall (fun b => b < 256) (Base64.utf8 s).
Proof.
  induction s as [|c s IH]; simpl; [constructor|].
  apply Forall_app. split; [|exact IH].
  unfold Base64.utf8_char. pose proof (N_ascii_bounded c) as Hc.
  destruct (N.ltb_spec (N_of_ascii c) 128).
  - repeat constructor. lia.
  - repeat constructor; zify; euclid.
Qed.

End Base64Facts.

Lemma stringify_object (payload : Obj.t) :
  exists json, Json.stringify (JObj payload) = Some json.
Proof. simpl. eexists. reflexivity. Qed.

Lemma configure_command_one_line (json : string) :
  Str.one_line (configure_command json) = true.
Proof.
  unfold configure_command, quoted, Str.one_line.
  rewrite !all_chars_app. cbn [Str.all_chars].
  rewrite !all_chars_app.
  fold (Str.one_line (Base64.encode (Base64.utf8 json))).
  rewrite encode_one_line. reflexivity.
Qed.

Lemma execCommand_trace (ssh : Ssh) (deviceIp cmd msg : string) (st : State) :
  trace (snd (execCommand ssh deviceIp cmd msg st))
    = trace st ++
      [SpinnerStart ("[" ++ deviceIp ++ "] Connecting...");
       RemoteExec deviceIp cmd;
       SpinnerStop].
Proof.
  unfold execCommand, try_finally, getLocalDeviceCmdStdout, bind, lift, emit, ret.
  cbn [script trace fst snd].
  destruct (ssh_run ssh deviceIp cmd); cbn [script trace fst snd];
    rewrite <- !app_assoc; reflexivity.
Qed.

(** ** Reading the payload back *)

Section JsValueInduction.

Variable P : JsValue -> Prop.
Hypothesis P_undefined : P JUndefined.
Hypothesis P_null : P JNull.
Hypothesis P_bool : forall b, P (JBool b).
Hypothesis P_num : forall z, P (JNum z).
Hypothesis P_str : forall s, P (JStr s).
Hypothesis P_arr : forall items, Forall P items -> P (JArr items).
Hypothesis P_obj : forall props, Forall (fun kv => P (snd kv)) props -> P (JObj props).

(** Induction over a value and, through the lists, over the values
    it holds. *)
Lemma JsValue_nested_ind : forall v, P v.
Proof.
  fix IH 1. intros [| |b|z|s|items|props].
  - exact P_undefined.
  - exact P_null.
  - apply P_bool.
  - apply P_num.
  - apply P_str.
  - apply P_arr. revert items. fix IHl 1. intros [|x l].
    + constructor.
    + constructor; [apply IH | apply IHl].
  - apply P_obj. revert props. fix IHl 1. intros [|kv l].
    + constructor.
    + constructor; [apply IH | apply IHl].
Qed.

End JsValueInduction.

Lemma stringify_array (items : list JsValue) :
  Json.stringify (JArr items)
    = Some ("[" ++ Json.join_comma (map elem_text items) ++ "]")%string.
Proof.
  simpl.
  match goal with
  | |- Some (String _ (Json.join_comma ?a ++ _)%string) = _ =>
      replace a with (map elem_text items); [reflexivity|]
  end.
  induction items as [|x items IH]; [reflexivity|].
  simpl. unfold elem_text at 1. now rewrite IH.
Qed.

Lemma stringify_none (v : JsValue) :
  Json.stringify v = None -> v = JUndefined.
Proof. destruct v as [| |[|]| | | |]; simpl; congruence. Qed.

Lemma stringify_object_text (props : list (string * JsValue)) :
  Json.stringify (JObj props)
    = Some ("{" ++ Json.join_comma (map member_text (kept props)) ++ "}")%string.
Proof.
  simpl.
  match goal with
  | |- Some (String _ (Json.join_comma ?a ++ _)%string) = _ =>
      replace a with (map member_text (kept props)); [reflexivity|]
  end.
  induction props as [|[k x] props IH]; [reflexivity|].
  unfold kept in *. simpl.
  destruct (Json.stringify x) as [t|] eqn:E.
  - assert (Hd : is_defined x = true) by (destruct x; simpl in *; congruence).
    rewrite Hd. simpl. unfold member_text at 1, elem_text. simpl. rewrite E.
    now rewrite IH.
  - apply stringify_none in E. subst x. simpl. exact IH.
Qed.

Lemma written_object (props : list (string * JsValue)) :
  JsonRead.written (JObj props)
    = JObj (map (fun kv => (fst kv, JsonRead.written (snd kv))) (kept props)).
Proof.
  simpl. f_equal.
  induction props as [|[k x] props IH]; [reflexivity|].
  unfold kept in *. destruct x; simpl; rewrite ?IH; reflexivity.
Qed.

Lemma read_string_plain (c : ascii) (t : string) :
  Ascii.eqb c Str.double_quote = false ->
  Ascii.eqb c Json.backslash = false ->
  Nat.ltb (nat_of_ascii c) 32 = false ->
  JsonRead.read_string (String c t)
    = match JsonRead.read_string t with
      | Some (t0, r) => Some (String c t0, r)
      | None => None
      end.
Proof.
  intros H1 H2 H3. cbn [JsonRead.read_string]. rewrite H1, H2, H3. reflexivity.
Qed.

Lemma read_string_escaped (e c : ascii) (t : string) :
  Ascii.eqb e "u" = false ->
  JsonRead.unescape e = Some c ->
  JsonRead.read_string (String Json.backslash (String e t))
    = match JsonRead.read_string t with
      | Some (t0, r) => Some (String c t0, r)
      | None => None
      end.
Proof.
  intros H1 H2. cbn [JsonRead.read_string].
  change (Ascii.eqb Json.backslash Str.double_quote) with false.
  change (Ascii.eqb Json.backslash Json.backslash) with true.
  cbn beta iota. rewrite H1, H2. reflexivity.
Qed.

Lemma read_string_hex (h1 h2 h3 h4 : ascii) (a b c d : nat) (t : string) :
  JsonRead.hex_value h1 = Some a -> JsonRead.hex_value h2 = Some b ->
  JsonRead.hex_value h3 = Some c -> JsonRead.hex_value h4 = Some d ->
  Nat.ltb (((a * 16 + b) * 16 + c) * 16 + d) 256 = true ->
  JsonRead.read_string
    (String Json.backslash (String "u" (String h1 (String h2 (String h3 (String h4 t))))))
    = match JsonRead.read_string t with
      | Some (t0, r) =>
          Some (String (ascii_of_nat (((a * 16 + b) * 16 + c) * 16 + d)) t0, r)
      | None => None
      end.
Proof.
  intros H1 H2 H3 H4 Hn. cbn [JsonRead.read_string].
  change (Ascii.eqb Json.backslash Str.double_quote) with false.
  change (Ascii.eqb Json.backslash Json.backslash) with true.
  change (Ascii.eqb "u" "u") with true.
  cbn beta iota. rewrite H1, H2, H3, H4, Hn. reflexivity.
Qed.

(** One character of a string literal, written and read. *)
Lemma read_string_step (c : ascii) (t s rest : string) :
  JsonRead.read_string t = Some (s, rest) ->
  JsonRead.read_string (Json.escape_char c ++ t) = Some (String c s, rest).
Proof.
  intros H.
  destruct c as [[|] [|] [|] [|] [|] [|] [|] [|]];
    match goal with
    | |- context [Json.escape_char ?c0] =>
        let e := eval vm_compute in (Json.escape_char c0) in
        change (Json.escape_char c0) with e
    end;
    cbn [append];
    first [ rewrite read_string_plain by reflexivity
          | erewrite read_string_escaped by reflexivity
          | erewrite read_string_hex by reflexivity ];
    rewrite H; reflexivity.
Qed.

Lemma read_string_escape (s rest : string) :
  JsonRead.read_string (Json.escape s ++ String Str.double_quote rest) = Some (s, rest).
Proof.
  induction s as [|c s IH]; [reflexivity|].
  cbn [Json.escape]. rewrite append_assoc. now apply read_string_step.
Qed.

Lemma span_app_end (f : ascii -> bool) (a rest : string) :
  Str.all_chars f a = true ->
  match rest with EmptyString => true | String c _ => negb (f c) end = true ->
  Str.span f (a ++ rest) = (a, rest).
Proof.
  intros Ha Hrest. destruct rest as [|c r].
  - rewrite append_nil_r. clear Hrest.
    induction a as [|x a IH]; [reflexivity|].
    simpl in *. apply andb_true_iff in Ha as [Hx Ha]. now rewrite Hx, (IH Ha).
  - apply span_app_stop; [exact Ha | now apply negb_true_iff].
Qed.

Lemma uint_text_digits (d : Decimal.uint) :
  Str.all_chars JsonRead.number_char (NilEmpty.string_of_uint d) = true.
Proof. induction d; simpl; auto. Qed.

Lemma number_text_chars (z : Z) :
  Str.all_chars JsonRead.number_char (Json.number z) = true.
Proof.
  unfold Json.number, NilZero.string_of_int, NilZero.string_of_uint.
  destruct (Z.to_int z) as [d|d]; destruct d; simpl;
    try reflexivity; apply uint_text_digits.
Qed.

Lemma number_text_read (z : Z) :
  exists d, NilZero.int_of_string (Json.number z) = Some d /\ Z.of_int d = z.
Proof.
  unfold Json.number. exists (Z.to_int z). split; [|apply DecimalZ.of_to].
  apply NilZero.isi; destruct z; simpl; try discriminate;
    intros H; injection H as H; now apply Unsigned.to_uint_nonnil in H.
Qed.

Lemma read_number_text (z : Z) (rest : string) :
  ends_number rest = true ->
  JsonRead.read_number (Json.number z ++ rest) = Some (z, rest).
Proof.
  intros Hrest. unfold JsonRead.read_number.
  rewrite (span_app_end _ _ _ (number_text_chars z) Hrest).
  destruct (number_text_read z) as (d & -> & ->). reflexivity.
Qed.

Lemma number_text_head (z : Z) :
  exists c t, Json.number z = String c t /\ JsonRead.number_char c = true.
Proof.
  pose proof (number_text_chars z) as Hc.
  destruct (number_text_read z) as (d & Hd & _).
  destruct (Json.number z) as [|c t]; [discriminate|].
  simpl in Hc. apply andb_true_iff in Hc as [Hc _]. now exists c, t.
Qed.

(** A digit or a minus sign is none of the characters a value other
    than a number starts with, nor one that closes or separates. *)
Lemma number_char_plain (c : ascii) :
  JsonRead.number_char c = true ->
  Ascii.eqb c Str.double_quote = false /\ Ascii.eqb c "[" = false /\
  Ascii.eqb c "{" = false /\ Ascii.eqb c "n" = false /\
  Ascii.eqb c "t" = false /\ Ascii.eqb c "f" = false /\
  Ascii.eqb c "]" = false /\ Ascii.eqb c "}" = false.
Proof.
  destruct c as [[|] [|] [|] [|] [|] [|] [|] [|]];
    cbn; intros H; try discriminate H; repeat split.
Qed.

(** The text of a value is not empty and starts with neither a closing
    bracket nor a closing brace. *)
Lemma elem_text_head (v : JsValue) :
  exists c t, elem_text v = String c t /\
              Ascii.eqb c "]" = false /\ Ascii.eqb c "}" = false.
Proof.
  destruct v as [| |[|]|z|s|items|props]; unfold elem_text;
    try (simpl; eexists _, _; repeat split; reflexivity).
  - simpl. destruct (number_text_head z) as (c & t & -> & Hc).
    exists c, t. destruct (number_char_plain c Hc) as (_ & _ & _ & _ & _ & _ & H1 & H2).
    auto.
Qed.

Lemma string_length_app (a b : string) :
  String.length (a ++ b) = String.length a + String.length b.
Proof. induction a as [|c a IH]; simpl; [reflexivity | now rewrite IH]. Qed.

Lemma join_comma_length (parts : list string) :
  Forall (fun p => 1 <= String.length p) parts ->
  length parts <= String.length (Json.join_comma parts) /\
  Forall (fun p => String.length p <= String.length (Json.join_comma parts)) parts.
Proof.
  induction 1 as [|p ps Hp Hps [IH1 IH2]]; [split; [simpl; lia | constructor]|].
  destruct ps as [|q ps'].
  - simpl. split; [lia|]. constructor; [lia | constructor].
  - change (Json.join_comma (p :: q :: ps'))
      with (p ++ "," ++ Json.join_comma (q :: ps'))%string.
    rewrite string_length_app. cbn [append String.length] in *.
    split; [simpl in *; lia|].
    constructor; [lia|].
    eapply Forall_impl; [|exact IH2]. cbn beta. intros a Ha. lia.
Qed.

Lemma read_value_number (fuel : nat) (s : string) (c : ascii) (r : string) :
  s = String c r ->
  JsonRead.number_char c = true ->
  JsonRead.read_value (S fuel) s
    = match JsonRead.read_number s with
      | Some (z, rest) => Some (JNum z, rest)
      | None => None
      end.
Proof.
  intros -> Hc.
  destruct (number_char_plain c Hc) as (H1 & H2 & H3 & H4 & H5 & H6 & _).
  cbn [JsonRead.read_value]. rewrite H1, H2, H3, H4, H5, H6. reflexivity.
Qed.

Lemma read_elements_text (f : nat) (items : list JsValue) :
  items <> [] ->
  Forall reads_back items ->
  Forall (fun x => String.length (elem_text x) <= f) items ->
  forall n rest,
    length items <= n ->
    JsonRead.read_elements (JsonRead.read_value f) n
      (Json.join_comma (map elem_text items) ++ String "]" rest)
    = Some (map JsonRead.written items, rest).
Proof.
  intros Hsome Hback Hlen. induction items as [|x items IH]; [congruence|].
  inversion Hback as [|? ? Hx Hback']; subst.
  inversion Hlen as [|? ? Hlx Hlen']; subst.
  intros n rest Hn. destruct n as [|n]; [simpl in Hn; lia|].
  destruct items as [|y more].
  - cbn [map Json.join_comma JsonRead.read_elements].
    rewrite (Hx f (String "]" rest) Hlx eq_refl). reflexivity.
  - change (Json.join_comma (map elem_text (x :: y :: more)))
      with (elem_text x ++ "," ++ Json.join_comma (map elem_text (y :: more)))%string.
    rewrite !append_assoc. cbn [append JsonRead.read_elements].
    rewrite (Hx f) by first [assumption | reflexivity].
    change (Ascii.eqb "," ",") with true. cbn beta iota.
    rewrite (IH ltac:(discriminate) Hback' Hlen' n rest) by (simpl in *; lia).
    reflexivity.
Qed.

Lemma member_text_app (k : string) (v : JsValue) (more : string) :
  (member_text (k, v) ++ more)%string
  = String Str.double_quote
      (Json.escape k ++ String Str.double_quote (String ":" (elem_text v ++ more))).
Proof.
  unfold member_text, Json.quote, quoted. cbn [fst snd append].
  rewrite !append_assoc. reflexivity.
Qed.

Lemma read_members_text (f : nat) (ms : list (string * JsValue)) :
  ms <> [] ->
  Forall (fun kv => reads_back (snd kv)) ms ->
  Forall (fun kv => String.length (elem_text (snd kv)) <= f) ms ->
  forall n rest,
    length ms <= n ->
    JsonRead.read_members (JsonRead.read_value f) n
      (Json.join_comma (map member_text ms) ++ String "}" rest)
    = Some (map (fun kv => (fst kv, JsonRead.written (snd kv))) ms, rest).
Proof.
  intros Hsome Hback Hlen. induction ms as [|[k x] ms IH]; [congruence|].
  inversion Hback as [|? ? Hx Hback']; subst.
  inversion Hlen as [|? ? Hlx Hlen']; subst.
  cbn [snd] in Hx, Hlx.
  intros n rest Hn. destruct n as [|n]; [simpl in Hn; lia|].
  destruct ms as [|kv more].
  - cbn [map Json.join_comma]. rewrite member_text_app.
    cbn [JsonRead.read_members].
    change (Ascii.eqb Str.double_quote Str.double_quote) with true. cbn beta iota.
    rewrite read_string_escape.
    change (Ascii.eqb ":" ":") with true. cbn beta iota.
    rewrite (Hx f (String "}" rest) Hlx eq_refl). reflexivity.
  - change (Json.join_comma (map member_text ((k, x) :: kv :: more)))
      with (member_text (k, x) ++ "," ++ Json.join_comma (map member_text (kv :: more)))%string.
    rewrite append_assoc, member_text_app.
    cbn [JsonRead.read_members].
    change (Ascii.eqb Str.double_quote Str.double_quote) with true. cbn beta iota.
    rewrite read_string_escape.
    change (Ascii.eqb ":" ":") with true. cbn beta iota.
    cbn [append].
    rewrite (Hx f) by first [assumption | reflexivity].
    change (Ascii.eqb "," ",") with true. cbn beta iota.
    rewrite (IH ltac:(discriminate) Hback' Hlen' n rest) by (simpl in *; lia).
    reflexivity.
Qed.

Lemma elem_text_length (v : JsValue) : 1 <= String.length (elem_text v).
Proof. destruct (elem_text_head v) as (c & t & -> & _). simpl. lia. Qed.

Lemma member_text_length (kv : string * JsValue) :
  String.length (elem_text (snd kv)) + 1 <= String.length (member_text kv).
Proof.
  unfold member_text. rewrite !string_length_app. simpl. lia.
Qed.

(** Every value is read back from its text. *)
Lemma read_value_text (v : JsValue) : reads_back v.
Proof.
  induction v as [| |b|z|s|items IH|props IH] using JsValue_nested_ind;
    intros fuel rest Hfuel Hrest.
  - destruct fuel as [|fuel]; [simpl in Hfuel; lia | reflexivity].
  - destruct fuel as [|fuel]; [simpl in Hfuel; lia | reflexivity].
  - destruct fuel as [|fuel]; [destruct b; simpl in Hfuel; lia|].
    destruct b; reflexivity.
  - destruct fuel as [|fuel]; [pose proof (elem_text_length (JNum z)); lia|].
    change (elem_text (JNum z)) with (Json.number z).
    destruct (number_text_head z) as (c & t & Hz & Hc).
    rewrite (read_value_number fuel (Json.number z ++ rest) c (t ++ rest));
      [|rewrite Hz; reflexivity | exact Hc].
    rewrite (read_number_text z rest Hrest). reflexivity.
  - destruct fuel as [|fuel]; [simpl in Hfuel; lia|].
    change (elem_text (JStr s))
      with (String Str.double_quote (Json.escape s ++ String Str.double_quote "")).
    cbn [append]. rewrite append_assoc. cbn [append JsonRead.read_value].
    change (Ascii.eqb Str.double_quote Str.double_quote) with true. cbn beta iota.
    rewrite read_string_escape. reflexivity.
  - unfold elem_text in *. rewrite stringify_array in *.
    destruct fuel as [|fuel]; [simpl in Hfuel; lia|].
    cbn [append] in *. rewrite append_assoc. cbn [append].
    destruct items as [|x more]; [reflexivity|].
    assert (Hparts : Forall (fun p => 1 <= String.length p) (map elem_text (x :: more))).
    { apply Forall_map, Forall_forall. intros y _. apply elem_text_length. }
    destruct (join_comma_length _ Hparts) as [Hcount Heach].
    rewrite length_map in Hcount. rewrite Forall_map in Heach.
    cbn [String.length] in Hfuel. rewrite string_length_app in Hfuel.
    cbn [String.length] in Hfuel.
    assert (Hhead : exists c t,
               Json.join_comma (map elem_text (x :: more)) = String c t /\
               Ascii.eqb c "]" = false).
    { destruct (elem_text_head x) as (c & t & Hx & Hc & _).
      cbn [map]. destruct (map elem_text more) as [|p ps]; cbn [Json.join_comma];
        rewrite Hx; eexists _, _; split; try reflexivity; exact Hc. }
    destruct Hhead as (c & t & Hjoin & Hc).
    cbn [JsonRead.read_value].
    change (Ascii.eqb "[" Str.double_quote) with false.
    change (Ascii.eqb "[" "[") with true. cbn beta iota.
    rewrite Hjoin at 1. cbn [append]. rewrite Hc.
    rewrite (read_elements_text fuel (x :: more)); [reflexivity | discriminate | exact IH | | lia].
    eapply Forall_impl; [|exact Heach]. cbn beta. intros y Hy. lia.
  - unfold elem_text in *. rewrite stringify_object_text in *.
    rewrite written_object.
    destruct fuel as [|fuel]; [simpl in Hfuel; lia|].
    cbn [append] in *. rewrite append_assoc. cbn [append].
    assert (IH' : Forall (fun kv => reads_back (snd kv)) (kept props)).
    { apply Forall_forall. intros kv Hkv. apply filter_In in Hkv as [Hkv _].
      rewrite Forall_forall in IH. now apply IH. }
    destruct (kept props) as [|[k x] more]; [reflexivity|].
    assert (Hparts : Forall (fun p => 1 <= String.length p)
                       (map member_text ((k, x) :: more))).
    { apply Forall_map, Forall_forall. intros kv _.
      pose proof (member_text_length kv). lia. }
    destruct (join_comma_length _ Hparts) as [Hcount Heach].
    rewrite length_map in Hcount. rewrite Forall_map in Heach.
    cbn [String.length] in Hfuel. rewrite string_length_app in Hfuel.
    cbn [String.length] in Hfuel.
    assert (Hhead : exists t,
               Json.join_comma (map member_text ((k, x) :: more))
               = String Str.double_quote t).
    { cbn [map]. destruct (map member_text more) as [|p ps]; cbn [Json.join_comma];
        unfold member_text, Json.quote, quoted; cbn [fst append]; eexists; reflexivity. }
    destruct Hhead as (t & Hjoin).
    cbn [JsonRead.read_value].
    change (Ascii.eqb "{" Str.double_quote) with false.
    change (Ascii.eqb "{" "[") with false.
    change (Ascii.eqb "{" "{") with true. cbn beta iota.
    rewrite Hjoin at 1. cbn [append].
    change (Ascii.eqb Str.double_quote "}") with false. cbn beta iota.
    rewrite (read_members_text fuel ((k, x) :: more));
      [reflexivity | discriminate | exact IH' | | lia].
    eapply Forall_impl; [|exact Heach]. cbn beta. intros kv Hkv.
    pose proof (member_text_length kv). lia.
Qed.

Lemma parse_stringify (v : JsValue) (text : string) :
  Json.stringify v = Some text ->
  JsonRead.parse text = Some (JsonRead.written v).
Proof.
  intros Htext.
  assert (Het : elem_text v = text) by (unfold elem_text; now rewrite Htext).
  pose proof (read_value_text v (String.length text) EmptyString) as H.
  rewrite Het, append_nil_r in H.
  unfold JsonRead.parse. rewrite H; [reflexivity | lia | reflexivity].
Qed.

Lemma utf8_text_step (c : ascii) (bytes : list N) (t : string) :
  JsonRead.utf8_text bytes = Some t ->
  JsonRead.utf8_text (Base64.utf8_char c ++ bytes) = Some (String c t).
Proof.
  intros H.
  destruct c as [[|] [|] [|] [|] [|] [|] [|] [|]];
    match goal with
    | |- context [Base64.utf8_char ?c0] =>
        let e := eval vm_compute in (Base64.utf8_char c0) in
        change (Base64.utf8_char c0) with e
    end;
    cbn [app JsonRead.utf8_text];
    match goal with
    | |- (if ?b then _ else _) = _ =>
        let r := eval vm_compute in b in change b with r; cbn beta iota
    end;
    try match goal with
    | |- (if ?b then _ else _) = _ =>
        let r := eval vm_compute in b in change b with r; cbn beta iota
    end;
    try match goal with
    | |- (if ?b then _ else _) = _ =>
        let r := eval vm_compute in b in change b with r; cbn beta iota
    end;
    rewrite H; reflexivity.
Qed.

Lemma utf8_text_utf8 (s : string) : JsonRead.utf8_text (Base64.utf8 s) = Some s.
Proof.
  induction s as [|c s IH]; [reflexivity|].
  cbn [Base64.utf8]. now apply utf8_text_step.
Qed.

(** What the device reads from the argument of the command is the
    value that was written. *)
Lemma received_written (v : JsValue) (json : string) :
  Json.stringify v = Some json ->
  JsonRead.received (Base64.encode (Base64.utf8 json)) = Some (JsonRead.written v).
Proof.
  intros Hjson. unfold JsonRead.received.
  rewrite decode_encode by apply utf8_bytes.
  rewrite utf8_text_utf8. now apply parse_stringify.
Qed.

(** A defined member of an object with distinct keys is found, as
    written, among the members read back. *)
Lemma get_written_member (props : list (string * JsValue)) (key : string)
    (value : JsValue) :
  JsValid.distinct (map fst props) = true ->
  In (key, value) props ->
  is_defined value = true ->
  Obj.get key (map (fun kv => (fst kv, JsonRead.written (snd kv))) (kept props))
    = JsonRead.written value.
Proof.
  induction props as [|[k x] props IH]; intros Hd Hin Hdef; [destruct Hin|].
  cbn [map fst JsValid.distinct] in Hd.
  apply andb_true_iff in Hd. destruct Hd as [Hfresh Hd].
  unfold kept in *. cbn [filter snd].
  destruct Hin as [Heq|Hin].
  - injection Heq as -> ->. rewrite Hdef.
    cbn [map fst snd Obj.get]. now rewrite String.eqb_refl.
  - assert (Hne : String.eqb k key = false).
    { destruct (String.eqb k key) eqn:E; [|reflexivity].
      apply String.eqb_eq in E. subst k.
      apply negb_true_iff in Hfresh.
      assert (Hex : existsb (String.eqb key) (map fst props) = true).
      { apply existsb_exists. exists key. split.
        - apply (in_map fst props (key, value) Hin).
        - apply String.eqb_refl. }
      congruence. }
    destruct (is_defined x).
    + cbn [map fst snd Obj.get]. rewrite Hne. now apply IH.
    + now apply IH.
Qed.

(** C8.  For a payload, an object as JavaScript holds it the way the
    model writes it (its numbers safe integers, its keys distinct and
    none an array index), [configure] runs one remote command:
    [os-config join] followed by, between double quotes, the command
    substitution that decodes [b64], the base64 text of the UTF-8 bytes
    of the JSON serialization of the payload.  The command is a single
    line.  Decoding [b64] gives the bytes of the JSON back, and reading
    them as JSON gives the payload as it was written: every member that
    is defined is there under its key.  [deconfigure] runs [os-config
    leave] and nothing else. *)
Theorem delivery_commands (ssh : Ssh) (deviceIp : string) (payload : Obj.t) (st : State) :
  JsValid.wf (JObj payload) = true ->
  exists json b64 members,
    Json.stringify (JObj payload) = Some json /\
    b64 = Base64.encode (Base64.utf8 json) /\
    Base64.decode b64 = Some (Base64.utf8 json) /\
    JsonRead.parse json = Some (JObj members) /\
    JsonRead.received b64 = Some (JObj members) /\
    JObj members = JsonRead.written (JObj payload) /\
    (forall key value,
       In (key, value) payload -> is_defined value = true ->
       Obj.get key members = JsonRead.written value) /\
    let cmd := ("os-config join " ++ quoted ("$(base64 -d <<< " ++ b64 ++ ")"))%string in
    Str.one_line cmd = true /\
    trace (snd (configure ssh deviceIp (JObj payload) st))
      = trace st ++
        [SpinnerStart ("[" ++ deviceIp ++ "] Connecting...");
         RemoteExec deviceIp cmd;
         SpinnerStop] /\
    trace (snd (deconfigure ssh deviceIp st))
      = trace st ++
        [SpinnerStart ("[" ++ deviceIp ++ "] Connecting...");
         RemoteExec deviceIp "os-config leave";
         SpinnerStop].
Proof.
  intros Hvalid.
  destruct (stringify_object payload) as [json Hjson].
  exists json, (Base64.encode (Base64.utf8 json)),
         (map (fun kv => (fst kv, JsonRead.written (snd kv))) (kept payload)).
  rewrite <- written_object.
  split; [exact Hjson|]. split; [reflexivity|].
  split; [apply decode_encode, utf8_bytes|].
  split; [now apply parse_stringify|].
  split; [now apply received_written|].
  split; [reflexivity|].
  split.
  { intros key value Hin Hdef.
    apply get_written_member; [|exact Hin|exact Hdef].
    cbn [JsValid.wf] in Hvalid.
    apply andb_true_iff in Hvalid. destruct Hvalid as [Hvalid _].
    apply andb_true_iff in Hvalid. apply Hvalid. }
  cbv zeta. split; [apply (configure_command_one_line json)|].
  split.
  - unfold configure. rewrite Hjson. apply execCommand_trace.
  - apply execCommand_trace.
Qed.

Lemma delivery_commands_sample :
  JsValid.wf (JObj Scenario.sample_payload) = true /\
  Json.stringify (JObj Scenario.sample_payload) = Some Scenario.sample_json /\
  Base64.encode (Base64.utf8 Scenario.sample_json) = Scenario.sample_base64 /\
  JsonRead.received Scenario.sample_base64 = Some (JObj Scenario.sample_received) /\
  trace (snd (configure Scenario.healthy_ssh Scenario.device_address
                (JObj Scenario.sample_payload) (initial no_answers)))
    = [SpinnerStart "[192.168.1.50] Connecting...";
       RemoteExec "192.168.1.50"
         ("os-config join " ++
          quoted ("$(base64 -d <<< " ++ Scenario.sample_base64 ++ ")"))%string;
       SpinnerStop].
Proof.
  split; [reflexivity|].
  destruct (delivery_commands Scenario.healthy_ssh Scenario.device_address
              Scenario.sample_payload (initial no_answers) eq_refl)
    as (json & b64 & members & Hjson & Hb64 & _ & _ & Hrecv & Hw & _ & _ & Hconf & _).
  assert (Ej : json = Scenario.sample_json).
  { vm_compute in Hjson. injection Hjson as <-. vm_compute. reflexivity. }
  assert (Eb : b64 = Scenario.sample_base64).
  { rewrite Hb64, Ej. vm_compute. reflexivity. }
  assert (Em : members = Scenario.sample_received).
  { vm_compute in Hw. injection Hw as ->. reflexivity. }
  subst json b64 members.
  split; [exact Hjson|]. split; [vm_compute; reflexivity|].
  split; [exact Hrecv|]. exact Hconf.
Defined.

Example configure_command_empty_object :
  Json.stringify (JObj []) = Some "{}" /\
  configure_command "{}" = ("os-config join " ++ quoted "$(base64 -d <<< e30=)")%string.
Proof. split; reflexivity. Qed.

Example stringify_sample :
  Json.stringify
    (JObj [("applicationId", JNum 1%Z); ("deviceType", JStr "raspberrypi4-64");
           ("listenPort", JUndefined); ("appUpdatePollInterval", JNum 600000%Z)])
  = Some ("{" ++ quoted "applicationId" ++ ":1," ++
          quoted "deviceType" ++ ":" ++ quoted "raspberrypi4-64" ++ "," ++
          quoted "appUpdatePollInterval" ++ ":600000}")%string.
Proof. reflexivity. Qed.

(** ** Resolving the fleet *)

Section SplitFacts.

Variable sep : ascii.

Lemma split_not_nil (s : string) : Str.split sep s <> [].
Proof.
  destruct s as [|c s]; simpl; [discriminate|].
  destruct (Ascii.eqb c sep); [discriminate|].
  destruct (Str.split sep s); discriminate.
Qed.

Lemma split_first_segment (ns rest : string) :
  Str.all_chars (fun c => negb (Ascii.eqb c sep)) ns = true ->
  Str.split sep (ns ++ String sep rest) = ns :: Str.split sep rest.
Proof.
  induction ns as [|c ns IH]; simpl; intros H.
  - rewrite Ascii.eqb_refl. reflexivity.
  - apply andb_true_iff in H as [Hc H]. apply negb_true_iff in Hc.
    rewrite Hc, (IH H). reflexivity.
Qed.

Lemma split_single_segment (s : string) :
  Str.all_chars (fun c => negb (Ascii.eqb c sep)) s = true ->
  Str.split sep s = [s].
Proof.
  induction s as [|c s IH]; simpl; intros H; [reflexivity|].
  apply andb_true_iff in H as [Hc H]. apply negb_true_iff in Hc.
  rewrite Hc, (IH H). reflexivity.
Qed.

End SplitFacts.

(** A name with a slash is looked up as a slug, in lower case, and the
    name proposed for a new fleet is what stands between the first
    slash and the next. *)
Lemma name_query_slug (ns rest : string) :
  Str.no_slash ns = true ->
  name_query (ns ++ "/" ++ rest)
    = (FilterSlug (Str.toLowerCase (ns ++ "/" ++ rest)),
       hd EmptyString (Str.split Str.slash rest)).
Proof.
  intros Hns. unfold name_query.
  change (ns ++ "/" ++ rest)%string with (ns ++ String Str.slash rest)%string.
  rewrite (split_first_segment Str.slash ns rest Hns).
  destruct (Str.split Str.slash rest) as [|x xs] eqn:E;
    [now apply split_not_nil in E | reflexivity].
Qed.

Lemma name_query_plain (appName : string) :
  Str.no_slash appName = true ->
  name_query appName = (FilterAppName appName, appName).
Proof.
  intros H. unfold name_query.
  rewrite (split_single_segment Str.slash appName H). reflexivity.
Qed.

Ltac shown_events :=
  repeat first [apply Forall_nil | apply Forall_cons; [auto|]].

(** What the naming loop shows: prompts with the given default, and
    the complaint about a name that is taken; it opens with a prompt. *)
Lemma askApplicationName_events (validate taken : string -> bool)
    (default : option string) (answers : list string) :
  forall shown r rest evs,
    askApplicationName validate taken default shown answers = (r, rest, evs) ->
    Forall (fun e => e = AskInput name_prompt default \/
                     e = PrintErrorMessage name_taken_message) evs /\
    (shown = false -> exists evs', evs = AskInput name_prompt default :: evs').
Proof.
  induction answers as [|a answers IH]; intros shown r rest evs H; simpl in H.
  - injection H as <- <- <-. split.
    + destruct shown; shown_events.
    + intros ->. now exists [].
  - destruct (validate a).
    + destruct (taken a).
      * destruct (askApplicationName validate taken default false answers)
          as [[r' rest'] evs'] eqn:E.
        injection H as <- <- <-. destruct (IH _ _ _ _ E) as [Hall _].
        split.
        -- apply Forall_app. split.
           ++ destruct shown; shown_events.
           ++ constructor; [now right | exact Hall].
        -- intros ->. simpl. eexists. reflexivity.
      * injection H as <- <- <-. split.
        -- destruct shown; shown_events.
        -- intros ->. now exists [].
    + destruct (askApplicationName validate taken default true answers)
        as [[r' rest'] evs'] eqn:E.
      injection H as <- <- <-. destruct (IH _ _ _ _ E) as [Hall _].
      split.
      * apply Forall_app. split; [|exact Hall].
        destruct shown; shown_events.
      * intros ->. simpl. eexists. reflexivity.
Qed.

Lemma createApplication_events (sdk : SDK) (validate : string -> bool)
    (deviceType : string) (name : option string) (st : State) :
  exists evs,
    trace (snd (createApplication sdk validate deviceType name st)) = trace st ++ evs /\
    creation_events sdk validate deviceType name (texts (script st)) evs.
Proof.
  unfold createApplication, bind, lift, throw, emit.
  destruct (auth_whoami sdk) as [[u|]|e] eqn:W; cbn [truthy_opt].
  - destruct (truthy u) eqn:T; cbn [negb].
    + destruct (askApplicationName validate (name_taken sdk u) name false
                  (texts (script st))) as [[r rest] evs1] eqn:E.
      destruct (askApplicationName_events _ _ _ _ _ _ _ _ E) as [Hall Hfirst].
      destruct (Hfirst eq_refl) as [evs1' Hevs1].
      rewrite Forall_forall in Hall.
      destruct r as [answer|err].
      * exists (evs1 ++ [ApplicationCreate answer deviceType u]).
        split.
        { cbn [script trace snd].
          destruct (application_create sdk answer deviceType u) as [app|];
            cbn [snd trace];
            [destruct (application_get sdk (id app))|]; cbn [snd trace];
            now rewrite app_assoc. }
        repeat split.
        -- apply in_app_or in H as [H|[H|[]]]; [|discriminate].
           destruct (Hall _ H) as [H'|H']; congruence.
        -- apply in_app_or in H as [H|[H|[]]]; [|discriminate].
           destruct (Hall _ H) as [H'|H']; congruence.
        -- apply in_app_or in H as [H|[H|[]]]; [|congruence].
           destruct (Hall _ H) as [H'|H']; discriminate.
        -- apply in_app_or in H as [H|[H|[]]].
           ++ destruct (Hall _ H) as [H'|H']; discriminate.
           ++ congruence.
        -- intros u' Hu' _. rewrite Hevs1. simpl. eexists. reflexivity.
        -- intros u' answer' more Hu' _ Hans Hvalid Hfree.
           assert (u' = u) by congruence. subst u'.
           rewrite Hans in E. simpl in E. rewrite Hvalid, Hfree in E.
           injection E as <- <- <-. reflexivity.
      * exists evs1. split; [reflexivity|]. repeat split.
        -- destruct (Hall _ H) as [H'|H']; congruence.
        -- destruct (Hall _ H) as [H'|H']; congruence.
        -- destruct (Hall _ H) as [H'|H']; discriminate.
        -- destruct (Hall _ H) as [H'|H']; discriminate.
        -- intros u' Hu' _. rewrite Hevs1. eexists. reflexivity.
        -- intros u' answer' more Hu' _ Hans Hvalid Hfree.
           assert (u' = u) by congruence. subst u'.
           rewrite Hans in E. simpl in E. rewrite Hvalid, Hfree in E.
           discriminate.
    + exists []. split; [now rewrite app_nil_r|].
      repeat split; try (intros; contradiction);
        intros; assert (u0 = u) by congruence; subst; congruence.
  - exists []. split; [now rewrite app_nil_r|].
    repeat split; try (intros; contradiction); intros; congruence.
  - exists []. split; [now rewrite app_nil_r|].
    repeat split; try (intros; contradiction); intros; congruence.
Qed.

Lemma confirm_trace (message : string) (st : State) :
  trace (snd (Prompt.confirm message st)) = trace st ++ [AskConfirm message] /\
  texts (script (snd (Prompt.confirm message st))) = texts (script st) /\
  (forall a st', Prompt.confirm message st = (Ok a, st') ->
     exists rest, confirms (script st) = true :: rest).
Proof.
  unfold Prompt.confirm.
  destruct (confirms (script st)) as [|[|] rest]; cbn [snd fst trace script texts];
    repeat split; try discriminate.
  intros a st' _. now exists rest.
Qed.

(** C4, as the code has it.  For a name [ns/rest] whose slug query
    finds no fleet, the resolver asks whether to create the fleet; the
    prompt for the name of the new fleet proposes what stands between
    the first slash and the next (all of [rest] when it holds no
    slash); and a fleet is only ever created for the probed device type
    and under the name of the caller, [ns] playing no part.  A first
    answer that is valid and free is the name it is created with. *)
Theorem slug_without_fleet_is_created
    (sdk : SDK) (validate : string -> bool) (deviceTypeSlug ns rest : string)
    (deviceType : DeviceType) (allDeviceTypes : list DeviceType) (st : State) :
  Str.no_slash ns = true ->
  deviceType_get sdk deviceTypeSlug = Ok deviceType ->
  deviceType_getAllSupported sdk = Ok allDeviceTypes ->
  application_getAllDirectlyAccessible sdk
    (FilterSlug (Str.toLowerCase (ns ++ "/" ++ rest))) = Ok [] ->
  let appName := (ns ++ "/" ++ rest)%string in
  let name := hd EmptyString (Str.split Str.slash rest) in
  let run := getOrSelectApplication sdk validate deviceTypeSlug (Some appName) st in
  (Str.no_slash rest = true -> name = rest) /\
  exists evs,
    trace (snd run) = trace st ++ AskConfirm (fleet_not_found_message appName) :: evs /\
    (forall cs, confirms (script st) = true :: cs ->
       creation_events sdk validate deviceTypeSlug (Some name) (texts (script st)) evs) /\
    (forall n t o, In (ApplicationCreate n t o) evs ->
       t = deviceTypeSlug /\ auth_whoami sdk = Ok (Some o)) /\
    (forall m dflt, In (AskInput m dflt) evs -> m = name_prompt /\ dflt = Some name).
Proof.
  intros Hns Hget Hall Hnone. cbv zeta. split.
  { intros Hrest. now rewrite (split_single_segment Str.slash rest Hrest). }
  unfold getOrSelectApplication, bind, lift.
  rewrite Hget, Hall.
  pose proof (name_query_slug ns rest Hns) as Hq.
  destruct (ns ++ "/" ++ rest)%string as [|c appName] eqn:Happ.
  { destruct ns; discriminate. }
  rewrite Hq, Hnone. cbn [length Nat.eqb].
  pose proof (confirm_trace (fleet_not_found_message (String c appName)) st)
    as (Htrace & Htexts & Hyes).
  destruct (Prompt.confirm (fleet_not_found_message (String c appName)) st)
    as [[[]|e] st1] eqn:Hconfirm; cbn [snd] in Htrace, Htexts.
  - destruct (createApplication_events sdk validate deviceTypeSlug
                (Some (hd EmptyString (Str.split Str.slash rest))) st1)
      as (evs & Hevs & Hcreate).
    exists evs. rewrite Hevs, Htrace, <- app_assoc.
    split; [reflexivity|].
    rewrite Htexts in Hcreate. split; [intros cs _; exact Hcreate|].
    destruct Hcreate as (Hask & Hmade & _). split; assumption.
  - exists []. cbn [snd]. split; [exact Htrace|]. split.
    + intros cs Hcs. unfold Prompt.confirm in Hconfirm. rewrite Hcs in Hconfirm.
      discriminate.
    + split; intros; contradiction.
Qed.

Lemma slug_without_fleet_is_created_sample :
  let st := initial {| confirms := [true]; texts := ["myfleet"]; picks := [] |} in
  let run :=
    getOrSelectApplication Scenario.cloud Scenario.any_name "raspberrypi4-64"
      (Some "myorg/myfleet") st in
  (Str.no_slash "myfleet" = true ->
   hd EmptyString (Str.split Str.slash "myfleet") = "myfleet") /\
  exists evs,
    trace (snd run)
      = trace st ++ AskConfirm (fleet_not_found_message "myorg/myfleet") :: evs /\
    (forall cs, confirms (script st) = true :: cs ->
       creation_events Scenario.cloud Scenario.any_name "raspberrypi4-64"
         (Some (hd EmptyString (Str.split Str.slash "myfleet")))
         (texts (script st)) evs) /\
    (forall n t o, In (ApplicationCreate n t o) evs ->
       t = "raspberrypi4-64" /\ auth_whoami Scenario.cloud = Ok (Some o)) /\
    (forall m dflt, In (AskInput m dflt) evs ->
       m = name_prompt /\
       dflt = Some (hd EmptyString (Str.split Str.slash "myfleet"))).
Proof.
  apply (slug_without_fleet_is_created Scenario.cloud Scenario.any_name
           "raspberrypi4-64" "myorg" "myfleet" Scenario.rpi4
           [Scenario.rpi4; Scenario.rpi3; Scenario.nuc]
           (initial {| confirms := [true]; texts := ["myfleet"]; picks := [] |}));
    reflexivity.
Defined.

(** C4 as stated fails: the name is [myorg/myfleet], no fleet has that
    slug, the user confirms and keeps the proposed name; the fleet is
    created under [alice], the caller, and not under [myorg]. *)
Lemma slug_namespace_is_not_used :
  let st := initial {| confirms := [true]; texts := ["myfleet"]; picks := [] |} in
  let run :=
    getOrSelectApplication Scenario.cloud Scenario.any_name "raspberrypi4-64"
      (Some "myorg/myfleet") st in
  application_getAllDirectlyAccessible Scenario.cloud
    (FilterSlug (Str.toLowerCase "myorg/myfleet")) = Ok [] /\
  trace (snd run)
    = [ AskConfirm (fleet_not_found_message "myorg/myfleet");
        AskInput name_prompt (Some "myfleet");
        ApplicationCreate "myfleet" "raspberrypi4-64" "alice" ] /\
  forall n t, ~ In (ApplicationCreate n t "myorg") (trace (snd run)).
Proof.
  cbv zeta. split; [reflexivity|]. split; [reflexivity|].
  intros n t H. vm_compute in H.
  destruct H as [H|[H|[H|[]]]]; discriminate.
Qed.

(** Where the filtered list decides, the resolver does what the
    specification says: a name that matches fleets none of which is
    compatible is refused, and a name with one compatible match gives
    that fleet, which is compatible, without a prompt. *)
Lemma named_fleet_filtered
    (sdk : SDK) (validate : string -> bool) (deviceTypeSlug appName : string)
    (deviceType : DeviceType) (allDeviceTypes : list DeviceType)
    (applications : list Application) (st : State) :
  truthy appName = true ->
  deviceType_get sdk deviceTypeSlug = Ok deviceType ->
  deviceType_getAllSupported sdk = Ok allDeviceTypes ->
  application_getAllDirectlyAccessible sdk (fst (name_query appName)) = Ok applications ->
  applications <> [] ->
  let compatible := compatibleDeviceTypes sdk deviceType allDeviceTypes in
  let valid :=
    filter (fun app => includes_string compatible (is_for__device_type_0_slug app))
           applications in
  let run := getOrSelectApplication sdk validate deviceTypeSlug (Some appName) st in
  (valid = [] ->
     run = (Err (ExpectedError "No fleet found with a matching device type"), st)) /\
  (forall app, valid = [app] ->
     run = (Ok app, st) /\
     includes_string compatible (is_for__device_type_0_slug app) = true).
Proof.
  intros Htruthy Hget Hall Hquery Hsome. cbv zeta.
  unfold getOrSelectApplication, bind, lift.
  rewrite Hget, Hall.
  destruct appName as [|c appName]; [discriminate|].
  destruct (name_query (String c appName)) as [filter_ name].
  cbn [fst] in Hquery. rewrite Hquery.
  destruct applications as [|app0 others]; [congruence|].
  cbn [length Nat.eqb]. split.
  - intros ->. reflexivity.
  - intros app Hvalid. rewrite Hvalid. split; [reflexivity|].
    assert (Hin : In app
                    (filter (fun a => includes_string
                                        (compatibleDeviceTypes sdk deviceType allDeviceTypes)
                                        (is_for__device_type_0_slug a))
                            (app0 :: others)))
      by (rewrite Hvalid; now left).
    apply filter_In in Hin. apply Hin.
Qed.

(** C1 fails on the code.  Three fleets are called [sensors]; two of
    them are for device types the probed device is compatible with, the
    third is for another architecture.  The list the user chooses from
    holds all three, and picking the third makes the resolver return
    it. *)
Theorem resolver_offers_incompatible_fleet :
  let st := initial {| confirms := []; texts := []; picks := [2] |} in
  let run :=
    getOrSelectApplication Scenario.cloud Scenario.any_name "raspberrypi4-64"
      (Some "sensors") st in
  let compatible :=
    compatibleDeviceTypes Scenario.cloud Scenario.rpi4
      [Scenario.rpi4; Scenario.rpi3; Scenario.nuc] in
  compatible = ["raspberrypi4-64"; "raspberrypi3"] /\
  filter (fun app => includes_string compatible (is_for__device_type_0_slug app))
         [Scenario.alice_fleet; Scenario.bob_fleet; Scenario.carol_fleet]
    = [Scenario.alice_fleet; Scenario.bob_fleet] /\
  trace (snd run)
    = [ SelectFromList "Select fleet"
          [ ("alice/sensors", Scenario.alice_fleet);
            ("bob/sensors", Scenario.bob_fleet);
            ("carol/sensors", Scenario.carol_fleet) ] ] /\
  fst run = Ok Scenario.carol_fleet /\
  includes_string compatible (is_for__device_type_0_slug Scenario.carol_fleet) = false.
Proof. cbv zeta. repeat split. Qed.

(** ** The workflows *)

Lemma remote_commands_app (a b : list event) :
  remote_commands (a ++ b) = remote_commands a ++ remote_commands b.
Proof.
  induction a as [|e a IH]; simpl; [reflexivity|].
  destruct e; simpl; rewrite IH; reflexivity.
Qed.

(** With at least one responsive candidate the list prompt is what
    comes next, on the responsive candidates in the order their pings
    completed. *)
Lemma locate_prompts_when_responsive (net : Network) (timeout : nat)
    (first : LocalBalenaOsDevice) (others : list LocalBalenaOsDevice) (st : State) :
  fair net ->
  discoverLocalBalenaOsDevices net timeout = Ok (first :: others) ->
  filter (responds net) (first :: others) <> [] ->
  selectLocalBalenaOsDevice net timeout st
    = Prompt.ask_list "select a device" (address first)
        (map device_choice (settle_order net (filter (responds net) (first :: others))))
        (after st [SpinnerPromise "Discovering local balenaOS devices.."
                                  "Reporting discovered devices"]).
Proof.
  intros Hfair Hdisc Hsome.
  unfold selectLocalBalenaOsDevice, bind, emit, lift.
  cbn beta iota. rewrite Hdisc.
  rewrite (fair_length net _ Hfair).
  destruct (filter (responds net) (first :: others)) as [|d ds] eqn:E; [congruence|].
  reflexivity.
Qed.

(** On a device that passes the version check, [leave] with a given
    address runs two remote commands: the check, then [os-config
    leave]. *)
Lemma leave_remote_commands (net : Network) (ssh : Ssh) (deviceIp out : string)
    (st : State) :
  truthy deviceIp = true ->
  ssh_run ssh deviceIp "os-config --version" = Ok out ->
  remote_commands (trace (snd (leave net ssh (Some deviceIp) st)))
    = remote_commands (trace st) ++
      [(deviceIp, "os-config --version"); (deviceIp, "os-config leave")].
Proof.
  intros Hip Hcheck.
  unfold leave, given_or_selected, assertDeviceIsCompatible, deconfigure, execCommand,
    try_catch, try_finally, getLocalDeviceCmdStdout, bind, lift, emit, ret.
  cbn [truthy_opt]. rewrite Hip. cbn [script trace fst snd]. rewrite Hcheck.
  cbn [script trace fst snd].
  destruct (ssh_run ssh deviceIp "os-config leave"); cbn [script trace fst snd];
    rewrite !remote_commands_app; cbn [remote_commands];
    rewrite ?app_nil_r, <- ?app_assoc; reflexivity.
Qed.

(** The scenario of the specification: the device at [192.168.1.50]
    reports [raspberrypi4-64] and [2.101.7], the fleet [myorg/myfleet]
    exists and is compatible.  The configuration is delivered once, it
    holds the poll interval and the version, and nothing is asked. *)
Example join_named_compatible_fleet :
  let run :=
    join Scenario.none_responsive Scenario.healthy_ssh Scenario.cloud_with_fleet
      Scenario.any_name Scenario.plain_env
      (Some "192.168.1.50") (Some "myorg/myfleet") (Some 600000%Z)
      (initial no_answers) in
  let payload :=
    [ ("applicationId", JNum 7%Z);
      ("deviceType", JStr "raspberrypi4-64");
      ("version", JStr "2.101.7");
      ("appUpdatePollInterval", JNum 600000%Z) ] in
  fst run = Ok tt /\
  existsb is_prompt (trace (snd run)) = false /\
  exists json,
    Json.stringify (JObj payload) = Some json /\
    remote_commands (trace (snd run))
      = [ ("192.168.1.50", "os-config --version");
          ("192.168.1.50", configure_command json) ].
Proof.
  cbv zeta. split; [reflexivity|]. split; [reflexivity|].
  eexists. split; reflexivity.
Qed.

(** * Further properties of the code *)

(** ** The identity-record pattern, continued *)

Lemma span_spec (f : ascii -> bool) (s : string) :
  forall a b, Str.span f s = (a, b) ->
    s = (a ++ b)%string /\ Str.all_chars f a = true /\
    (b = EmptyString \/ exists c r, b = String c r /\ f c = false).
Proof.
  induction s as [|c s IH]; simpl; intros a b H.
  - injection H as <- <-. repeat split. now left.
  - destruct (f c) eqn:Hc.
    + destruct (Str.span f s) as [a' b'] eqn:E. injection H as <- <-.
      destruct (IH _ _ eq_refl) as (Hs & Ha & Hb).
      simpl. rewrite Hc, Ha. repeat split; [now rewrite <- Hs | exact Hb].
    + injection H as <- <-. repeat split. right. now exists c, s.
Qed.

Lemma match_here_sound (key s value : string) :
  OsRelease.match_here key s = Some value ->
  exists rest,
    s = (Str.kv_line key value ++ rest)%string /\ at_line_end rest /\
    Str.no_quote value = true.
Proof.
  unfold OsRelease.match_here.
  destruct (Str.strip_prefix (Str.key_prefix key) s) as [r|] eqn:Hp; [|discriminate].
  apply strip_prefix_inv in Hp.
  destruct (Str.span _ r) as [run after] eqn:Hspan.
  apply span_spec in Hspan as (Hr & Hrun & _).
  destruct run as [|c run]; [discriminate|].
  destruct after as [|q after]; [discriminate|].
  destruct (Ascii.eqb_spec q Str.double_quote) as [->|]; [|discriminate].
  intros H.
  assert (Hvalue : value = String c run /\ at_line_end after).
  { destruct after as [|c' after'].
    - injection H as <-. split; [reflexivity | now left].
    - destruct (Str.is_line_terminator c') eqn:Hc'; [|discriminate].
      injection H as <-. split; [reflexivity|]. right. now exists c', after'. }
  destruct Hvalue as [-> Hend].
  exists after. split; [|split; [exact Hend | exact Hrun]].
  rewrite Hp, Hr. unfold Str.kv_line.
  rewrite !append_assoc. reflexivity.
Qed.

Lemma exec_from_sound (key : string) (s : string) :
  forall bol value,
    OsRelease.exec_from key bol s = Some value ->
    exists pre rest,
      s = (pre ++ Str.kv_line key value ++ rest)%string /\
      ((pre = EmptyString /\ bol = true) \/
       exists p c, pre = (p ++ String c EmptyString)%string /\
                   Str.is_line_terminator c = true) /\
      at_line_end rest /\ Str.no_quote value = true.
Proof.
  induction s as [|c s IH]; intros bol value H; [discriminate|].
  cbn [OsRelease.exec_from] in H.
  destruct (if bol then OsRelease.match_here key (String c s) else None)
    as [w|] eqn:Hhere.
  - injection H as ->. destruct bol; [|discriminate].
    destruct (match_here_sound _ _ _ Hhere) as (rest & Hs & Hend & Hq).
    exists EmptyString, rest. repeat split; auto.
  - destruct (IH _ _ H) as (pre & rest & Hs & Hpre & Hend & Hq).
    exists (String c pre), rest. split; [simpl; now rewrite <- Hs|].
    split; [|split; assumption].
    right. destruct Hpre as [[-> Hc]|(p & c' & -> & Hc')].
    + now exists EmptyString, c.
    + now exists (String c p), c'.
Qed.

Lemma exec_sound (key output value : string) :
  OsRelease.exec key output = Some value ->
  stands_in key value output /\ Str.no_quote value = true.
Proof.
  intros H. destruct (exec_from_sound _ _ _ _ H) as (pre & rest & Hs & Hpre & Hend & Hq).
  split; [|exact Hq]. exists pre, rest. split; [exact Hs|]. split; [|exact Hend].
  destruct Hpre as [[-> _]|Hpre]; [now left | now right].
Qed.

(** X1.  Whatever [getDeviceType] returns stands in the record, on a
    line of its own, as the value of [SLUG] between double quotes, and
    holds no double quote; likewise [getOsVersion] and [VERSION_ID]. *)
Theorem probe_value_stands_in_record
    (ssh : Ssh) (deviceIp value : string) (st : State) :
  (fst (getDeviceType ssh deviceIp st) = Ok value ->
   exists output, ssh_os_release ssh deviceIp = Ok output /\
                  stands_in "SLUG" value output /\ Str.no_quote value = true) /\
  (fst (getOsVersion ssh deviceIp st) = Ok value ->
   exists output, ssh_os_release ssh deviceIp = Ok output /\
                  stands_in "VERSION_ID" value output /\ Str.no_quote value = true).
Proof.
  unfold getDeviceType, getOsVersion, getDeviceOsRelease, bind, lift,
    parseDeviceType, parseOsVersion.
  destruct (ssh_os_release ssh deviceIp) as [output|e]; cbn [fst].
  - split.
    + destruct (OsRelease.exec "SLUG" output) as [w|] eqn:E; [|discriminate].
      intros H. injection H as ->. exists output. split; [reflexivity|].
      now apply exec_sound.
    + destruct (OsRelease.exec "VERSION_ID" output) as [w|] eqn:E; [|discriminate].
      intros H. injection H as ->. exists output. split; [reflexivity|].
      now apply exec_sound.
  - split; discriminate.
Qed.

Lemma probe_value_stands_in_record_sample :
  exists output,
    ssh_os_release Scenario.healthy_ssh Scenario.device_address = Ok output /\
    stands_in "SLUG" "raspberrypi4-64" output /\
    Str.no_quote "raspberrypi4-64" = true.
Proof.
  apply (proj1 (probe_value_stands_in_record Scenario.healthy_ssh
                  Scenario.device_address "raspberrypi4-64" (initial no_answers))).
  reflexivity.
Defined.

Lemma exec_first_line (key : string) :
  Str.one_line (Str.key_prefix key) = true ->
  forall (before after : list string) (value : string),
    Forall (fun l => Str.one_line l = true /\
                     Str.starts_with (Str.key_prefix key) l = false) before ->
    value <> EmptyString -> Str.no_quote value = true ->
    OsRelease.exec key (Str.join_lines (before ++ Str.kv_line key value :: after))
      = Some value.
Proof.
  intros Hkey before after value Hbefore Hne Hq. unfold OsRelease.exec.
  induction Hbefore as [|l ls [Hl Hp] _ IH].
  - destruct after as [|l' after'].
    + simpl. rewrite <- (append_nil_r (Str.kv_line key value)).
      apply exec_from_found; auto.
    + change (Str.join_lines ([] ++ Str.kv_line key value :: l' :: after'))
        with (Str.kv_line key value ++ String Str.LF (Str.join_lines (l' :: after')))%string.
      apply exec_from_found; auto. right. eexists _, _. split; reflexivity.
  - assert (Hsome : exists x xs, ls ++ Str.kv_line key value :: after = x :: xs).
    { destruct ls; simpl; eauto. }
    destruct Hsome as (x & xs & Hx).
    change ((l :: ls) ++ Str.kv_line key value :: after)
      with (l :: (ls ++ Str.kv_line key value :: after)).
    rewrite Hx in *.
    change (Str.join_lines (l :: x :: xs))
      with (l ++ String Str.LF (Str.join_lines (x :: xs)))%string.
    rewrite exec_from_unrelated_line; auto.
Qed.

(** X2.  The first line that gives the key a value decides: when no
    line before it starts with the key, [getDeviceType] returns the
    value of that [SLUG] line whatever the lines after it are, be they
    other [SLUG] lines; likewise [getOsVersion]. *)
Theorem probe_first_line_wins
    (ssh : Ssh) (deviceIp : string) (key value : string)
    (before after : list string) (st : State) :
  ssh_os_release ssh deviceIp
    = Ok (Str.join_lines (before ++ Str.kv_line key value :: after)) ->
  Forall (fun l => Str.one_line l = true /\
                   Str.starts_with (Str.key_prefix key) l = false) before ->
  value <> EmptyString -> Str.no_quote value = true ->
  (key = "SLUG" -> getDeviceType ssh deviceIp st = (Ok value, st)) /\
  (key = "VERSION_ID" -> getOsVersion ssh deviceIp st = (Ok value, st)).
Proof.
  intros Hrec Hbefore Hne Hq.
  unfold getDeviceType, getOsVersion, getDeviceOsRelease, bind, lift,
    parseDeviceType, parseOsVersion.
  rewrite Hrec. split; intros ->.
  - rewrite (exec_first_line "SLUG" slug_prefix_one_line); auto.
  - rewrite (exec_first_line "VERSION_ID" version_prefix_one_line); auto.
Qed.

Lemma probe_first_line_wins_sample :
  getDeviceType
    (Scenario.ssh_with_record
       [ Str.kv_line "ID" "balena-os";
         Str.kv_line "SLUG" "raspberrypi4-64";
         Str.kv_line "SLUG" "intel-nuc" ])
    Scenario.device_address (initial no_answers)
  = (Ok "raspberrypi4-64", initial no_answers).
Proof.
  apply (probe_first_line_wins
           (Scenario.ssh_with_record
              [ Str.kv_line "ID" "balena-os";
                Str.kv_line "SLUG" "raspberrypi4-64";
                Str.kv_line "SLUG" "intel-nuc" ])
           Scenario.device_address "SLUG" "raspberrypi4-64"
           [Str.kv_line "ID" "balena-os"] [Str.kv_line "SLUG" "intel-nuc"]
           (initial no_answers)).
  - reflexivity.
  - repeat constructor.
  - discriminate.
  - reflexivity.
  - reflexivity.
Defined.

(** ** Remote execution, continued *)

(** X3.  [assertDeviceIsCompatible] runs the version command, and
    nothing else, on the device; and an error it throws is always an
    [ExpectedError], whatever the transport rejected with. *)
Theorem compatibility_check_throws_expected_only
    (ssh : Ssh) (deviceIp : string) (st : State) :
  remote_commands (trace (snd (assertDeviceIsCompatible ssh deviceIp st)))
    = remote_commands (trace st) ++ [(deviceIp, "os-config --version")] /\
  forall e, fst (assertDeviceIsCompatible ssh deviceIp st) = Err e ->
            instanceof_ExpectedError e = true.
Proof.
  unfold assertDeviceIsCompatible, try_catch, getLocalDeviceCmdStdout, bind, lift,
    emit, ret, throw.
  cbn [script trace fst snd].
  destruct (ssh_run ssh deviceIp "os-config --version") as [out|e0].
  - cbn [fst snd trace]. rewrite remote_commands_app. split; [reflexivity|discriminate].
  - destruct (instanceof_ExpectedError e0) eqn:He; cbn [fst snd trace script].
    + rewrite remote_commands_app. split; [reflexivity|].
      intros e H. injection H as <-. exact He.
    + rewrite !remote_commands_app. cbn [remote_commands]. rewrite app_nil_r.
      split; [reflexivity|]. intros e H. injection H as <-. reflexivity.
Qed.

(** X4.  [execCommand] ends as the remote command ends, with the error
    of the transport unchanged when it fails, and the spinner it
    started is stopped in both cases, after the command. *)
Theorem execCommand_stops_spinner (ssh : Ssh) (deviceIp cmd msg : string) (st : State) :
  fst (execCommand ssh deviceIp cmd msg st) = outcome_unit (ssh_run ssh deviceIp cmd) /\
  trace (snd (execCommand ssh deviceIp cmd msg st))
    = trace st ++
      [SpinnerStart ("[" ++ deviceIp ++ "] Connecting...");
       RemoteExec deviceIp cmd;
       SpinnerStop].
Proof.
  split; [|apply execCommand_trace].
  unfold execCommand, try_finally, getLocalDeviceCmdStdout, bind, lift, emit, ret.
  cbn [script trace fst snd].
  destruct (ssh_run ssh deviceIp cmd); reflexivity.
Qed.

(** ** Locating a device, continued *)

Lemma ask_list_answer (message default : string) (choices : list Choice)
    (st : State) (a : string) :
  fst (Prompt.ask_list message default choices st) = Ok a ->
  exists c, In c choices /\ choice_value c = a.
Proof.
  unfold Prompt.ask_list.
  destruct (picks (script st)) as [|n rest]; cbn [fst]; [discriminate|].
  destruct (nth_error choices n) as [c|] eqn:E; cbn [fst]; [|discriminate].
  intros H. injection H as <-. exists c. split; [|reflexivity].
  eapply nth_error_In, E.
Qed.

Lemma ask_list_trace (message default : string) (choices : list Choice) (st : State) :
  trace (snd (Prompt.ask_list message default choices st))
    = trace st ++ [AskList message default choices].
Proof.
  unfold Prompt.ask_list.
  destruct (picks (script st)) as [|n rest]; [reflexivity|].
  destruct (nth_error choices n); reflexivity.
Qed.

(** X5.  An address [selectLocalBalenaOsDevice] returns is the address
    of a discovered device that answered the ping, and is not empty. *)
Theorem locate_returns_responsive_device (net : Network) (timeout : nat)
    (devices : list LocalBalenaOsDevice) (st : State) (a : string) :
  fair net ->
  discoverLocalBalenaOsDevices net timeout = Ok devices ->
  fst (selectLocalBalenaOsDevice net timeout st) = Ok a ->
  truthy a = true /\
  exists device,
    In device devices /\ address device = a /\
    docker_ping net a dockerPort dockerTimeout = true.
Proof.
  intros Hfair Hdisc Hrun.
  destruct (filter (responds net) devices) as [|d ds] eqn:Hresp.
  - exfalso. revert Hrun.
    unfold selectLocalBalenaOsDevice, bind, emit, lift. cbn beta iota.
    rewrite Hdisc, Hresp, (fair_nil net Hfair). discriminate.
  - destruct devices as [|first others]; [discriminate|].
    rewrite (locate_prompts_when_responsive net timeout first others st Hfair Hdisc)
      in Hrun by (rewrite Hresp; discriminate).
    apply ask_list_answer in Hrun as (c & Hc & <-).
    apply in_map_iff in Hc as (device & <- & Hin).
    apply (Permutation_in _ (Hfair _)) in Hin.
    apply filter_In in Hin as [Hin Hr].
    unfold responds in Hr. apply andb_true_iff in Hr as [Ht Hping].
    split; [exact Ht|]. exists device. repeat split; assumption.
Qed.

Lemma locate_returns_responsive_device_sample :
  truthy "192.168.1.50" = true /\
  exists device,
    In device [Scenario.kitchen_pi; Scenario.garage_pi] /\
    address device = "192.168.1.50" /\
    docker_ping Scenario.one_responsive "192.168.1.50" dockerPort dockerTimeout = true.
Proof.
  apply (locate_returns_responsive_device Scenario.one_responsive 4000
           [Scenario.kitchen_pi; Scenario.garage_pi]
           (initial {| confirms := []; texts := []; picks := [0] |})).
  - apply fair_identity. reflexivity.
  - reflexivity.
  - reflexivity.
Defined.

(** X6.  When some candidate answers the ping, what is shown after the
    discovery is one list prompt.  Its entries are the candidates that
    answered, in the order in which their pings completed, which makes
    them each responsive candidate once; its default is the address of
    the first discovered candidate, responsive or not. *)
Theorem locate_offers_responsive_devices (net : Network) (timeout : nat)
    (first : LocalBalenaOsDevice) (others : list LocalBalenaOsDevice) (st : State) :
  fair net ->
  discoverLocalBalenaOsDevices net timeout = Ok (first :: others) ->
  filter (responds net) (first :: others) <> [] ->
  trace (snd (selectLocalBalenaOsDevice net timeout st))
    = trace st ++
      [ SpinnerPromise "Discovering local balenaOS devices.."
                       "Reporting discovered devices";
        AskList "select a device" (address first)
          (map device_choice
             (settle_order net (filter (responds net) (first :: others)))) ] /\
  Permutation
    (map device_choice (settle_order net (filter (responds net) (first :: others))))
    (map device_choice (filter (responds net) (first :: others))).
Proof.
  intros Hfair Hdisc Hsome.
  rewrite (locate_prompts_when_responsive net timeout first others st Hfair Hdisc Hsome).
  split.
  - rewrite ask_list_trace. unfold after. cbn [trace].
    rewrite <- app_assoc. reflexivity.
  - apply Permutation_map, Hfair.
Qed.

Lemma locate_offers_responsive_devices_sample :
  trace (snd (selectLocalBalenaOsDevice Scenario.late_first 4000 (initial no_answers)))
    = [ SpinnerPromise "Discovering local balenaOS devices.."
                       "Reporting discovered devices";
        AskList "select a device" "192.168.1.51"
          [ {| choice_name := "attic.local (192.168.1.52)";
               choice_value := "192.168.1.52" |};
            {| choice_name := "kitchen.local (192.168.1.50)";
               choice_value := "192.168.1.50" |} ] ].
Proof.
  apply (proj1 (locate_offers_responsive_devices Scenario.late_first 4000
                  Scenario.garage_pi [Scenario.kitchen_pi; Scenario.attic_pi]
                  (initial no_answers)
                  (fun l => Permutation_sym (Permutation_rev l))
                  eq_refl
                  ltac:(discriminate))).
Defined.

(** X7.  [selectLocalDevice] turns the failure to find any device into
    an [ExpectedError] with the same message, having asked nothing; a
    discovery that fails with another message fails [selectLocalDevice]
    with that very error. *)
Theorem selectLocalDevice_errors (net : Network) (st : State) :
  let searched :=
    after st [SpinnerPromise "Discovering local balenaOS devices.."
                             "Reporting discovered devices"] in
  (forall devices,
     fair net ->
     discoverLocalBalenaOsDevices net 4000 = Ok devices ->
     filter (responds net) devices = [] ->
     selectLocalDevice net st = (Err (ExpectedError no_devices_message), searched)) /\
  (forall e,
     discoverLocalBalenaOsDevices net 4000 = Err e ->
     Str.includes "could not find any" (Str.toLowerCase (error_message e)) = false ->
     selectLocalDevice net st = (Err e, searched)).
Proof.
  cbv zeta. split.
  - intros devices Hfair Hdisc Hnone.
    unfold selectLocalDevice, try_catch, selectLocalBalenaOsDevice, bind, emit, lift.
    cbn beta iota. rewrite Hdisc, Hnone, (fair_nil net Hfair). reflexivity.
  - intros e Hdisc Hother.
    unfold selectLocalDevice, try_catch, selectLocalBalenaOsDevice, bind, emit, lift.
    cbn beta iota. rewrite Hdisc. cbn beta iota. rewrite Hother. reflexivity.
Qed.

Lemma selectLocalDevice_errors_sample :
  selectLocalDevice Scenario.none_responsive (initial no_answers)
    = (Err (ExpectedError no_devices_message),
       after (initial no_answers)
         [SpinnerPromise "Discovering local balenaOS devices.."
                         "Reporting discovered devices"]).
Proof.
  apply (proj1 (selectLocalDevice_errors Scenario.none_responsive (initial no_answers))
           [Scenario.kitchen_pi; Scenario.garage_pi]).
  - apply fair_identity. reflexivity.
  - reflexivity.
  - reflexivity.
Defined.

(** ** Base64, continued *)

Lemma digit_base64_char (n : N) : base64_char (Base64.digit n) = true.
Proof.
  unfold Base64.digit. generalize (N.to_nat n) as k. intros k.
  do 64 (destruct k as [|k]; [reflexivity|]). reflexivity.
Qed.

Lemma encode_length (bytes : list N) :
  String.length (Base64.encode bytes) = 4 * ((length bytes + 2) / 3).
Proof.
  induction bytes as [|a|a b|a b c l IH] using list_ind3;
    try reflexivity.
  cbn [Base64.encode String.length length]. rewrite IH.
  replace (S (S (S (length l))) + 2) with (length l + 2 + 1 * 3) by lia.
  rewrite Nat.div_add by discriminate. lia.
Qed.

(** X8.  The base64 text of any bytes is made of letters, digits, the
    plus sign, the slash and the pad character only, four characters
    for every three bytes begun: it holds nothing a shell would
    interpret inside the double quotes of the command. *)
Theorem base64_text_shape (bytes : list N) :
  Str.all_chars base64_char (Base64.encode bytes) = true /\
  String.length (Base64.encode bytes) = 4 * ((length bytes + 2) / 3) /\
  Str.no_quote (Base64.encode bytes) = true.
Proof.
  split; [|split; [apply encode_length|]].
  - induction bytes as [|a|a b|a b c l IH] using list_ind3;
      cbn [Base64.encode Str.all_chars]; rewrite ?digit_base64_char; auto.
  - unfold Str.no_quote.
    assert (Hd : forall n, negb (Ascii.eqb (Base64.digit n) Str.double_quote) = true).
    { intros n. unfold Base64.digit. generalize (N.to_nat n) as k. intros k.
      do 64 (destruct k as [|k]; [reflexivity|]). reflexivity. }
    induction bytes as [|a|a b|a b c l IH] using list_ind3;
      cbn [Base64.encode Str.all_chars]; rewrite ?Hd; auto.
Qed.

(** X9.  Decoding the base64 text of a list of bytes gives the list
    back, so two different lists of bytes never have the same text. *)
Theorem base64_round_trip (a b : list N) :
  Forall (fun x => (x < 256)%N) a ->
  Forall (fun x => (x < 256)%N) b ->
  Base64.decode (Base64.encode a) = Some a /\
  (Base64.encode a = Base64.encode b -> a = b).
Proof.
  intros Ha Hb. split; [now apply decode_encode|].
  intros H. apply (f_equal Base64.decode) in H.
  rewrite !decode_encode in H by assumption. congruence.
Qed.

Lemma base64_round_trip_sample :
  Base64.decode (Base64.encode [123; 125]%N) = Some [123; 125]%N /\
  (Base64.encode [123; 125]%N = Base64.encode [91; 93; 10]%N ->
   [123; 125]%N = [91; 93; 10]%N).
Proof.
  apply base64_round_trip; repeat constructor.
Defined.

(** ** Generating the configuration, continued *)

Section ObjectUpdates.

Lemma get_set_same (key : string) (v : JsValue) (obj : Obj.t) :
  Obj.get key (Obj.set key v obj) = v.
Proof.
  induction obj as [|[k w] obj IH]; simpl.
  - now rewrite String.eqb_refl.
  - destruct (String.eqb_spec k key) as [->|Hk]; simpl.
    + now rewrite String.eqb_refl.
    + destruct (String.eqb_spec k key); [congruence | exact IH].
Qed.

Lemma get_set_other (key other : string) (v : JsValue) (obj : Obj.t) :
  other <> key -> Obj.get other (Obj.set key v obj) = Obj.get other obj.
Proof.
  intros Hne. induction obj as [|[k w] obj IH]; simpl.
  - destruct (String.eqb_spec key other); [congruence | reflexivity].
  - destruct (String.eqb_spec k key) as [->|Hk]; simpl.
    + destruct (String.eqb_spec key other); [congruence | reflexivity].
    + destruct (String.eqb_spec k other); [reflexivity | exact IH].
Qed.

End ObjectUpdates.

Lemma generateApplicationConfig_inv (env : ConfigEnv) (app : Application)
    (options : ConfigOptions) (st st' : State) (result : Obj.t) :
  generateApplicationConfig env app options st = (Ok result, st') ->
  exists manifest collected config,
    device_getManifestBySlug env (is_for__device_type_0_slug app) = Ok manifest /\
    configGen env app
      (Obj.spread collected
         [("version", JStr (version options));
          ("appUpdatePollInterval", js_number (appUpdatePollInterval options))])
      = Ok config /\
    result = strip_connman config /\
    script st' = script st /\
    match manifest_options manifest with
    | Some l =>
        let asked :=
          filter (fun opt => negb (String.eqb (option_name opt) "network")) l in
        trace st' = trace st ++ [FormRun (map option_name asked)] /\
        form_run env asked
          (JObj [("appUpdatePollInterval", js_number (appUpdatePollInterval options))])
          = Ok collected
    | None => trace st' = trace st /\ collected = []
    end.
Proof.
  unfold generateApplicationConfig, bind, lift, ret, emit.
  destruct (device_getManifestBySlug env _) as [manifest|] eqn:Hm; [|discriminate].
  destruct (manifest_options manifest) as [l|] eqn:Hopts; cbn beta iota.
  - destruct (form_run env _ _) as [collected|] eqn:Hf; [|discriminate].
    match goal with
    | |- context [configGen env app ?v] => destruct (configGen env app v) as [config|] eqn:E
    end; [|discriminate].
    intros H. injection H as <- <-.
    exists manifest, collected, config. rewrite Hopts. cbn [script trace].
    repeat split; auto.
  - match goal with
    | |- context [configGen env app ?v] => destruct (configGen env app v) as [config|] eqn:E
    end; [|discriminate].
    intros H. injection H as <- <-.
    exists manifest, [], config. rewrite Hopts. repeat split; auto.
Qed.

(** X10.  The values handed to the configuration generator always
    carry the version and the poll interval the caller gave: what the
    form collected under those two keys is overridden. *)
Theorem config_values_carry_caller_options (env : ConfigEnv) (app : Application)
    (options : ConfigOptions) (st st' : State) (result : Obj.t) :
  generateApplicationConfig env app options st = (Ok result, st') ->
  exists values config,
    configGen env app values = Ok config /\
    Obj.get "version" values = JStr (version options) /\
    Obj.get "appUpdatePollInterval" values = js_number (appUpdatePollInterval options).
Proof.
  intros H.
  destruct (generateApplicationConfig_inv _ _ _ _ _ _ H)
    as (manifest & collected & config & _ & Hgen & _).
  eexists _, config. split; [exact Hgen|].
  unfold Obj.spread. cbn [fold_left fst snd]. split.
  - rewrite get_set_other by discriminate. apply get_set_same.
  - apply get_set_same.
Qed.

Lemma config_values_carry_caller_options_sample :
  exists values config,
    configGen Scenario.overriding_env Scenario.alice_fleet values = Ok config /\
    Obj.get "version" values = JStr "2.101.7" /\
    Obj.get "appUpdatePollInterval" values = JNum 600000%Z.
Proof.
  refine (config_values_carry_caller_options Scenario.overriding_env Scenario.alice_fleet
            {| version := "2.101.7"; appUpdatePollInterval := Some 600000%Z |}
            (initial no_answers) _ _ _).
  vm_compute. reflexivity.
Defined.

(** X11.  The form [generateApplicationConfig] runs never asks for an
    option named [network]: it is run on the other options of the
    manifest, in their order, and is not run at all when the manifest
    has no list of options. *)
Theorem config_form_skips_network (env : ConfigEnv) (app : Application)
    (options : ConfigOptions) (st st' : State) (result : Obj.t) :
  generateApplicationConfig env app options st = (Ok result, st') ->
  exists manifest,
    device_getManifestBySlug env (is_for__device_type_0_slug app) = Ok manifest /\
    match manifest_options manifest with
    | Some l =>
        exists names,
          trace st' = trace st ++ [FormRun names] /\
          ~ In "network" names /\
          names = filter (fun n => negb (String.eqb n "network")) (map option_name l)
    | None => trace st' = trace st
    end.
Proof.
  intros H.
  destruct (generateApplicationConfig_inv _ _ _ _ _ _ H)
    as (manifest & collected & config & Hm & _ & _ & _ & Hform).
  exists manifest. split; [exact Hm|].
  destruct (manifest_options manifest) as [l|]; [|apply Hform].
  destruct Hform as [Htrace _]. eexists. split; [exact Htrace|].
  assert (Hnames :
            map option_name
              (filter (fun opt => negb (String.eqb (option_name opt) "network")) l)
            = filter (fun n => negb (String.eqb n "network")) (map option_name l)).
  { clear. induction l as [|o l IH]; simpl; [reflexivity|].
    destruct (String.eqb (option_name o) "network"); simpl; now rewrite IH. }
  rewrite Hnames. split; [|reflexivity].
  intros Hin. apply filter_In in Hin as [_ Hn]. discriminate.
Qed.

Lemma config_form_skips_network_sample :
  exists manifest,
    device_getManifestBySlug (Scenario.config_env Scenario.wifi_config)
      (is_for__device_type_0_slug Scenario.alice_fleet) = Ok manifest /\
    match manifest_options manifest with
    | Some l =>
        exists names,
          trace (after (initial no_answers) [FormRun ["advanced"]])
            = trace (initial no_answers) ++ [FormRun names] /\
          ~ In "network" names /\
          names = filter (fun n => negb (String.eqb n "network")) (map option_name l)
    | None =>
        trace (after (initial no_answers) [FormRun ["advanced"]])
          = trace (initial no_answers)
    end.
Proof.
  refine (config_form_skips_network (Scenario.config_env Scenario.wifi_config)
            Scenario.alice_fleet
            {| version := "2.101.7"; appUpdatePollInterval := None |}
            (initial no_answers) _ Scenario.wifi_config _).
  reflexivity.
Defined.

(** ** Resolving the fleet, continued *)

Lemma askApplicationName_answer (validate taken : string -> bool)
    (default : option string) (answers : list string) :
  forall shown a rest evs,
    askApplicationName validate taken default shown answers = (Ok a, rest, evs) ->
    In a answers /\ validate a = true /\ taken a = false.
Proof.
  induction answers as [|x answers IH]; intros shown a rest evs H; simpl in H.
  - discriminate.
  - destruct (validate x) eqn:Hv.
    + destruct (taken x) eqn:Ht.
      * destruct (askApplicationName validate taken default false answers)
          as [[r' rest'] evs'] eqn:E.
        injection H as -> <- <-.
        destruct (IH _ _ _ _ E) as (Hin & Hva & Hta). auto with datatypes.
      * injection H as <- <- <-. auto with datatypes.
    + destruct (askApplicationName validate taken default true answers)
        as [[r' rest'] evs'] eqn:E.
      injection H as -> <- <-.
      destruct (IH _ _ _ _ E) as (Hin & Hva & Hta). auto with datatypes.
Qed.

Lemma shown_events_fleet (default : option string) (evs : list event) :
  Forall (fun e => e = AskInput name_prompt default \/
                   e = PrintErrorMessage name_taken_message) evs ->
  forallb fleet_event evs = true /\ existsb is_creation evs = false.
Proof.
  induction 1 as [|e evs [->| ->] _ [IH1 IH2]]; simpl; auto.
Qed.

(** What [createApplication] adds to the trace, by cases. *)
Lemma createApplication_cases (sdk : SDK) (validate : string -> bool)
    (deviceType : string) (name : option string) (st : State) :
  exists evs,
    trace (snd (createApplication sdk validate deviceType name st)) = trace st ++ evs /\
    ((forallb fleet_event evs = true /\ existsb is_creation evs = false /\
      forall a, fst (createApplication sdk validate deviceType name st) <> Ok a) \/
     exists shown answer u,
       evs = shown ++ [ApplicationCreate answer deviceType u] /\
       forallb fleet_event shown = true /\ existsb is_creation shown = false /\
       auth_whoami sdk = Ok (Some u) /\ truthy u = true /\
       In answer (texts (script st)) /\
       validate answer = true /\ name_taken sdk u answer = false).
Proof.
  unfold createApplication, bind, lift, throw, emit.
  destruct (auth_whoami sdk) as [[u|]|e] eqn:W; cbn [truthy_opt].
  - destruct (truthy u) eqn:T; cbn [negb].
    + destruct (askApplicationName validate (name_taken sdk u) name false
                  (texts (script st))) as [[r rest] evs1] eqn:E.
      destruct (askApplicationName_events _ _ _ _ _ _ _ _ E) as [Hall _].
      destruct (shown_events_fleet _ _ Hall) as [Hfleet Hnone].
      destruct r as [answer|err].
      * destruct (askApplicationName_answer _ _ _ _ _ _ _ _ E) as (Hin & Hv & Ht).
        exists (evs1 ++ [ApplicationCreate answer deviceType u]). split.
        { cbn [script trace snd].
          destruct (application_create sdk answer deviceType u) as [app|];
            cbn [snd trace];
            [destruct (application_get sdk (id app))|]; cbn [snd trace];
            now rewrite app_assoc. }
        right. exists evs1, answer, u. repeat split; auto.
      * exists evs1. split; [reflexivity|]. left. repeat split; auto. discriminate.
    + exists []. split; [now rewrite app_nil_r|]. left. repeat split. discriminate.
  - exists []. split; [now rewrite app_nil_r|]. left. repeat split. discriminate.
  - exists []. split; [now rewrite app_nil_r|]. left. repeat split. discriminate.
Qed.

(** X12.  [createApplication] creates at most one fleet, and only
    under a name that the user typed, that the validator accepts, and
    for which the check for a fleet of the caller with that name found
    none. *)
Theorem createApplication_creates_checked_name (sdk : SDK) (validate : string -> bool)
    (deviceType : string) (name : option string) (st : State) :
  exists evs,
    trace (snd (createApplication sdk validate deviceType name st)) = trace st ++ evs /\
    length (filter is_creation evs) <= 1 /\
    forall n t o, In (ApplicationCreate n t o) evs ->
      In n (texts (script st)) /\ validate n = true /\ name_taken sdk o n = false.
Proof.
  destruct (createApplication_cases sdk validate deviceType name st)
    as (evs & Htrace & [(Hfleet & Hnone & _)|(shown & answer & u & -> & Hfleet & Hnone & Hrest)]).
  - exists evs. split; [exact Htrace|]. split.
    + clear -Hnone. induction evs as [|e evs IH]; simpl in *; [lia|].
      apply orb_false_iff in Hnone as [He Hnone]. rewrite He. auto.
    + intros n t o Hin. exfalso.
      assert (existsb is_creation evs = true)
        by (apply existsb_exists; eexists; split; [exact Hin | reflexivity]).
      congruence.
  - exists (shown ++ [ApplicationCreate answer deviceType u]).
    split; [exact Htrace|].
    assert (Hshown : filter is_creation shown = []).
    { clear -Hnone. induction shown as [|e l IH]; simpl in *; [reflexivity|].
      apply orb_false_iff in Hnone as [He Hnone]. rewrite He. auto. }
    split.
    + rewrite filter_app, Hshown. simpl. lia.
    + intros n t o Hin. apply in_app_or in Hin as [Hin|[Hin|[]]].
      * exfalso.
        assert (existsb is_creation shown = true)
          by (apply existsb_exists; eexists; split; [exact Hin | reflexivity]).
        congruence.
      * injection Hin as <- <- <-. tauto.
Qed.

(** X13.  Without a logged-in user [createApplication] fails with
    [BalenaNotLoggedIn] before it asks or creates anything: the state
    is the one it started from. *)
Theorem createApplication_needs_login (sdk : SDK) (validate : string -> bool)
    (deviceType : string) (name : option string) (st : State) (whoami : option string) :
  auth_whoami sdk = Ok whoami ->
  truthy_opt whoami = false ->
  createApplication sdk validate deviceType name st = (Err BalenaNotLoggedIn, st).
Proof.
  intros Hw Hfalsy. unfold createApplication, bind, lift.
  rewrite Hw, Hfalsy. reflexivity.
Qed.

Lemma createApplication_needs_login_sample :
  createApplication Scenario.logged_out Scenario.any_name "raspberrypi4-64"
      (Some "myfleet")
      (initial {| confirms := []; texts := ["myfleet"]; picks := [] |})
    = (Err BalenaNotLoggedIn,
       initial {| confirms := []; texts := ["myfleet"]; picks := [] |}).
Proof.
  apply (createApplication_needs_login Scenario.logged_out Scenario.any_name
           "raspberrypi4-64" (Some "myfleet") _ (Some "")); reflexivity.
Defined.

Lemma selectAppFromList_trace (applications : list Application) (st : State) :
  trace (snd (selectAppFromList applications st))
    = trace st ++
      [SelectFromList "Select fleet" (map (fun app => (slug app, app)) applications)] /\
  forall a, fst (selectAppFromList applications st) = Ok a -> In a applications.
Proof.
  unfold selectAppFromList, Prompt.selectFromList.
  destruct (picks (script st)) as [|n rest]; cbn [fst snd trace].
  - split; [reflexivity | discriminate].
  - destruct (nth_error _ n) as [item|] eqn:E; cbn [fst snd trace].
    + split; [reflexivity|]. intros a H. injection H as <-.
      apply nth_error_In in E. apply in_map_iff in E as (app & <- & Hin). exact Hin.
    + split; [reflexivity | discriminate].
Qed.

(** What a confirmation followed by a creation adds to the trace. *)
Lemma confirm_then_create (sdk : SDK) (validate : string -> bool)
    (deviceType message : string) (name : option string) (st : State) :
  exists evs,
    trace (snd (bind (Prompt.confirm message)
                     (fun _ => createApplication sdk validate deviceType name) st))
      = trace st ++ evs /\
    forallb fleet_event evs = true /\
    (existsb is_creation evs = true -> exists cs, confirms (script st) = true :: cs).
Proof.
  unfold bind.
  pose proof (confirm_trace message st) as (Htrace & _ & Hyes).
  destruct (Prompt.confirm message st) as [[[]|e] st1] eqn:Hc; cbn [snd] in Htrace.
  - destruct (createApplication_cases sdk validate deviceType name st1)
      as (evs & Hevs & Hcases).
    exists (AskConfirm message :: evs). split.
    + rewrite Hevs, Htrace, <- app_assoc. reflexivity.
    + split; [|intros _; eapply Hyes; reflexivity].
      destruct Hcases as [(Hf & _)|(shown & answer & u & -> & Hf & _)]; simpl.
      * exact Hf.
      * rewrite forallb_app, Hf. reflexivity.
  - exists [AskConfirm message]. cbn [snd]. split; [exact Htrace|].
    split; [reflexivity | discriminate].
Qed.

Lemma resolution_events (sdk : SDK) (validate : string -> bool)
    (deviceTypeSlug : string) (appName : option string) (st : State) :
  exists evs,
    trace (snd (getOrSelectApplication sdk validate deviceTypeSlug appName st))
      = trace st ++ evs /\
    forallb fleet_event evs = true /\
    (existsb is_creation evs = true -> exists cs, confirms (script st) = true :: cs).
Proof.
  assert (Hquiet : forall e : error,
            exists evs, trace (snd (@Err Application e, st)) = trace st ++ evs /\
              forallb fleet_event evs = true /\
              (existsb is_creation evs = true ->
               exists cs, confirms (script st) = true :: cs)).
  { intros e. exists []. cbn [snd]. rewrite app_nil_r.
    repeat split. discriminate. }
  assert (Hselect : forall apps,
            exists evs, trace (snd (selectAppFromList apps st)) = trace st ++ evs /\
              forallb fleet_event evs = true /\
              (existsb is_creation evs = true ->
               exists cs, confirms (script st) = true :: cs)).
  { intros apps. eexists. split; [apply selectAppFromList_trace|].
    split; [reflexivity | discriminate]. }
  assert (Hnone : forall types,
            exists evs,
              trace (snd (createOrSelectApp sdk validate types deviceTypeSlug st))
                = trace st ++ evs /\
              forallb fleet_event evs = true /\
              (existsb is_creation evs = true ->
               exists cs, confirms (script st) = true :: cs)).
  { intros types. unfold createOrSelectApp. unfold bind at 1. unfold lift at 1.
    destruct (application_getAllDirectlyAccessible sdk _) as [apps|e]; [|apply Hquiet].
    destruct (Nat.eqb (length apps) 0); [apply confirm_then_create | apply Hselect]. }
  unfold getOrSelectApplication. unfold bind at 1. unfold lift at 1.
  destruct (deviceType_get sdk deviceTypeSlug) as [deviceType|e]; [|apply Hquiet].
  unfold bind at 1. unfold lift at 1.
  destruct (deviceType_getAllSupported sdk) as [all|e]; [|apply Hquiet].
  destruct appName as [[|c appName]|]; try apply Hnone.
  destruct (name_query (String c appName)) as [filter_ name].
  unfold bind at 1. unfold lift at 1.
  destruct (application_getAllDirectlyAccessible sdk filter_) as [apps|e];
    [|apply Hquiet].
  destruct (Nat.eqb (length apps) 0); [apply confirm_then_create|].
  destruct (filter _ apps) as [|app [|app' valid]].
  - apply Hquiet.
  - exists []. cbn [snd ret]. rewrite app_nil_r. repeat split. discriminate.
  - apply Hselect.
Qed.

(** X14.  Fleet resolution only talks to the user and to the API: the
    events it adds are questions, the complaint about a taken name and
    the creation of a fleet, so it runs no command on the device and
    prints nothing else. *)
Theorem resolution_leaves_device_alone (sdk : SDK) (validate : string -> bool)
    (deviceTypeSlug : string) (appName : option string) :
  emits_only fleet_event (getOrSelectApplication sdk validate deviceTypeSlug appName) /\
  forall st,
    remote_commands
      (trace (snd (getOrSelectApplication sdk validate deviceTypeSlug appName st)))
    = remote_commands (trace st).
Proof.
  split.
  - intros st.
    destruct (resolution_events sdk validate deviceTypeSlug appName st)
      as (evs & Htrace & Hfleet & _).
    now exists evs.
  - intros st.
    destruct (resolution_events sdk validate deviceTypeSlug appName st)
      as (evs & Htrace & Hfleet & _).
    rewrite Htrace, remote_commands_app.
    assert (Hrc : remote_commands evs = []).
    { clear -Hfleet. induction evs as [|e evs IH]; [reflexivity|].
      simpl in Hfleet. apply andb_true_iff in Hfleet as [He Hfleet].
      destruct e; try discriminate; simpl; auto. }
    rewrite Hrc. apply app_nil_r.
Qed.

(** X15.  Fleet resolution never creates a fleet the user did not
    agree to: when its events hold the creation of a fleet, the answer
    to the question that came first was yes. *)
Theorem resolution_creates_only_when_confirmed (sdk : SDK) (validate : string -> bool)
    (deviceTypeSlug : string) (appName : option string) (st : State) :
  exists evs,
    trace (snd (getOrSelectApplication sdk validate deviceTypeSlug appName st))
      = trace st ++ evs /\
    forall n t o, In (ApplicationCreate n t o) evs ->
      exists cs, confirms (script st) = true :: cs.
Proof.
  destruct (resolution_events sdk validate deviceTypeSlug appName st)
    as (evs & Htrace & _ & Hcreate).
  exists evs. split; [exact Htrace|].
  intros n t o Hin. apply Hcreate.
  apply existsb_exists. eexists. split; [exact Hin | reflexivity].
Qed.

(** X16.  Without a fleet name, and with fleets the device can join,
    the user is always asked to pick, even among one: the list is what
    the API returned, in its order, and the fleet returned is one of
    the list. *)
Theorem resolution_without_name_lists_fleets
    (sdk : SDK) (validate : string -> bool) (deviceTypeSlug : string)
    (appName : option string) (deviceType : DeviceType)
    (allDeviceTypes : list DeviceType) (applications : list Application) (st : State) :
  truthy_opt appName = false ->
  deviceType_get sdk deviceTypeSlug = Ok deviceType ->
  deviceType_getAllSupported sdk = Ok allDeviceTypes ->
  application_getAllDirectlyAccessible sdk
    (FilterDeviceTypeIn (compatibleDeviceTypes sdk deviceType allDeviceTypes))
    = Ok applications ->
  applications <> [] ->
  let run := getOrSelectApplication sdk validate deviceTypeSlug appName st in
  trace (snd run)
    = trace st ++
      [SelectFromList "Select fleet" (map (fun app => (slug app, app)) applications)] /\
  forall app, fst run = Ok app -> In app applications.
Proof.
  intros Hfalsy Hget Hall Hquery Hsome. cbv zeta.
  assert (Hrun : getOrSelectApplication sdk validate deviceTypeSlug appName st
                 = selectAppFromList applications st).
  { unfold getOrSelectApplication, createOrSelectApp, bind, lift.
    rewrite Hget, Hall.
    destruct appName as [[|c appName]|]; try discriminate;
      rewrite Hquery; destruct applications; try congruence; reflexivity. }
  rewrite Hrun. apply selectAppFromList_trace.
Qed.

Lemma resolution_without_name_lists_fleets_sample :
  let st := initial {| confirms := []; texts := []; picks := [1] |} in
  let run :=
    getOrSelectApplication Scenario.cloud Scenario.any_name "raspberrypi4-64" None st in
  trace (snd run)
    = trace st ++
      [SelectFromList "Select fleet"
         (map (fun app => (slug app, app)) [Scenario.alice_fleet; Scenario.bob_fleet])] /\
  forall app, fst run = Ok app -> In app [Scenario.alice_fleet; Scenario.bob_fleet].
Proof.
  apply (resolution_without_name_lists_fleets Scenario.cloud Scenario.any_name
           "raspberrypi4-64" None Scenario.rpi4
           [Scenario.rpi4; Scenario.rpi3; Scenario.nuc]
           [Scenario.alice_fleet; Scenario.bob_fleet]
           (initial {| confirms := []; texts := []; picks := [1] |}));
    try reflexivity.
  discriminate.
Defined.

(** ** The workflows, continued *)









Lemma assertDeviceIsCompatible_fails (ssh : Ssh) (deviceIp : string) (e : error)
    (st : State) :
  ssh_run ssh deviceIp "os-config --version" = Err e ->
  exists e' evs,
    assertDeviceIsCompatible ssh deviceIp st
      = (Err e', after st (RemoteExec deviceIp "os-config --version" :: evs)) /\
    instanceof_ExpectedError e' = true /\
    remote_commands evs = [] /\
    existsb is_prompt evs = false /\ existsb is_creation evs = false.
Proof.
  intros Hrun.
  unfold assertDeviceIsCompatible, try_catch, getLocalDeviceCmdStdout, bind, lift,
    emit, ret, throw.
  cbn [script trace fst snd]. rewrite Hrun.
  destruct (instanceof_ExpectedError e) eqn:He; cbn [script trace].
  - exists e, []. repeat split; auto.
  - eexists _, [ConsoleError _]. unfold after. rewrite <- app_assoc.
    repeat split; reflexivity.
Qed.

Lemma bind_err {A B : Type} (m : M A) (k : A -> M B) (st st1 : State) (e : error) :
  m st = (Err e, st1) -> bind m k st = (Err e, st1).
Proof. unfold bind. intros ->. reflexivity. Qed.

(** X18.  A device that fails the version check is left alone: on a
    given address [join] and [leave] stop with an [ExpectedError]
    after that one command, having asked nothing and created no
    fleet. *)
Theorem failed_check_stops_workflows
    (net : Network) (ssh : Ssh) (sdk : SDK) (validate : string -> bool)
    (env : ConfigEnv) (deviceIp : string) (appName : option string)
    (interval : option Z) (e : error) (st : State) :
  truthy deviceIp = true ->
  ssh_run ssh deviceIp "os-config --version" = Err e ->
  let stopped (run : res unit * State) :=
    exists e' evs,
      fst run = Err e' /\ instanceof_ExpectedError e' = true /\
      trace (snd run) = trace st ++ evs /\
      remote_commands evs = [(deviceIp, "os-config --version")] /\
      existsb is_prompt evs = false /\ existsb is_creation evs = false in
  stopped (join net ssh sdk validate env (Some deviceIp) appName interval st) /\
  stopped (leave net ssh (Some deviceIp) st).
Proof.
  intros Hip Hrun. cbv zeta.
  destruct (assertDeviceIsCompatible_fails ssh deviceIp e
              (after st [LogDebug "Determining device..."]) Hrun)
    as (e' & evs & Hcheck & He' & Hrc & Hprompt & Hcreate).
  assert (Hjoin : join net ssh sdk validate env (Some deviceIp) appName interval st
                  = (Err e', after (after st [LogDebug "Determining device..."])
                               (RemoteExec deviceIp "os-config --version" :: evs))).
  { unfold join, given_or_selected. cbn [truthy_opt]. rewrite Hip.
    unfold bind at 1. unfold emit at 1. cbn beta iota.
    unfold bind at 1. unfold ret at 1. cbn beta iota.
    apply bind_err. exact Hcheck. }
  assert (Hleave : leave net ssh (Some deviceIp) st
                   = (Err e', after (after st [LogDebug "Determining device..."])
                                (RemoteExec deviceIp "os-config --version" :: evs))).
  { unfold leave, given_or_selected. cbn [truthy_opt]. rewrite Hip.
    unfold bind at 1. unfold emit at 1. cbn beta iota.
    unfold bind at 1. unfold ret at 1. cbn beta iota.
    apply bind_err. exact Hcheck. }
  rewrite Hjoin, Hleave. cbn [fst snd after trace].
  split;
    (exists e', (LogDebug "Determining device..."
                 :: RemoteExec deviceIp "os-config --version" :: evs);
     split; [reflexivity|]; split; [exact He'|];
     split; [now rewrite <- app_assoc|];
     cbn [remote_commands existsb is_prompt is_creation orb];
     rewrite Hrc; auto).
Qed.

Lemma failed_check_stops_workflows_sample :
  let stopped (run : res unit * State) :=
    exists e' evs,
      fst run = Err e' /\ instanceof_ExpectedError e' = true /\
      trace (snd run) = trace (initial no_answers) ++ evs /\
      remote_commands evs = [("192.168.1.50", "os-config --version")] /\
      existsb is_prompt evs = false /\ existsb is_creation evs = false in
  stopped (join Scenario.none_responsive Scenario.unreachable_ssh Scenario.cloud
             Scenario.any_name Scenario.plain_env (Some "192.168.1.50")
             (Some "sensors") None (initial no_answers)) /\
  stopped (leave Scenario.none_responsive Scenario.unreachable_ssh
             (Some "192.168.1.50") (initial no_answers)).
Proof.
  apply (failed_check_stops_workflows Scenario.none_responsive Scenario.unreachable_ssh
           Scenario.cloud Scenario.any_name Scenario.plain_env "192.168.1.50"
           (Some "sensors") None
           (OtherError "connect EHOSTUNREACH 192.168.1.50:22222") (initial no_answers));
    reflexivity.
Defined.

(** X19.  On a device that passes the version check, [leave] with a
    given address runs two commands on it, the check and then
    [os-config leave], and ends as the second one ends. *)
Theorem leave_runs_check_then_leave (net : Network) (ssh : Ssh)
    (deviceIp out : string) (st : State) :
  truthy deviceIp = true ->
  ssh_run ssh deviceIp "os-config --version" = Ok out ->
  remote_commands (trace (snd (leave net ssh (Some deviceIp) st)))
    = remote_commands (trace st) ++
      [(deviceIp, "os-config --version"); (deviceIp, "os-config leave")] /\
  fst (leave net ssh (Some deviceIp) st)
    = outcome_unit (ssh_run ssh deviceIp "os-config leave").
Proof.
  intros Hip Hcheck. split; [now apply (leave_remote_commands net ssh deviceIp out)|].
  unfold leave, given_or_selected, assertDeviceIsCompatible, deconfigure, execCommand,
    try_catch, try_finally, getLocalDeviceCmdStdout, bind, lift, emit, ret.
  cbn [truthy_opt]. rewrite Hip. cbn [script trace fst snd]. rewrite Hcheck.
  cbn [script trace fst snd].
  destruct (ssh_run ssh deviceIp "os-config leave"); reflexivity.
Qed.

Lemma leave_runs_check_then_leave_sample :
  remote_commands
    (trace (snd (leave Scenario.none_responsive Scenario.healthy_ssh
                   (Some "192.168.1.50") (initial no_answers))))
    = remote_commands (trace (initial no_answers)) ++
      [("192.168.1.50", "os-config --version"); ("192.168.1.50", "os-config leave")] /\
  fst (leave Scenario.none_responsive Scenario.healthy_ssh
         (Some "192.168.1.50") (initial no_answers))
    = outcome_unit (ssh_run Scenario.healthy_ssh "192.168.1.50" "os-config leave").
Proof.
  apply (leave_runs_check_then_leave Scenario.none_responsive Scenario.healthy_ssh
           "192.168.1.50" "os-config 1.2.1" (initial no_answers)); reflexivity.
Defined.

(** X20.  A name that matches fleets is settled by the compatible ones
    among them: with none the resolver fails without asking, and with
    exactly one it returns that fleet, which is compatible, without
    asking. *)
Theorem named_fleet_single_match
    (sdk : SDK) (validate : string -> bool) (deviceTypeSlug appName : string)
    (deviceType : DeviceType) (allDeviceTypes : list DeviceType)
    (applications : list Application) (st : State) :
  truthy appName = true ->
  deviceType_get sdk deviceTypeSlug = Ok deviceType ->
  deviceType_getAllSupported sdk = Ok allDeviceTypes ->
  application_getAllDirectlyAccessible sdk (fst (name_query appName)) = Ok applications ->
  applications <> [] ->
  let compatible := compatibleDeviceTypes sdk deviceType allDeviceTypes in
  let valid :=
    filter (fun app => includes_string compatible (is_for__device_type_0_slug app))
           applications in
  let run := getOrSelectApplication sdk validate deviceTypeSlug (Some appName) st in
  (valid = [] ->
     run = (Err (ExpectedError "No fleet found with a matching device type"), st)) /\
  (forall app, valid = [app] ->
     run = (Ok app, st) /\ In app applications /\
     includes_string compatible (is_for__device_type_0_slug app) = true).
Proof.
  intros Htruthy Hget Hall Hquery Hsome. cbv zeta.
  destruct (named_fleet_filtered sdk validate deviceTypeSlug appName deviceType
              allDeviceTypes applications st Htruthy Hget Hall Hquery Hsome)
    as [Hnone Hone].
  split; [exact Hnone|].
  intros app Hvalid. destruct (Hone app Hvalid) as [Hrun Hcompat].
  split; [exact Hrun|]. split; [|exact Hcompat].
  assert (Hin : In app
                  (filter (fun a => includes_string
                                      (compatibleDeviceTypes sdk deviceType allDeviceTypes)
                                      (is_for__device_type_0_slug a))
                          applications))
    by (rewrite Hvalid; now left).
  apply filter_In in Hin. apply Hin.
Qed.

Lemma named_fleet_single_match_sample :
  getOrSelectApplication Scenario.cloud_with_fleet Scenario.any_name "raspberrypi4-64"
      (Some "MyOrg/MyFleet") (initial no_answers)
    = (Ok Scenario.myorg_fleet, initial no_answers) /\
  In Scenario.myorg_fleet [Scenario.myorg_fleet] /\
  includes_string
    (compatibleDeviceTypes Scenario.cloud_with_fleet Scenario.rpi4
       [Scenario.rpi4; Scenario.rpi3; Scenario.nuc])
    (is_for__device_type_0_slug Scenario.myorg_fleet) = true.
Proof.
  apply (proj2 (named_fleet_single_match Scenario.cloud_with_fleet Scenario.any_name
                  "raspberrypi4-64" "MyOrg/MyFleet" Scenario.rpi4
                  [Scenario.rpi4; Scenario.rpi3; Scenario.nuc]
                  [Scenario.myorg_fleet] (initial no_answers)
                  eq_refl eq_refl eq_refl eq_refl
                  ltac:(discriminate))).
  reflexivity.
Defined.

(** ** Pinning a device, continued *)

Lemma includes_after (p a s : string) :
  Str.includes p s = true -> Str.includes p (a ++ s) = true.
Proof.
  intros H. induction a as [|c a IH]; [exact H|].
  simpl. rewrite IH. apply orb_true_r.
Qed.

Lemma includes_prefix (p b : string) : Str.includes p (p ++ b) = true.
Proof. apply (includes_app p EmptyString b). Qed.

(** X21.  Without a commit, and for a device that is pinned and
    belongs to a fleet, what [balena device pin] prints names the
    pinned commit and gives the command that lists the releases of
    that fleet. *)
Theorem pin_prints_release_and_fleet (balena : DevicePinCmd.Balena)
    (uuid commit appSlug : string) (device : DevicePinCmd.Device) (st : State) :
  DevicePinCmd.device_get balena uuid = Ok device ->
  DevicePinCmd.getExpandedProp balena
    (DevicePinCmd.should_be_running__release device) "commit" = Some commit ->
  truthy commit = true ->
  DevicePinCmd.getExpandedProp balena
    (DevicePinCmd.belongs_to__application device) "slug" = Some appSlug ->
  exists text,
    DevicePinCmd.run balena
      {| DevicePinCmd.uuid := uuid; DevicePinCmd.releaseToPinTo := None |} st
      = (Ok tt, after st [ConsoleLog text]) /\
    Str.includes ("pinned to " ++ commit ++ ".") text = true /\
    Str.includes ("balena releases " ++ appSlug) text = true.
Proof.
  intros Hget Hcommit Htruthy Hslug.
  unfold DevicePinCmd.run, bind, lift, emit. cbn [DevicePinCmd.uuid].
  rewrite Hget. cbn [DevicePinCmd.releaseToPinTo truthy_opt negb].
  rewrite Hcommit, Hslug. eexists. split; [reflexivity|].
  unfold DevicePinCmd.current_state_message. cbn [truthy_opt]. rewrite Htruthy.
  unfold DevicePinCmd.interpolate, Json.interpolate. split.
  - assert (E : forall rest : string,
               (("This device is currently pinned to " ++ commit ++ ".") ++ rest
                = "This device is currently " ++ (("pinned to " ++ commit ++ ".") ++ rest))%string).
    { intros rest. rewrite !append_assoc. reflexivity. }
    rewrite E. apply includes_after, includes_prefix.
  - do 6 apply includes_after.
    assert (E : forall rest : string,
               ("balena releases " ++ appSlug ++ rest
                = ("balena releases " ++ appSlug) ++ rest)%string).
    { intros rest. rewrite append_assoc. reflexivity. }
    rewrite E. apply includes_prefix.
Qed.

Lemma pin_prints_release_and_fleet_sample :
  exists text,
    DevicePinCmd.run Scenario.pinnable
      {| DevicePinCmd.uuid := "7cf02a6"; DevicePinCmd.releaseToPinTo := None |}
      (initial no_answers)
      = (Ok tt, after (initial no_answers) [ConsoleLog text]) /\
    Str.includes ("pinned to " ++ "91165e5" ++ ".") text = true /\
    Str.includes ("balena releases " ++ "alice/sensors") text = true.
Proof.
  apply (pin_prints_release_and_fleet Scenario.pinnable "7cf02a6" "91165e5"
           "alice/sensors"
           {| DevicePinCmd.should_be_running__release := [[("commit", "91165e5")]];
              DevicePinCmd.belongs_to__application := [[("slug", "alice/sensors")]] |}
           (initial no_answers)); reflexivity.
Defined.
